(** * ETO_JS: observable objects, observable lists and the undo/redo system

    A shallow embedding of [ETO_Observable], [ETO_ObservableList],
    [ETO_InvertibleCmds] / [ETO_SetPropertyCmd], [ETO_ArrayInsertCmd] /
    [ETO_ArrayRemoveCmd] and [ETO_UndoRedoSystem].

    JavaScript objects live in a heap and are named by their position in it;
    closures are data ([Callback], [Slot]); loops that re-read a live array are
    bounded by an explicit amount of gas. *)

From Stdlib Require Import ZArith String Ascii Bool Lia.
From stdpp Require Import base list option.

Set Warnings "-register-all".

Local Open Scope string_scope.
Local Open Scope Z_scope.
Local Open Scope list_scope.

(** ** JavaScript values *)

(** The values the modelled code stores, compares and passes around.
    Numbers are the integers and [NaN]; objects are references. *)
Inductive Value : Type :=
| VUndefined
| VNull
| VBool (b : bool)
| VNum (z : Z)
| VNaN
| VStr (s : string)
| VObservable (o : nat)                (* an ETO_Observable instance *)
| VList (l : nat)                      (* an ETO_ObservableList instance *)
| VObject (ctor : string) (r : nat)    (* any other object, with its constructor's name *)
| VFunction (r : nat).

(** [a === b] *)
Definition strict_eq (a b : Value) : bool :=
  match a, b with
  | VUndefined, VUndefined => true
  | VNull, VNull => true
  | VBool x, VBool y => Bool.eqb x y
  | VNum x, VNum y => Z.eqb x y
  | VStr x, VStr y => String.eqb x y
  | VObservable x, VObservable y => Nat.eqb x y
  | VList x, VList y => Nat.eqb x y
  | VObject _ x, VObject _ y => Nat.eqb x y
  | VFunction x, VFunction y => Nat.eqb x y
  | _, _ => false                      (* NaN === NaN is false *)
  end.

(** SameValue, as Object.defineProperty compares values. *)
Definition same_value (a b : Value) : bool :=
  match a, b with
  | VNaN, VNaN => true
  | _, _ => strict_eq a b
  end.

(** [v == undefined] *)
Definition loosely_undefined (v : Value) : bool :=
  match v with VUndefined | VNull => true | _ => false end.

(** Truthiness, as [if (v)] tests it. *)
Definition truthy (v : Value) : bool :=
  match v with
  | VUndefined | VNull | VNaN => false
  | VBool b => b
  | VNum z => negb (Z.eqb z 0)
  | VStr s => negb (String.eqb s "")
  | _ => true
  end.

(** [typeof v] *)
Definition typeof (v : Value) : string :=
  match v with
  | VUndefined => "undefined"
  | VBool _ => "boolean"
  | VNum _ | VNaN => "number"
  | VStr _ => "string"
  | VFunction _ => "function"
  | VNull | VObservable _ | VList _ | VObject _ _ => "object"
  end.

(** [v.constructor.name]; reading it off [null] is a TypeError. *)
Definition constructor_name (v : Value) : option string :=
  match v with
  | VObservable _ => Some "ETO_Observable"
  | VList _ => Some "ETO_ObservableList"
  | VObject c _ => Some c
  | _ => None
  end.

Definition is_primitive (v : Value) : bool :=
  match v with
  | VStr _ | VBool _ | VNum _ | VNaN => true
  | _ => false
  end.

(** ** Decimal strings and [parseInt] *)

Definition digit_of_nat (n : nat) : ascii := ascii_of_nat (48 + n).

Fixpoint digits_of_pos (fuel : nat) (n : nat) (acc : string) : string :=
  match fuel with
  | O => acc
  | S fuel' =>
      let acc' := String (digit_of_nat (n mod 10)) acc in
      match (n / 10)%nat with
      | O => acc'
      | q => digits_of_pos fuel' q acc'
      end
  end.

Definition nat_toString (n : nat) : string := digits_of_pos (S n) n "".

(** [z.toString()] for an integer [z]. *)
Definition Z_toString (z : Z) : string :=
  if z <? 0 then String.append "-" (nat_toString (Z.to_nat (- z))) else nat_toString (Z.to_nat z).

(** A string is held as the bytes of its UTF-8 encoding, which is also how a
    string literal of this file is read.  The white space and line terminators
    of JavaScript (WhiteSpace and LineTerminator of ECMAScript, with the space
    separators of Unicode 6.3 and later) are then the following byte
    sequences.  Of one byte: tab, line feed, vertical tab, form feed, carriage
    return and space. *)
Definition is_whitespace (c : ascii) : bool :=
  let n := nat_of_ascii c in
  (n =? 32)%nat || (n =? 9)%nat || (n =? 10)%nat || (n =? 11)%nat || (n =? 12)%nat
  || (n =? 13)%nat.

(** Of two bytes: U+00A0, the no-break space. *)
Definition is_whitespace2 (c1 c2 : ascii) : bool :=
  ((nat_of_ascii c1 =? 194) && (nat_of_ascii c2 =? 160))%nat.

(** Of three bytes: U+1680, U+2000 to U+200A, U+2028, U+2029, U+202F, U+205F,
    U+3000 and U+FEFF. *)
Definition is_whitespace3 (c1 c2 c3 : ascii) : bool :=
  let n1 := nat_of_ascii c1 in
  let n2 := nat_of_ascii c2 in
  let n3 := nat_of_ascii c3 in
  ((n1 =? 225) && (n2 =? 154) && (n3 =? 128)
   || (n1 =? 226) && (n2 =? 128)
      && ((128 <=? n3) && (n3 <=? 138) || (n3 =? 168) || (n3 =? 169) || (n3 =? 175))
   || (n1 =? 226) && (n2 =? 129) && (n3 =? 159)
   || (n1 =? 227) && (n2 =? 128) && (n3 =? 128)
   || (n1 =? 239) && (n2 =? 187) && (n3 =? 191))%nat.

(** The first byte of a white space character of more than one byte. *)
Definition is_whitespace_lead (c : ascii) : bool :=
  let n := nat_of_ascii c in
  ((n =? 194) || (n =? 225) || (n =? 226) || (n =? 227) || (n =? 239))%nat.

Definition digit_value (c : ascii) : option Z :=
  let n := nat_of_ascii c in
  if ((48 <=? n) && (n <=? 57))%nat then Some (Z.of_nat (n - 48)) else None.

(** [s] without its leading white space and line terminators. *)
Fixpoint skip_whitespace (s : string) : string :=
  match s with
  | String c s1 =>
      if is_whitespace c then skip_whitespace s1
      else if is_whitespace_lead c then
        match s1 with
        | String c2 s2 =>
            if is_whitespace2 c c2 then skip_whitespace s2
            else
              match s2 with
              | String c3 s3 => if is_whitespace3 c c2 c3 then skip_whitespace s3 else s
              | EmptyString => s
              end
        | EmptyString => s
        end
      else s
  | EmptyString => s
  end.

(** The longest prefix of decimal digits, read as a number; [None] when the
    prefix is empty. *)
Fixpoint parse_digits (s : string) (acc : option Z) : option Z :=
  match s with
  | String c s' =>
      match digit_value c with
      | Some d => parse_digits s' (Some (10 * default 0 acc + d))
      | None => acc
      end
  | EmptyString => acc
  end.

(** [parseInt(s, 10)]: leading white space and line terminators, an optional
    sign, then digits up to the first character that is not one; [None] is
    NaN. *)
Definition parseInt (s : string) : option Z :=
  match skip_whitespace s with
  | String "-" s' => Z.opp <$> parse_digits s' None
  | String "+" s' => parse_digits s' None
  | s' => parse_digits s' None
  end.

(** The string of the given bytes. *)
Definition of_bytes (bytes : list nat) : string :=
  fold_right (fun b s => String (ascii_of_nat b) s) "" bytes.

(** The white space and line terminators of JavaScript in UTF-8: U+0009 to
    U+000D, U+0020, U+00A0, U+1680, U+2000 to U+200A, U+2028, U+2029, U+202F,
    U+205F, U+3000 and U+FEFF. *)
Definition WhiteSpace : list string :=
  map of_bytes
    [[9]; [10]; [11]; [12]; [13]; [32]; [194; 160]; [225; 154; 128];
     [226; 128; 128]; [226; 128; 129]; [226; 128; 130]; [226; 128; 131];
     [226; 128; 132]; [226; 128; 133]; [226; 128; 134]; [226; 128; 135];
     [226; 128; 136]; [226; 128; 137]; [226; 128; 138];
     [226; 128; 168]; [226; 128; 169]; [226; 128; 175]; [226; 129; 159];
     [227; 128; 128]; [239; 187; 191]]%nat.

(** ** Properties of an object *)

(** What a property of an observable object is made of.  [DataSlot] is a data
    property; the others are the accessors the add functions install, each
    holding the variable its closures capture.  [MixedSlot] is the get function
    of addPropertyWithPrivateSet defined over an accessor that had a set
    function: Object.defineProperty keeps the set function a descriptor does
    not mention, with the variable (and filter) that function captured. *)
Inductive Slot : Type :=
| DataSlot (value : Value) (writable : bool)
| PlainSlot (propertyValue : Value)                 (* addProperty: get and set *)
| PrivateSlot (backingVar : Value)                  (* addPropertyWithPrivateSet: get only *)
| FilterSlot (propertyValue : Value) (setFilterFunc : Value -> Value -> Value)
| MixedSlot (backingVar : Value) (propertyValue : Value)
    (setFilterFunc : option (Value -> Value -> Value)).

Record Property : Type := mkProperty {
  slot : Slot;
  enumerable : bool;
  configurable : bool
}.

(** What reading the property yields. *)
Definition slot_get (s : Slot) : Value :=
  match s with
  | DataSlot v _ => v
  | PlainSlot v => v
  | PrivateSlot v => v
  | FilterSlot v _ => v
  | MixedSlot v _ _ => v
  end.

(** Whether the property descriptor has a "set" member: every accessor
    descriptor has one, also when no setter was given. *)
Definition desc_has_set (s : Slot) : bool :=
  match s with DataSlot _ _ => false | _ => true end.

(** Whether an ordinary assignment can reach the value that reading yields. *)
Definition assignable (s : Slot) : bool :=
  match s with
  | DataSlot _ w => w
  | PlainSlot _ | FilterSlot _ _ => true
  | PrivateSlot _ | MixedSlot _ _ _ => false
  end.

(** The slot Object.defineProperty leaves when the descriptor [p] is applied
    to a configurable property of slot [cur]: an accessor descriptor without a
    set member keeps the set function of an accessor. *)
Definition merge_slot (cur p : Slot) : Slot :=
  match p, cur with
  | PrivateSlot backingVar, PlainSlot v => MixedSlot backingVar v None
  | PrivateSlot backingVar, FilterSlot v f => MixedSlot backingVar v (Some f)
  | _, _ => p
  end.

Definition Props := list (string * Property).

Fixpoint own (ps : Props) (name : string) : option Property :=
  match ps with
  | [] => None
  | (n, p) :: ps' => if String.eqb n name then Some p else own ps' name
  end.

(** Replace the property [name] where it stands. *)
Fixpoint replace_own (ps : Props) (name : string) (p : Property) : Props :=
  match ps with
  | [] => []
  | (n, q) :: ps' =>
      if String.eqb n name then (n, p) :: ps' else (n, q) :: replace_own ps' name p
  end.

Fixpoint delete_own (ps : Props) (name : string) : Props :=
  match ps with
  | [] => []
  | (n, q) :: ps' => if String.eqb n name then ps' else (n, q) :: delete_own ps' name
  end.

(** The members every instance inherits: the functions assigned to
    ETO_Observable.prototype, and those of Object.prototype. *)
Definition ETO_Observable_prototype : list string :=
  [ "addChangeObserver"; "addDeserializedProperty"; "addProperty";
    "addPropertyWithPrivateSet"; "addPropertyWithSetFilter"; "addROProperty";
    "notifyAll"; "removeChangeObserver"; "removeProperty"; "seal"; "toJSON";
    "toString"; "constructor" ].

Definition Object_prototype : list string :=
  [ "constructor"; "hasOwnProperty"; "isPrototypeOf"; "propertyIsEnumerable";
    "toLocaleString"; "toString"; "valueOf"; "__proto__"; "__defineGetter__";
    "__defineSetter__"; "__lookupGetter__"; "__lookupSetter__" ].

Definition inherited (name : string) : bool :=
  existsb (String.eqb name) (ETO_Observable_prototype ++ Object_prototype).

(** ** Observers, objects, lists and the heap *)

(** The functions registered as observers.  [itemChangeCallback] is the closure
    a list creates when it takes an observable item in; it captures the list,
    the item and the index.  [userCallback k] is the k-th function of the
    program that uses the library. *)
Inductive Callback : Type :=
| itemChangeCallback (us : nat) (item : Value) (insertionIndex : Z)
| userCallback (k : nat).

(** The frozen handle addChangeObserver returns; [hid] is its identity. *)
Record ObserverHandle : Type := mkHandle {
  hid : nat;
  callbackFunction : Callback;
  userData : Value;
  callbackThis : Value
}.

(** The handle of a list observer. *)
Record ListObserver : Type := mkListObserver {
  lhid : nat;
  callback : nat;
  luserData : Value;
  observesItemChanges : bool
}.

Module Obj.
Record t : Type := mk {
  props : Props;
  m_observers : list ObserverHandle;
  extensible : bool
}.
End Obj.

Module OList.
Record t : Type := mk {
  m_storage : list (Value * option ObserverHandle);
  m_observers : list ListObserver;
  m_addValidator : option (Value -> bool)
}.
End OList.

Record Heap : Type := mkHeap {
  observables : list Obj.t;
  lists : list OList.t;
  next_handle : nat
}.

(** The details object an observer is called with.  A member that may be
    missing is an option. *)
Record Details : Type := mkDetails {
  sender : option Value;
  senders : option (list Value);
  object : option Value;
  name : string;
  oldValue : Value;
  d_userData : Value;
  listChangeType : option string;
  listItem : option Value;
  index : option Z
}.

Definition changeDetails (n : string) (old : Value) (obj : option Value) : Details :=
  mkDetails None None obj n old VUndefined None None None.

(** One call of an observer, as the dispatch loops make it. *)
Inductive Call : Type :=
| ObserverCall (this : nat) (h : ObserverHandle) (d : Details)
| ListObserverCall (this : nat) (h : ListObserver) (d : Details).

(** The heap together with the record of the observer calls made so far.  The
    record is ours: user functions see the heap only. *)
Record World : Type := mkWorld {
  heap : Heap;
  calls : list Call
}.

(** The program around the library: what its callback functions do to the heap
    when called with [this] and a details object, and the constructors
    reachable from the global object. *)
Record Env : Type := mkEnv {
  user_callback : nat -> Value -> Details -> Heap -> Heap;
  global_constructor : string -> option (Value -> Value)
}.

(** ** Results *)

Inductive Error : Type := TypeError.

Inductive Result (A : Type) : Type :=
| Ret (a : A) (w : World)
| Throw (e : Error) (w : World)
| OutOfGas.
Arguments Ret {A} a w.
Arguments Throw {A} e w.
Arguments OutOfGas {A}.

Definition M (A : Type) : Type := World -> Result A.

Definition ret {A} (a : A) : M A := fun w => Ret a w.
Definition throw {A} (e : Error) : M A := fun w => Throw e w.
Definition bind {A B} (m : M A) (k : A -> M B) : M B :=
  fun w => match m w with
           | Ret a w' => k a w'
           | Throw e w' => Throw e w'
           | OutOfGas => OutOfGas
           end.

Notation "x <- m ;; k" := (bind m (fun x => k))
  (at level 100, m at next level, right associativity).
Notation "m ;;; k" := (bind m (fun _ => k))
  (at level 100, right associativity).

Definition get_heap : M Heap := fun w => Ret (heap w) w.
Definition put_heap (h : Heap) : M unit := fun w => Ret tt (mkWorld h (calls w)).
Definition record_call (c : Call) : M unit :=
  fun w => Ret tt (mkWorld (heap w) (calls w ++ [c])).

Definition the_object (h : Heap) (o : nat) : Obj.t :=
  default (Obj.mk [] [] true) (observables h !! o).
Definition the_list (h : Heap) (l : nat) : OList.t :=
  default (OList.mk [] [] None) (lists h !! l).

Definition set_object (o : nat) (x : Obj.t) (h : Heap) : Heap :=
  mkHeap (<[o := x]> (observables h)) (lists h) (next_handle h).
Definition set_list (l : nat) (x : OList.t) (h : Heap) : Heap :=
  mkHeap (observables h) (<[l := x]> (lists h)) (next_handle h).

Definition set_props (ps : Props) (x : Obj.t) : Obj.t :=
  Obj.mk ps (Obj.m_observers x) (Obj.extensible x).
Definition set_observers (obs : list ObserverHandle) (x : Obj.t) : Obj.t :=
  Obj.mk (Obj.props x) obs (Obj.extensible x).
Definition set_storage (st : list (Value * option ObserverHandle)) (x : OList.t) : OList.t :=
  OList.mk st (OList.m_observers x) (OList.m_addValidator x).
Definition set_list_observers (obs : list ListObserver) (x : OList.t) : OList.t :=
  OList.mk (OList.m_storage x) obs (OList.m_addValidator x).

(** Run the user's function [k]. *)
Definition call_user (E : Env) (k : nat) (this : Value) (d : Details) : M unit :=
  fun w => Ret tt (mkWorld (user_callback E k this d (heap w)) (calls w)).

Definition push_sender (this : Value) (d : Details) : list Value :=
  match senders d with
  | None => [this]
  | Some l => l ++ [this]
  end.

(** ** Dispatch *)

(** The loop of ETO_ObservableList.prototype.notifyObservers: [i] runs over
    the list's observer array as it is when [i] is compared with its length. *)
Fixpoint notifyObservers_loop (E : Env) (n : nat) (this : nat) (cd : Details)
    (i : nat) : M unit :=
  match n with
  | O => fun _ => OutOfGas
  | S n' => fun w =>
      match OList.m_observers (the_list (heap w) this) !! i with
      | None => Ret tt w
      | Some obs =>
          if negb (from_option (strict_eq (VList this)) false (object cd))
             && negb (observesItemChanges obs)
          then notifyObservers_loop E n' this cd (S i) w
          else
            let detailsCopy :=
              mkDetails (Some (VList this)) (senders cd) (object cd) (name cd)
                (oldValue cd) (luserData obs) (listChangeType cd) (listItem cd)
                (index cd) in
            (record_call (ListObserverCall this obs detailsCopy) ;;;
             call_user E (callback obs) (VList this) detailsCopy ;;;
             notifyObservers_loop E n' this cd (S i)) w
      end
  end.

(** ETO_ObservableList.prototype.notifyObservers *)
Definition notifyObservers (E : Env) (gas : nat) (this : nat) (cd : Details) : M unit :=
  let obj := match object cd with None => Some (VList this) | o => o end in
  let cd' :=
    mkDetails (sender cd) (Some (push_sender (VList this) cd)) obj (name cd)
      (oldValue cd) (d_userData cd) (listChangeType cd) (listItem cd) (index cd) in
  notifyObservers_loop E gas this cd' 0.

(** Calling the function of an observer handle with [details]. *)
Definition invoke (E : Env) (gas : nat) (this : nat) (h : ObserverHandle)
    (details : Details) : M unit :=
  record_call (ObserverCall this h details) ;;;
  match callbackFunction h with
  | userCallback k => call_user E k (callbackThis h) details
  | itemChangeCallback us item insertionIndex =>
      let info :=
        mkDetails (sender details) (senders details) (object details) (name details)
          (oldValue details) (d_userData details) (listChangeType details)
          (Some item) (Some insertionIndex) in
      notifyObservers E gas us info
  end.

(** The loop of ETO_Observable.prototype.notifyAll, over the live array. *)
Fixpoint notifyAll_loop (E : Env) (gas : nat) (n : nat) (this : nat) (cd : Details)
    (i : nat) : M unit :=
  match n with
  | O => fun _ => OutOfGas
  | S n' => fun w =>
      match Obj.m_observers (the_object (heap w) this) !! i with
      | None => Ret tt w
      | Some h =>
          let details :=
            mkDetails (Some (VObservable this)) (senders cd) (object cd) (name cd)
              (oldValue cd) (userData h) None None None in
          (invoke E gas this h details ;;;
           notifyAll_loop E gas n' this cd (S i)) w
      end
  end.

(** ETO_Observable.prototype.notifyAll *)
Definition notifyAll (E : Env) (gas : nat) (this : nat) (cd : Details) : M unit :=
  let obj :=
    if from_option loosely_undefined true (object cd)
    then Some (VObservable this) else object cd in
  let cd' :=
    mkDetails (sender cd) (Some (push_sender (VObservable this) cd)) obj (name cd)
      (oldValue cd) (d_userData cd) (listChangeType cd) (listItem cd) (index cd) in
  notifyAll_loop E gas gas this cd' 0.

Fixpoint for_each {A} (f : A -> M unit) (l : list A) : M unit :=
  match l with
  | [] => ret tt
  | a :: l' => f a ;;; for_each f l'
  end.

(** A property-name argument: [NameStr s] is a string, or a value whose
    toString() is [s]. *)
Inductive NameArg : Type := NameNull | NameUndefined | NameStr (s : string).

(** One element of ETO_Observable_SerializedData. *)
Record PropDesc : Type := mkPropDesc {
  pd_name : string;
  pd_value : Value;
  pd_enumerable : bool;
  pd_writable : bool;
  pd_configurable : bool;
  pd_varType : option string
}.

(** What toJSON returns: the object itself, or the wrapper around the array of
    property descriptors. *)
Inductive Json : Type :=
| JsonThis
| ETO_Observable_SerializedData (arr : list PropDesc).

(** The first argument of the constructor. *)
Inductive CopySource : Type :=
| NotAnObject
| SerializedData (param : list PropDesc)
| PlainObject (members : list (string * Value)).

(** ** ETO_Observable *)

Module Observable.

(** [this[name]]: the own property, else the inherited member, else undefined. *)
Definition get (x : Obj.t) (name : string) : Value :=
  match own (Obj.props x) name with
  | Some p => slot_get (slot p)
  | None => if inherited name then VFunction 0 else VUndefined
  end.

(** What Object.defineProperty allows on a property that is not configurable. *)
Definition redefine_fixed (cur p : Property) : option Property :=
  if configurable p || negb (Bool.eqb (enumerable p) (enumerable cur)) then None
  else
    match slot cur, slot p with
    | DataSlot _ true, DataSlot _ _ => Some p
    | DataSlot v false, DataSlot v' false => if same_value v v' then Some cur else None
    | _, _ => None
    end.

(** Object.defineProperty(this, name, p) with a full descriptor; [None] is
    the TypeError. *)
Definition defineProperty (x : Obj.t) (name : string) (p : Property) : option Obj.t :=
  match own (Obj.props x) name with
  | None =>
      if Obj.extensible x then Some (set_props (Obj.props x ++ [(name, p)]) x)
      else None
  | Some cur =>
      if configurable cur
      then Some (set_props
                   (replace_own (Obj.props x) name
                      (mkProperty (merge_slot (slot cur) (slot p)) (enumerable p)
                         (configurable p))) x)
      else (fun q => set_props (replace_own (Obj.props x) name q) x) <$> redefine_fixed cur p
  end.

(** Object.defineProperty(this, name, { "value": v }) *)
Definition defineProperty_value (x : Obj.t) (name : string) (v : Value) : option Obj.t :=
  match own (Obj.props x) name with
  | None =>
      if Obj.extensible x
      then Some (set_props (Obj.props x ++ [(name, mkProperty (DataSlot v false) false false)]) x)
      else None
  | Some cur =>
      let put s := Some (set_props (replace_own (Obj.props x) name
                           (mkProperty s (enumerable cur) (configurable cur))) x) in
      match slot cur with
      | DataSlot v0 w =>
          if configurable cur || w then put (DataSlot v w)
          else if same_value v0 v then Some x else None
      | _ => if configurable cur then put (DataSlot v false) else None
      end
  end.

Definition define (this : nat) (name : string) (p : Property) : M unit :=
  h <- get_heap ;;
  match defineProperty (the_object h this) name p with
  | Some x => put_heap (set_object this x h)
  | None => throw TypeError
  end.

Definition set_slot (this : nat) (name : string) (s : Slot) : M unit :=
  h <- get_heap ;;
  let x := the_object h this in
  match own (Obj.props x) name with
  | Some p =>
      put_heap (set_object this
        (set_props (replace_own (Obj.props x) name
           (mkProperty s (enumerable p) (configurable p))) x) h)
  | None => ret tt
  end.

(** ETO_Observable.prototype.addChangeObserver; the callback function is one
    ([callbackFunc instanceof Function]) when it is [Some]. *)
Definition addChangeObserver (this : nat) (callbackFunc : option Callback)
    (userData : Value) (thisForCallback : Value) : M (option ObserverHandle) :=
  match callbackFunc with
  | Some f =>
      h <- get_heap ;;
      let thisForCallback :=
        if loosely_undefined thisForCallback then VObservable this else thisForCallback in
      let observerHandle := mkHandle (next_handle h) f userData thisForCallback in
      let x := the_object h this in
      put_heap (mkHeap (<[this := set_observers (Obj.m_observers x ++ [observerHandle]) x]>
                          (observables h))
                  (lists h) (S (next_handle h))) ;;;
      ret (Some observerHandle)
  | None => ret None
  end.

(** The position of the first observer that is the handle, by identity. *)
Fixpoint find_handle (obs : list ObserverHandle) (id : nat) (i : nat) : option nat :=
  match obs with
  | [] => None
  | o :: obs' => if Nat.eqb (hid o) id then Some i else find_handle obs' id (S i)
  end.

(** ETO_Observable.prototype.removeChangeObserver *)
Definition removeChangeObserver (this : nat) (observerHandle : ObserverHandle) : M bool :=
  h <- get_heap ;;
  let x := the_object h this in
  match find_handle (Obj.m_observers x) (hid observerHandle) 0 with
  | Some i =>
      put_heap (set_object this (set_observers (delete i (Obj.m_observers x)) x) h) ;;;
      ret true
  | None => ret false
  end.

(** The assignment [this[name] = value]. *)
Definition assign (E : Env) (gas : nat) (this : nat) (name : string) (value : Value)
    : M unit :=
  h <- get_heap ;;
  let x := the_object h this in
  match own (Obj.props x) name with
  | Some p =>
      match slot p with
      | DataSlot _ true => set_slot this name (DataSlot value true)
      | DataSlot _ false => ret tt
      | PlainSlot propertyValue =>
          if strict_eq propertyValue value then ret tt
          else
            let details := changeDetails name propertyValue None in
            set_slot this name (PlainSlot value) ;;;
            notifyAll E gas this details
      | PrivateSlot _ => ret tt
      | FilterSlot propertyValue setFilterFunc =>
          let value := setFilterFunc value propertyValue in
          if strict_eq propertyValue value then ret tt
          else
            let oldValue := propertyValue in
            set_slot this name (FilterSlot value setFilterFunc) ;;;
            notifyAll E gas this (changeDetails name oldValue None)
      | MixedSlot backingVar propertyValue setFilterFunc =>
          (* the set function left over from the earlier accessor *)
          let value := from_option (fun f => f value propertyValue) value setFilterFunc in
          if strict_eq propertyValue value then ret tt
          else
            set_slot this name (MixedSlot backingVar value setFilterFunc) ;;;
            notifyAll E gas this (changeDetails name propertyValue None)
      end
  | None =>
      (* no accessor in the way: an ordinary property is created *)
      if Obj.extensible x
      then put_heap (set_object this
             (set_props (Obj.props x ++ [(name, mkProperty (DataSlot value true) true true)]) x) h)
      else ret tt
  end.

Definition reserved_name : string := "ETO_Observable_Properties".

(** ETO_Observable.prototype.addProperty *)
Definition addProperty (E : Env) (gas : nat) (this : nat) (propertyName : NameArg)
    (propertyValue : Value) (removable writable isEnumerable : option bool) : M bool :=
  match propertyName with
  | NameNull | NameUndefined => ret false
  | NameStr propertyName =>
      if String.eqb propertyName reserved_name then ret false
      else
        h <- get_heap ;;
        if negb (strict_eq (get (the_object h this) propertyName) VUndefined)
        then ret false
        else
          let removable := default true removable in
          let isEnumerable := default true isEnumerable in
          let props :=
            match writable with
            | Some false => mkProperty (DataSlot propertyValue false) isEnumerable removable
            | _ => mkProperty (PlainSlot propertyValue) isEnumerable removable
            end in
          define this propertyName props ;;;
          notifyAll E gas this
            (changeDetails propertyName VUndefined (Some (VObservable this))) ;;;
          ret true
  end.

(** The setter function addPropertyWithPrivateSet returns, as the variables
    it captures. *)
Record SetFunc : Type := mkSetFunc { ownerObj : nat; sf_propertyName : string }.

(** Calling that function. *)
Definition setFunc (E : Env) (gas : nat) (f : SetFunc) (newValue : Value) : M unit :=
  h <- get_heap ;;
  match slot <$> own (Obj.props (the_object h (ownerObj f))) (sf_propertyName f) with
  | Some (PrivateSlot backingVar) =>
      if strict_eq backingVar newValue then ret tt
      else
        let oldVal := backingVar in
        set_slot (ownerObj f) (sf_propertyName f) (PrivateSlot newValue) ;;;
        notifyAll E gas (ownerObj f) (changeDetails (sf_propertyName f) oldVal None)
  | Some (MixedSlot backingVar propertyValue setFilterFunc) =>
      if strict_eq backingVar newValue then ret tt
      else
        set_slot (ownerObj f) (sf_propertyName f)
          (MixedSlot newValue propertyValue setFilterFunc) ;;;
        notifyAll E gas (ownerObj f) (changeDetails (sf_propertyName f) backingVar None)
  | _ => ret tt
  end.

(** ETO_Observable.prototype.addPropertyWithPrivateSet *)
Definition addPropertyWithPrivateSet (E : Env) (gas : nat) (this : nat)
    (propertyName : NameArg) (propertyValue : Value) (isEnumerable : option bool)
    : M (option SetFunc) :=
  match propertyName with
  | NameNull | NameUndefined => ret None
  | NameStr propertyName =>
      if String.eqb propertyName reserved_name then ret None
      else
        h <- get_heap ;;
        if negb (strict_eq (get (the_object h this) propertyName) VUndefined)
        then ret None
        else
          let isEnumerable := default true isEnumerable in
          define this propertyName (mkProperty (PrivateSlot propertyValue) isEnumerable false) ;;;
          notifyAll E gas this
            (changeDetails propertyName VUndefined (Some (VObservable this))) ;;;
          ret (Some (mkSetFunc this propertyName))
  end.

(** ETO_Observable.prototype.addPropertyWithSetFilter; [setFilterFunc] is
    [None] when the argument is not a function. *)
Definition addPropertyWithSetFilter (E : Env) (gas : nat) (this : nat)
    (propertyName : NameArg) (propertyValue : Value)
    (setFilterFunc : option (Value -> Value -> Value))
    (removable isEnumerable : option bool) : M bool :=
  match propertyName with
  | NameNull | NameUndefined => ret false
  | NameStr propertyName =>
      if String.eqb propertyName reserved_name then ret false
      else
        match setFilterFunc with
        | None => ret false
        | Some setFilterFunc =>
            h <- get_heap ;;
            if negb (strict_eq (get (the_object h this) propertyName) VUndefined)
            then ret false
            else
              let removable := default true removable in
              let isEnumerable := default true isEnumerable in
              define this propertyName
                (mkProperty (FilterSlot propertyValue setFilterFunc) isEnumerable removable) ;;;
              notifyAll E gas this
                (changeDetails propertyName VUndefined (Some (VObservable this))) ;;;
              ret true
        end
  end.

(** ETO_Observable.prototype.addROProperty *)
Definition addROProperty (E : Env) (gas : nat) (this : nat) (propertyName : NameArg)
    (propertyValue : Value) (isEnumerable : option bool) : M bool :=
  addProperty E gas this propertyName propertyValue (Some false) (Some false) isEnumerable.

(** ETO_Observable.prototype.removeProperty *)
Definition removeProperty (E : Env) (gas : nat) (this : nat) (propertyName : NameArg)
    : M bool :=
  match propertyName with
  | NameNull | NameUndefined => ret false
  | NameStr propertyName =>
      h <- get_heap ;;
      let x := the_object h this in
      if strict_eq (get x propertyName) VUndefined then ret false
      else
        match own (Obj.props x) propertyName with
        | None => throw TypeError        (* no own descriptor to read configurable from *)
        | Some props =>
            if negb (configurable props) then ret false
            else
              let changeDetails := changeDetails propertyName (get x propertyName) None in
              put_heap (set_object this
                          (set_props (delete_own (Obj.props x) propertyName) x) h) ;;;
              notifyAll E gas this changeDetails ;;;
              ret true
        end
  end.

(** ETO_Observable.prototype.seal *)
Definition seal (this : nat) : M unit :=
  h <- get_heap ;;
  let x := the_object h this in
  put_heap (set_object this
    (Obj.mk (map (fun np => (np.1, mkProperty (slot np.2) (enumerable np.2) false))
               (Obj.props x))
            (Obj.m_observers x) false) h).

(** ETO_Observable.prototype.addDeserializedProperty *)
Definition addDeserializedProperty (E : Env) (gas : nat) (this : nat) (propDesc : PropDesc)
    : M bool :=
  match pd_varType propDesc with
  | None => ret false                (* globalObj[undefined] is no function *)
  | Some varType =>
      if String.eqb varType "string" || String.eqb varType "boolean"
         || String.eqb varType "number"
      then
        addProperty E gas this (NameStr (pd_name propDesc)) (pd_value propDesc)
          (Some (pd_configurable propDesc)) (Some (pd_writable propDesc))
          (Some (pd_enumerable propDesc))
      else
        match global_constructor E varType with
        | None => ret false
        | Some construct =>
            let value := construct (pd_value propDesc) in
            addProperty E gas this (NameStr (pd_name propDesc)) value
              (Some (pd_configurable propDesc)) (Some (pd_writable propDesc))
              (Some (pd_enumerable propDesc))
        end
  end.

(** The names a for-in loop over the object visits that can have an own
    descriptor: those of its enumerable own properties, here in the order
    they were added (JavaScript visits names that are array indices first;
    nothing below depends on the order). *)
Definition for_in (x : Obj.t) : list string :=
  map fst (List.filter (fun np => enumerable np.2) (Obj.props x)).

(** The writable member toJSON computes from a descriptor: true when the
    descriptor has a "set" member, else its "writable" member. *)
Definition writable_detail (s : Slot) : bool :=
  if desc_has_set s then true
  else match s with DataSlot _ w => w | _ => true end.

(** The details object toJSON builds for one property; [None] is the
    TypeError of reading [constructor] off null. *)
Definition describe (x : Obj.t) (name : string) (desc : Property) : option PropDesc :=
  let value := get x name in
  let writable := writable_detail (slot desc) in
  let typeName := typeof value in
  typeName ← (if String.eqb typeName "object" then constructor_name value
               else Some typeName) ;
  Some (mkPropDesc name value (enumerable desc) writable (configurable desc)
          (Some typeName)).

Fixpoint toJSON_loop (x : Obj.t) (names : list string) : option (list PropDesc) :=
  match names with
  | [] => Some []
  | name :: rest =>
      if String.eqb name "m_observers" || String.eqb name "m_toString"
      then toJSON_loop x rest
      else
        match own (Obj.props x) name with
        | None => toJSON_loop x rest
        | Some desc =>
            details ← describe x name desc ;
            arr ← toJSON_loop x rest ;
            Some (details :: arr)
        end
  end.

(** ETO_Observable.prototype.toJSON; [None] is a TypeError. *)
Definition toJSON (x : Obj.t) : option Json :=
  if truthy (get x "m_simpleSerialize") then Some JsonThis
  else ETO_Observable_SerializedData <$> toJSON_loop x (for_in x).

Definition define_value (this : nat) (name : string) (v : Value) : M unit :=
  h <- get_heap ;;
  match defineProperty_value (the_object h this) name v with
  | Some x => put_heap (set_object this x h)
  | None => throw TypeError
  end.

(** The constructor function ETO_Observable(objectToCopy, simpleSerialize);
    it returns the place of the new object in the heap. *)
Definition ETO_Observable (E : Env) (gas : nat) (objectToCopy : CopySource)
    (simpleSerialize : Value) : M nat :=
  h <- get_heap ;;
  let this := length (observables h) in
  put_heap (mkHeap (observables h ++ [Obj.mk [] [] true]) (lists h) (next_handle h)) ;;;
  define_value this "m_observers" (VObject "Array" 0) ;;;
  match objectToCopy with
  | NotAnObject => ret tt
  | SerializedData param =>
      for_each (fun desc =>
                  match pd_varType desc with
                  | None => ret tt
                  | Some _ => addDeserializedProperty E gas this desc ;;; ret tt
                  end) param
  | PlainObject members =>
      for_each (fun nv =>
                  addProperty E gas this (NameStr nv.1) nv.2 (Some true) (Some true)
                    (Some true) ;;; ret tt) members
  end ;;;
  let simpleSerialize :=
    if strict_eq simpleSerialize VUndefined then VBool true else simpleSerialize in
  define_value this "m_simpleSerialize" simpleSerialize ;;;
  ret this.
End Observable.

(** ** ETO_ObservableList *)

(** The insertionIndex argument of add.  [IndexText s] is any value whose
    toString() is [s]: the number 2 gives "2", the number 2.7 gives "2.7", a
    string gives itself. *)
Inductive IndexArg : Type := IndexUndefined | IndexNull | IndexText (s : string).

Module ObservableList.

Definition storage_of (h : Heap) (this : nat) : list (Value * option ObserverHandle) :=
  OList.m_storage (the_list h this).

(** The getter of the length property. *)
Definition length (h : Heap) (this : nat) : Z :=
  Z.of_nat (List.length (storage_of h this)).

(** ETO_ObservableList.prototype.at; [None] is an undefined index. *)
Definition at_ (h : Heap) (this : nat) (index : option Z) : Value :=
  match index with
  | None => VUndefined
  | Some index =>
      if (index <? 0) || (index >=? length h this) then VUndefined
      else from_option fst VUndefined (storage_of h this !! Z.to_nat index)
  end.

(** ETO_ObservableList.prototype.toArray *)
Definition toArray (h : Heap) (this : nat) : list Value :=
  map fst (storage_of h this).

(** ETO_ObservableList.prototype.indexOf, through forEach: the loop runs
    while [0 <= i < length] and stops at the first identical item. *)
Fixpoint indexOf_from (item : Value) (st : list (Value * option ObserverHandle)) (i : Z)
    : Z :=
  match st with
  | [] => -1
  | (listItem, _) :: st' =>
      if strict_eq item listItem then i else indexOf_from item st' (i + 1)
  end.

Definition indexOf (h : Heap) (this : nat) (item : Value) (startIndex : option Z) : Z :=
  let startIndex := default 0 startIndex in
  if startIndex <? 0 then -1
  else indexOf_from item (drop (Z.to_nat startIndex) (storage_of h this)) startIndex.

(** ETO_ObservableList.prototype.addChangeObserver; [callbackFunc] is [None]
    for undefined or null. *)
Definition addChangeObserver (this : nat) (callbackFunc : option nat) (userData : Value)
    (wantsItemChangesToo : Value) : M (option ListObserver) :=
  let wantsItemChangesToo := strict_eq wantsItemChangesToo (VBool true) in
  match callbackFunc with
  | Some f =>
      h <- get_heap ;;
      let observerHandle := mkListObserver (next_handle h) f userData wantsItemChangesToo in
      let x := the_list h this in
      put_heap (mkHeap (observables h)
                  (<[this := set_list_observers (OList.m_observers x ++ [observerHandle]) x]>
                     (lists h))
                  (S (next_handle h))) ;;;
      ret (Some observerHandle)
  | None => ret None
  end.

Fixpoint find_handle (obs : list ListObserver) (id : nat) (i : nat) : option nat :=
  match obs with
  | [] => None
  | o :: obs' => if Nat.eqb (lhid o) id then Some i else find_handle obs' id (S i)
  end.

(** ETO_ObservableList.prototype.removeChangeObserver *)
Definition removeChangeObserver (this : nat) (observerHandle : ListObserver) : M bool :=
  h <- get_heap ;;
  let x := the_list h this in
  match find_handle (OList.m_observers x) (lhid observerHandle) 0 with
  | Some i =>
      put_heap (set_list this (set_list_observers (delete i (OList.m_observers x)) x) h) ;;;
      ret true
  | None => ret false
  end.

Definition put_storage (this : nat) (st : list (Value * option ObserverHandle)) : M unit :=
  h <- get_heap ;;
  put_heap (set_list this (set_storage st (the_list h this)) h).

(** Subscribing to an item that is an ETO_Observable: the closure captures
    the list, the item and the index it is given here. *)
Definition observe_item (this : nat) (item : Value) (index : Z) : M (option ObserverHandle) :=
  match item with
  | VObservable o =>
      Observable.addChangeObserver o (Some (itemChangeCallback this item index))
        (VList this) VUndefined
  | _ => ret None
  end.

(** Removing the list's observer from the item of a storage tuple, when the
    tuple has one. *)
Definition unobserve_item (tuple : Value * option ObserverHandle) : M unit :=
  match tuple with
  | (VObservable o, Some handle) => Observable.removeChangeObserver o handle ;;; ret tt
  | _ => ret tt
  end.

(** ETO_ObservableList.prototype.add, from the validator on, with the index
    settled.  The index accessors it rebuilds are not stored: accessor [i]
    exists exactly when [i] is below the length. *)
Definition add_at (E : Env) (gas : nat) (this : nat) (item : Value) (insertionIndex : Z)
    : M bool :=
  h <- get_heap ;;
  if from_option (fun m_addValidator => negb (m_addValidator item)) false
       (OList.m_addValidator (the_list h this))
  then ret false
  else
    observerHandle <- observe_item this item insertionIndex ;;
    h <- get_heap ;;
    let m_storage := storage_of h this in
    (if insertionIndex =? Z.of_nat (List.length m_storage)
     then put_storage this (m_storage ++ [(item, observerHandle)])
     else put_storage this
            (take (Z.to_nat insertionIndex) m_storage ++ (item, observerHandle)
               :: drop (Z.to_nat insertionIndex) m_storage)) ;;;
    notifyObservers E gas this
      (mkDetails None None (Some (VList this)) (Z_toString insertionIndex) VUndefined
         VUndefined (Some "add") None (Some insertionIndex)) ;;;
    ret true.

(** ETO_ObservableList.prototype.add *)
Definition add (E : Env) (gas : nat) (this : nat) (item : Value) (insertionIndex : IndexArg)
    : M bool :=
  h <- get_heap ;;
  match insertionIndex with
  | IndexUndefined => add_at E gas this item (length h this)
  | IndexNull => throw TypeError             (* null has no toString *)
  | IndexText s =>
      match parseInt s with
      | None => ret false
      | Some insertionIndex =>
          if (insertionIndex <? 0) || (insertionIndex >? length h this) then ret false
          else add_at E gas this item insertionIndex
      end
  end.

(** push: (same as "add" function) *)
Definition push := add.

(** The set function of the index accessor [index], run by the assignment
    [list[index] = newItem]. *)
Definition set_index (E : Env) (gas : nat) (this : nat) (index : nat) (newItem : Value)
    : M unit :=
  h <- get_heap ;;
  match storage_of h this !! index with
  | None => ret tt                       (* no accessor at that index *)
  | Some item =>
      if strict_eq item.1 newItem then ret tt
      else
        unobserve_item item ;;;
        let changeDetails :=
          mkDetails None None (Some (VList this)) (Z_toString (Z.of_nat index)) item.1
            VUndefined (Some "replace") None (Some (Z.of_nat index)) in
        handle <- observe_item this newItem (Z.of_nat index) ;;
        h <- get_heap ;;
        put_storage this (<[index := (newItem, handle)]> (storage_of h this)) ;;;
        notifyObservers E gas this changeDetails
  end.

(** The last loop of remove: each removed tuple loses the list's observer,
    then the list's observers are told. *)
Fixpoint remove_notify (E : Env) (gas : nat) (this : nat) (startIndex : Z)
    (removed : list (Value * option ObserverHandle)) (i : Z) : M unit :=
  match removed with
  | [] => ret tt
  | item :: rest =>
      unobserve_item item ;;;
      notifyObservers E gas this
        (mkDetails None None (Some (VList this)) (Z_toString (startIndex + i)) item.1
           VUndefined (Some "remove") None (Some (i + startIndex))) ;;;
      remove_notify E gas this startIndex rest (i + 1)
  end.

(** ETO_ObservableList.prototype.remove; [count] is [None] when omitted. *)
Definition remove (E : Env) (gas : nat) (this : nat) (startIndex : Z) (count : option Z)
    : M Z :=
  let count := default 1 count in
  h <- get_heap ;;
  if (startIndex <? 0) || (startIndex >=? length h this) then ret 0
  else if count <=? 0 then ret 0
  else
    let count :=
      if startIndex + count >? length h this then length h this - startIndex else count in
    let m_storage := storage_of h this in
    let removed := take (Z.to_nat count) (drop (Z.to_nat startIndex) m_storage) in
    put_storage this
      (take (Z.to_nat startIndex) m_storage
         ++ drop (Z.to_nat startIndex + Z.to_nat count) m_storage) ;;;
    remove_notify E gas this startIndex removed 0 ;;;
    ret (Z.of_nat (List.length removed)).

(** ETO_ObservableList.prototype.clear *)
Definition clear (E : Env) (gas : nat) (this : nat) : M unit :=
  h <- get_heap ;;
  remove E gas this 0 (Some (length h this)) ;;; ret tt.

(** ETO_ObservableList.prototype.removeLast *)
Definition removeLast (E : Env) (gas : nat) (this : nat) : M bool :=
  h <- get_heap ;;
  if length h this =? 0 then ret false
  else n <- remove E gas this (length h this - 1) None ;; ret (n =? 1).

(** The insertion loop of splice, over the arguments past the second. *)
Fixpoint splice_insert (E : Env) (gas : nat) (this : nat) (startIndex : Z)
    (items : list Value) (k : Z) : M unit :=
  match items with
  | [] => ret tt
  | item :: rest =>
      add E gas this item (IndexText (Z_toString (startIndex + k))) ;;;
      splice_insert E gas this startIndex rest (k + 1)
  end.

(** The start index splice works with: past the end it is the length, below
    minus the length it is 0, and a negative one counts from the end. *)
Definition splice_start (len startIndex : Z) : Z :=
  if startIndex >? len then len
  else if startIndex <? - len then 0
  else if startIndex <? 0 then len + startIndex
  else startIndex.

(** ETO_ObservableList.prototype.splice; [deleteCount] is [None] when it is
    left out or undefined, [items] are the arguments after it. *)
Definition splice (E : Env) (gas : nat) (this : nat) (startIndex : Z)
    (deleteCount : option Z) (items : list Value) : M (list Value) :=
  h <- get_heap ;;
  let len := length h this in
  let startIndex := splice_start len startIndex in
  let deleteCount :=
    match deleteCount with
    | None => len - startIndex
    | Some deleteCount =>
        if deleteCount >? len - startIndex then len - startIndex else deleteCount
    end in
  let removedItems := map fst (drop (Z.to_nat startIndex) (storage_of h this)) in
  remove E gas this startIndex (Some deleteCount) ;;;
  splice_insert E gas this startIndex items 0 ;;;
  ret removedItems.

(** The constructor function ETO_ObservableList(options); it returns the
    place of the new list in the heap. *)
Definition ETO_ObservableList (E : Env) (gas : nat) (addValidator : option (Value -> bool))
    (objectToCopy : option (list Value)) : M nat :=
  h <- get_heap ;;
  let this := List.length (lists h) in
  put_heap (mkHeap (observables h) (lists h ++ [OList.mk [] [] addValidator])
              (next_handle h)) ;;;
  for_each (fun item => add E gas this item IndexUndefined ;;; ret tt)
    (default [] objectToCopy) ;;;
  ret this.
End ObservableList.

(** ** Invertible commands and ETO_UndoRedoSystem *)

(** [s.replace(pattern, replacement)] with a string pattern: the first
    occurrence only. *)
Fixpoint strip_prefix (pattern s : string) : option string :=
  match pattern, s with
  | EmptyString, _ => Some s
  | String a p', String b s' => if Ascii.eqb a b then strip_prefix p' s' else None
  | String _ _, EmptyString => None
  end.

Fixpoint replace (s pattern replacement : string) : string :=
  match strip_prefix pattern s with
  | Some rest => String.append replacement rest
  | None =>
      match s with
      | EmptyString => EmptyString
      | String c s' => String c (replace s' pattern replacement)
      end
  end.

(** ETO_UndoRedoSystem is an ETO_Observable with the constant properties
    m_undos and m_redos (two arrays), the writable properties undoText and
    redoText, and the getters undoCount and redoCount.  Its state is kept here
    as a record of its own; a call of notifyAll is recorded with the name and
    the old value it is given (the pass over the observers is [notifyAll]
    above), and commands act on the application's state [Target]. *)
Module UndoRedo.

(** What a change of undoText, redoText, undoCount or redoCount hands to
    notifyAll: the name and the old value. *)
Record Notice : Type := mkNotice { n_name : string; n_oldValue : Value }.

Section Commands.
(** The state the commands of the application act on, and its command
    objects other than ETO_InvertibleCmds. *)
Context {Target Custom : Type}.

Inductive Cmd : Type :=
| ETO_InvertibleCmd                        (* the base class: exec throws *)
| ETO_InvertibleCmds (cmdArr : list Cmd)
| CustomCmd (c : Custom)
| NullCmd.                                 (* null where a command was expected *)

(** What calling exec comes to. *)
Inductive Exec : Type :=
| Returned (inverse : Cmd) (t : Target)
| Raised (t : Target).

Variable custom_exec : Custom -> Target -> Exec.

(** [cmd.exec()]; the exec of ETO_InvertibleCmds fills inverseArr from its
    last place down. *)
Fixpoint exec (cmd : Cmd) (t : Target) : Exec :=
  match cmd with
  | ETO_InvertibleCmd => Raised t
  | NullCmd => Raised t
  | CustomCmd c => custom_exec c t
  | ETO_InvertibleCmds cmdArr =>
      (fix loop (cmdArr : list Cmd) (inverseArr : list Cmd) (t : Target) : Exec :=
         match cmdArr with
         | [] => Returned (ETO_InvertibleCmds inverseArr) t
         | c :: rest =>
             match exec c t with
             | Returned inverse t' => loop rest (inverse :: inverseArr) t'
             | Raised t' => Raised t'
             end
         end) cmdArr [] t
  end.

(** The two stacks, top last, the two labels, and what was handed to
    notifyAll so far. *)
Record t : Type := mk {
  m_undos : list (string * Cmd);
  m_redos : list (string * Cmd);
  undoText : string;
  redoText : string;
  notices : list Notice
}.

(** The constructor function ETO_UndoRedoSystem, before any observer is
    added. *)
Definition ETO_UndoRedoSystem : t := mk [] [] "Undo" "Redo" [].

Definition undoCount (s : t) : Z := Z.of_nat (List.length (m_undos s)).
Definition redoCount (s : t) : Z := Z.of_nat (List.length (m_redos s)).

Definition notifyAll (n : string) (old : Value) (s : t) : t :=
  mk (m_undos s) (m_redos s) (undoText s) (redoText s) (notices s ++ [mkNotice n old]).

(** [this.undoText = text], through the setter addProperty installed. *)
Definition set_undoText (text : string) (s : t) : t :=
  if String.eqb (undoText s) text then s
  else notifyAll "undoText" (VStr (undoText s))
         (mk (m_undos s) (m_redos s) text (redoText s) (notices s)).

Definition set_redoText (text : string) (s : t) : t :=
  if String.eqb (redoText s) text then s
  else notifyAll "redoText" (VStr (redoText s))
         (mk (m_undos s) (m_redos s) (undoText s) text (notices s)).

Definition set_undos (l : list (string * Cmd)) (s : t) : t :=
  mk l (m_redos s) (undoText s) (redoText s) (notices s).
Definition set_redos (l : list (string * Cmd)) (s : t) : t :=
  mk (m_undos s) l (undoText s) (redoText s) (notices s).

(** ETO_UndoRedoSystem.prototype.addUndo *)
Definition addUndo (text : string) (cmdOrArrOfCmds : Cmd + list Cmd) (s : t) : bool * t :=
  let cmd :=
    match cmdOrArrOfCmds with
    | inr arr => ETO_InvertibleCmds arr
    | inl c => c
    end in
  let s := set_undos (m_undos s ++ [(text, cmd)]) s in
  let s := set_undoText text s in
  let previousRedoCount := redoCount s in
  let s := set_redos [] s in
  let s := set_redoText "Redo" s in
  let s := notifyAll "undoCount" (VNum (undoCount s - 1)) s in
  let s :=
    if negb (previousRedoCount =? 0)
    then notifyAll "redoCount" (VNum previousRedoCount) s else s in
  (true, s).

(** ETO_UndoRedoSystem.prototype.clear *)
Definition clear (s : t) : t :=
  let previousUndoCount := undoCount s in
  let previousRedoCount := redoCount s in
  let s := set_redos [] (set_undos [] s) in
  let s := set_redoText "Redo" (set_undoText "Undo" s) in
  let s :=
    if negb (previousUndoCount =? 0)
    then notifyAll "undoCount" (VNum previousUndoCount) s else s in
  if negb (previousRedoCount =? 0)
  then notifyAll "redoCount" (VNum previousRedoCount) s else s.

(** How a call that runs a command ends: [Done] is a normal return,
    [Failed] an exception out of exec. *)
Inductive Outcome (A : Type) : Type :=
| Done (a : A) (s : t) (tg : Target)
| Failed (s : t) (tg : Target).
Arguments Done {A} a s tg.
Arguments Failed {A} s tg.

Definition top_text (l : list (string * Cmd)) (empty : string) : string :=
  from_option fst empty (list.last l).

(** ETO_UndoRedoSystem.prototype.execUndo *)
Definition execUndo (s : t) (tg : Target) : Outcome unit :=
  match list.last (m_undos s) with
  | None => Done tt s tg
  | Some undoPair =>
      let s := set_undos (removelast (m_undos s)) s in
      match exec undoPair.2 tg with
      | Raised tg' => Failed s tg'
      | Returned redo tg' =>
          let redoText := replace undoPair.1 "Undo" "Redo" in
          let s := set_redos (m_redos s ++ [(redoText, redo)]) s in
          let s := set_redoText redoText s in
          let s := notifyAll "redoCount" (VNum (redoCount s - 1)) s in
          let s := set_undoText (top_text (m_undos s) "Undo") s in
          let s := notifyAll "undoCount" (VNum (undoCount s + 1)) s in
          Done tt s tg'
      end
  end.

(** ETO_UndoRedoSystem.prototype.execRedo *)
Definition execRedo (s : t) (tg : Target) : Outcome unit :=
  match list.last (m_redos s) with
  | None => Done tt s tg
  | Some redoPair =>
      let s := set_redos (removelast (m_redos s)) s in
      match exec redoPair.2 tg with
      | Raised tg' => Failed s tg'
      | Returned undo tg' =>
          let undoText := replace redoPair.1 "Redo" "Undo" in
          let s := set_undos (m_undos s ++ [(undoText, undo)]) s in
          let s := set_undoText undoText s in
          let s := notifyAll "undoCount" (VNum (undoCount s - 1)) s in
          let s := set_redoText (top_text (m_redos s) "Redo") s in
          let s := notifyAll "redoCount" (VNum (redoCount s + 1)) s in
          Done tt s tg'
      end
  end.

End Commands.

Arguments Cmd : clear implicits.
Arguments Exec : clear implicits.
Arguments t : clear implicits.
Arguments Outcome : clear implicits.
Arguments Done {Target Custom A} a s tg.
Arguments Failed {Target Custom A} s tg.

(** ETO_SetPropertyCmd(object, propertyName, value), for objects that have no
    prototype, are extensible and hold writable data properties only, as
    [Object.create(null)] and assignments make them.  On such an object every name is the name of an
    own property or of none: [object[name]] reads the own property, undefined
    when there is none, and [object[name] = value] sets the own property,
    creating it when there is none.  That holds for "__proto__" and for the
    names of the members of Object.prototype too, which an object with a
    prototype would inherit.  The target is the list of the property tables
    of these objects, and [sp_object] the place of the command's object in
    it. *)
Record ETO_SetPropertyCmd : Type := mkSetPropertyCmd {
  sp_object : nat;
  sp_propertyName : string;
  sp_value : Value
}.

Definition BareObjects := list (list (string * Value)).

(** [object[n]] *)
Fixpoint read (ps : list (string * Value)) (n : string) : Value :=
  match ps with
  | [] => VUndefined
  | (k, v) :: ps' => if String.eqb k n then v else read ps' n
  end.

(** [object[n] = v] *)
Fixpoint write (ps : list (string * Value)) (n : string) (v : Value)
    : list (string * Value) :=
  match ps with
  | [] => [(n, v)]
  | (k, u) :: ps' => if String.eqb k n then (k, v) :: ps' else (k, u) :: write ps' n v
  end.

(** The exec function of ETO_SetPropertyCmd. *)
Definition ETO_SetPropertyCmd_exec (c : ETO_SetPropertyCmd) (tg : BareObjects)
    : Exec BareObjects ETO_SetPropertyCmd :=
  let obj := default [] (tg !! sp_object c) in
  let inverse :=
    mkSetPropertyCmd (sp_object c) (sp_propertyName c) (read obj (sp_propertyName c)) in
  Returned (CustomCmd inverse)
    (<[sp_object c := write obj (sp_propertyName c) (sp_value c)]> tg).

(** [array.splice(start, deleteCount, ...items)] on an array without holes,
    for integer arguments: the array it leaves. *)
Definition Array_splice (array : list Value) (start deleteCount : Z) (items : list Value)
    : list Value :=
  let len := Z.of_nat (List.length array) in
  let actualStart := if start <? 0 then Z.max (len + start) 0 else Z.min start len in
  let actualDeleteCount := Z.min (Z.max deleteCount 0) (len - actualStart) in
  take (Z.to_nat actualStart) array ++ items
    ++ drop (Z.to_nat (actualStart + actualDeleteCount)) array.

(** [array[index]] for an integer index. *)
Definition Array_get (array : list Value) (index : Z) : Value :=
  if index <? 0 then VUndefined else default VUndefined (array !! Z.to_nat index).

(** ETO_ArrayInsertCmd(array, item, insertionIndex) and
    ETO_ArrayRemoveCmd(array, index); the target is the list of the arrays. *)
Inductive ETO_ArrayCmd : Type :=
| ETO_ArrayInsertCmd (array : nat) (item : Value) (insertionIndex : Z)
| ETO_ArrayRemoveCmd (array : nat) (index : Z).

Definition Arrays := list (list Value).

(** The exec functions of the two. *)
Definition ETO_ArrayCmd_exec (c : ETO_ArrayCmd) (tg : Arrays) : Exec Arrays ETO_ArrayCmd :=
  match c with
  | ETO_ArrayInsertCmd a item insertionIndex =>
      let array := default [] (tg !! a) in
      Returned (CustomCmd (ETO_ArrayRemoveCmd a insertionIndex))
        (<[a := Array_splice array insertionIndex 0 [item]]> tg)
  | ETO_ArrayRemoveCmd a index =>
      let array := default [] (tg !! a) in
      let item := Array_get array index in
      Returned (CustomCmd (ETO_ArrayInsertCmd a item index))
        (<[a := Array_splice array index 1 []]> tg)
  end.
End UndoRedo.

(** ** Sample programs *)

Definition empty_world : World := mkWorld (mkHeap [] [] 0) [].

Definition world_after {A} (r : Result A) : World :=
  match r with
  | Ret _ w | Throw _ w => w
  | OutOfGas => empty_world
  end.

(** What a computation does to a heap, for a function of the program that
    calls into the library. *)
Definition run_heap {A} (m : M A) (h : Heap) : Heap :=
  match m (mkWorld h []) with
  | Ret _ w | Throw _ w => heap w
  | OutOfGas => h
  end.

(** A program whose callback functions do nothing. *)
Definition nobody : Env := mkEnv (fun _ _ _ h => h) (fun _ => None).

(** A program whose function 0 registers function 1 as an observer of the
    object 0. *)
Definition registers_another : Env :=
  mkEnv (fun k _ _ h =>
           match k with
           | O => run_heap (Observable.addChangeObserver 0 (Some (userCallback 1))
                              VUndefined VUndefined) h
           | _ => h
           end)
        (fun _ => None).

(** A program whose function 0 removes the first handle handed out (its own,
    below) from the observers of the object 0. *)
Definition unregisters_itself : Env :=
  mkEnv (fun k _ _ h =>
           match k with
           | O => run_heap (Observable.removeChangeObserver 0
                              (mkHandle 0 (userCallback 0) VUndefined (VObservable 0))) h
           | _ => h
           end)
        (fun _ => None).

(** [new ETO_Observable()] with the function 0 as its observer. *)
Definition one_observer : World :=
  world_after
    ((this <- Observable.ETO_Observable nobody 5 NotAnObject VUndefined ;;
      Observable.addChangeObserver this (Some (userCallback 0)) VUndefined VUndefined)
       empty_world).

(** The same with the functions 0 and 1 as observers, and a property [x]. *)
Definition two_observers : World :=
  world_after
    ((this <- Observable.ETO_Observable nobody 5 (PlainObject [("x", VNum 1)]) VUndefined ;;
      Observable.addChangeObserver this (Some (userCallback 0)) VUndefined VUndefined ;;;
      Observable.addChangeObserver this (Some (userCallback 1)) VUndefined VUndefined)
       empty_world).

(** An object whose property [p] holds undefined, with one observer. *)
Definition holds_undefined : World :=
  world_after
    ((this <- Observable.ETO_Observable nobody 5 NotAnObject VUndefined ;;
      Observable.addProperty nobody 5 this (NameStr "p") VUndefined None None None ;;;
      Observable.addChangeObserver this (Some (userCallback 0)) VUndefined VUndefined)
       empty_world).

(** A set filter that adds one to the number assigned. *)
Definition bump (value current : Value) : Value :=
  match value with
  | VNum z => VNum (z + 1)
  | _ => value
  end.

(** An object with the property [p], holding 1 behind the filter [bump], and
    one observer. *)
Definition filtered_world : World :=
  world_after
    ((this <- Observable.ETO_Observable nobody 5 NotAnObject VUndefined ;;
      Observable.addPropertyWithSetFilter nobody 5 this (NameStr "p") (VNum 1) (Some bump)
        None None ;;;
      Observable.addChangeObserver this (Some (userCallback 0)) VUndefined VUndefined)
       empty_world).

(** The scenario of the undo/redo claim on an object whose one property [x]
    holds 1: the commands that set its [x] to 2 and back to 1. *)
Definition set_x_to_2 : UndoRedo.Cmd UndoRedo.ETO_SetPropertyCmd :=
  UndoRedo.CustomCmd (UndoRedo.mkSetPropertyCmd 0 "x" (VNum 2)).
Definition set_x_to_1 : UndoRedo.Cmd UndoRedo.ETO_SetPropertyCmd :=
  UndoRedo.CustomCmd (UndoRedo.mkSetPropertyCmd 0 "x" (VNum 1)).

(** The list ["a", "b", "c"], without observers. *)
Definition abc_list : World :=
  world_after
    (ObservableList.ETO_ObservableList nobody 5 None (Some [VStr "a"; VStr "b"; VStr "c"])
       empty_world).

(** A validator that lets strings in. *)
Definition is_string (item : Value) : bool :=
  match item with VStr _ => true | _ => false end.

(** The list ["a"] with that validator. *)
Definition strings_only : World :=
  world_after
    (ObservableList.ETO_ObservableList nobody 5 (Some is_string) (Some [VStr "a"])
       empty_world).

(** An observable object [{x: 1}] and a list with an observer that wants
    item changes; the object is added, then "z" is inserted in front of it. *)
Definition shifted_list : World :=
  world_after
    ((a <- Observable.ETO_Observable nobody 5 (PlainObject [("x", VNum 1)]) VUndefined ;;
      l <- ObservableList.ETO_ObservableList nobody 5 None None ;;
      ObservableList.addChangeObserver l (Some 0%nat) VUndefined (VBool true) ;;;
      ObservableList.add nobody 5 l (VObservable a) IndexUndefined ;;;
      ObservableList.add nobody 5 l (VStr "z") (IndexText "0"))
       empty_world).

(** ** What a round trip through toJSON is to keep *)

(** The value of a property and its enumerable, writable and removable flags. *)
Definition facts (p : Property) : Value * bool * bool * bool :=
  (slot_get (slot p), enumerable p, assignable (slot p), configurable p).

Definition enumerable_facts (x : Obj.t) (n : string) : option (Value * bool * bool * bool) :=
  match own (Obj.props x) n with
  | Some p => if enumerable p then Some (facts p) else None
  | None => None
  end.

(** The slots addProperty, addROProperty and addPropertyWithSetFilter install. *)
Definition installed_by_add (s : Slot) : bool :=
  match s with
  | DataSlot _ false | PlainSlot _ | FilterSlot _ _ => true
  | _ => false
  end.

(** An object set up for the serialization with descriptors, whose enumerable
    own properties hold primitive values and were added, after construction,
    by addProperty, addROProperty or addPropertyWithSetFilter under a name
    other than "m_toString". *)
Record serializable (x : Obj.t) : Prop := mkSerializable {
  names_unique : NoDup (map fst (Obj.props x));
  not_simple : truthy (Observable.get x "m_simpleSerialize") = false;
  enumerable_ok :
    forall n p, In (n, p) (Obj.props x) -> enumerable p = true ->
      is_primitive (slot_get (slot p)) = true
      /\ n <> "m_toString" /\ n <> "m_observers" /\ n <> "m_simpleSerialize"
      /\ n <> Observable.reserved_name /\ inherited n = false
      /\ installed_by_add (slot p) = true
}.

(** The descriptor toJSON writes for a property that holds a primitive value,
    and the property the constructor makes of that descriptor. *)
Definition descriptor (np : string * Property) : PropDesc :=
  mkPropDesc np.1 (slot_get (slot np.2)) (enumerable np.2)
    (Observable.writable_detail (slot np.2)) (configurable np.2)
    (Some (typeof (slot_get (slot np.2)))).

Definition revived (np : string * Property) : string * Property :=
  (np.1,
   mkProperty
     (if Observable.writable_detail (slot np.2) then PlainSlot (slot_get (slot np.2))
      else DataSlot (slot_get (slot np.2)) false)
     (enumerable np.2) (configurable np.2)).

(** The world [w] with one more observable object, of properties [ps] and
    without observers. *)
Definition with_new_object (w : World) (ps : Props) : World :=
  mkWorld (mkHeap (observables (heap w) ++ [Obj.mk ps [] true]) (lists (heap w))
             (next_handle (heap w)))
    (calls w).

(** An object set up for the serialization with descriptors, with a plain
    property, a read-only one, a filtered one that cannot be removed and one
    that is not enumerable. *)
Definition serial_world : World :=
  world_after
    ((this <- Observable.ETO_Observable nobody 5 NotAnObject (VBool false) ;;
      Observable.addProperty nobody 5 this (NameStr "title") (VStr "hello") None None None ;;;
      Observable.addROProperty nobody 5 this (NameStr "limit") (VNum 3) None ;;;
      Observable.addPropertyWithSetFilter nobody 5 this (NameStr "level") (VNum 1)
        (Some bump) (Some false) None ;;;
      Observable.addProperty nobody 5 this (NameStr "secret") (VNum 9) None None (Some false))
       empty_world).

(** The same set-up with the single property [m_toString]. *)
Definition m_toString_world : World :=
  world_after
    ((this <- Observable.ETO_Observable nobody 5 NotAnObject (VBool false) ;;
      Observable.addProperty nobody 5 this (NameStr "m_toString") (VStr "x") None None None)
       empty_world).

(** An object set up for the serialization with descriptors whose property
    [total] can be set through the private setter only. *)
Definition private_world : World :=
  world_after
    ((this <- Observable.ETO_Observable nobody 5 NotAnObject (VBool false) ;;
      Observable.addPropertyWithPrivateSet nobody 5 this (NameStr "total") (VNum 7) None)
       empty_world).


(** One whose only undo entry is a command of the base class, whose exec
    throws. *)
Definition abstract_undo : UndoRedo.t UndoRedo.ETO_SetPropertyCmd :=
  (UndoRedo.addUndo "Undo: nothing" (inl UndoRedo.ETO_InvertibleCmd)
     UndoRedo.ETO_UndoRedoSystem).2.

(** The one array ["a", "b", "c"]. *)
Definition abc_array : UndoRedo.Arrays := [[VStr "a"; VStr "b"; VStr "c"]].

(** ** Reading the record of calls *)

(** The calls the notifyAll of [this] made, in order: handle and details. *)
Fixpoint observer_calls (this : nat) (cs : list Call) : list (ObserverHandle * Details) :=
  match cs with
  | [] => []
  | ObserverCall o h d :: cs' =>
      if Nat.eqb o this then (h, d) :: observer_calls this cs' else observer_calls this cs'
  | ListObserverCall _ _ _ :: cs' => observer_calls this cs'
  end.

(** The calls the notifyObservers of the list [this] made. *)
Fixpoint list_observer_calls (this : nat) (cs : list Call) : list (ListObserver * Details) :=
  match cs with
  | [] => []
  | ListObserverCall l h d :: cs' =>
      if Nat.eqb l this then (h, d) :: list_observer_calls this cs'
      else list_observer_calls this cs'
  | ObserverCall _ _ _ :: cs' => list_observer_calls this cs'
  end.

(** The details object notifyAll hands to the observer [h] for a change of
    the property [n] of [this] itself. *)
Definition event (this : nat) (n : string) (old : Value) (h : ObserverHandle) : Details :=
  mkDetails (Some (VObservable this)) (Some [VObservable this]) (Some (VObservable this))
    n old (userData h) None None None.

(** [h'] has the observer arrays of [h]. *)
Definition keeps_observers (h h' : Heap) : Prop :=
  (forall o, Obj.m_observers (the_object h' o) = Obj.m_observers (the_object h o))
  /\ (forall l, OList.m_observers (the_list h' l) = OList.m_observers (the_list h l)).

(** No function of the program adds or removes an observer. *)
Definition quiet (E : Env) : Prop :=
  forall k this d h, keeps_observers h (user_callback E k this d h).

(** Every observer array is shorter than [gas]. *)
Definition within (gas : nat) (h : Heap) : Prop :=
  (forall o, (List.length (Obj.m_observers (the_object h o)) < gas)%nat)
  /\ (forall l, (List.length (OList.m_observers (the_list h l)) < gas)%nat).

(** ** Reading the stacks and the commands *)

Section ReadingCommands.
Import UndoRedo.
Context {Target Custom : Type}.
Variable custom_exec : Custom -> Target -> Exec Target Custom.

(** The commands of [cmdArr] run one after the other: the inverses in the
    order they were returned with the state reached, or the state at the
    first exception. *)
Fixpoint exec_each (cmdArr : list (Cmd Custom)) (tg : Target)
    : list (Cmd Custom) * Target + Target :=
  match cmdArr with
  | [] => inl ([], tg)
  | c :: rest =>
      match exec custom_exec c tg with
      | Raised tg' => inr tg'
      | Returned inverse tg' =>
          match exec_each rest tg' with
          | inl (inverses, tg'') => inl (inverse :: inverses, tg'')
          | inr tg'' => inr tg''
          end
      end
  end.

End ReadingCommands.

(** The place [array.splice(i, ...)] settles on for the integer [i]: counted
    from the end when negative, and kept within the array. *)
Definition settled_start (array : list Value) (i : Z) : nat :=
  let len := Z.of_nat (List.length array) in
  Z.to_nat (if i <? 0 then Z.max (len + i) 0 else Z.min i len).

(** Two states of the objects without a prototype in which every name reads
    the same on every object. *)
Definition same_reads (tg tg' : UndoRedo.BareObjects) : Prop :=
  List.length tg = List.length tg'
  /\ forall o n, UndoRedo.read (default [] (tg !! o)) n = UndoRedo.read (default [] (tg' !! o)) n.

(** ** What the program leaves alone *)

(** What every function of the program keeps, when it keeps [P]. *)
Definition stable (E : Env) (P : Heap -> Prop) : Prop :=
  forall k this d h, P h -> P (user_callback E k this d h).

(** No function of the program changes the object [this]. *)
Definition untouched (E : Env) (this : nat) : Prop :=
  forall k t d h, observables (user_callback E k t d h) !! this = observables h !! this.

(** No function of the program changes the list [this]. *)
Definition untouched_list (E : Env) (this : nat) : Prop :=
  forall k t d h, lists (user_callback E k t d h) !! this = lists h !! this.

(** ** Reading what a list tells its observers *)

(** Whether the pass of the list [this] over its observers calls [obs] for the
    details [cd]: always for a change of the list itself, else when the
    observer asked for the changes of items. *)
Definition told (this : nat) (cd : Details) (obs : ListObserver) : bool :=
  from_option (strict_eq (VList this)) false (object cd) || observesItemChanges obs.

(** The details object the pass hands to [obs]. *)
Definition copy_for (this : nat) (cd : Details) (obs : ListObserver) : Details :=
  mkDetails (Some (VList this)) (senders cd) (object cd) (name cd) (oldValue cd)
    (luserData obs) (listChangeType cd) (listItem cd) (index cd).

(** The details the pass of a list works with. *)
Definition list_details (this : nat) (cd : Details) : Details :=
  mkDetails (sender cd) (Some (push_sender (VList this) cd))
    (match object cd with None => Some (VList this) | o => o end) (name cd)
    (oldValue cd) (d_userData cd) (listChangeType cd) (listItem cd) (index cd).

(** What the observers of the list [l] receive when the observer [h] of the
    object [o] is called for a change of the property [n] of [o]: nothing
    unless [h] is a subscription of [l], and then one call for each observer
    of [l] that asked for the changes of items. *)
Definition forwarded (h0 : Heap) (l o : nat) (n : string) (old : Value) (h : ObserverHandle)
    : list (ListObserver * Details) :=
  match callbackFunction h with
  | itemChangeCallback us item insertionIndex =>
      if Nat.eqb us l
      then map (fun obs =>
                  (obs, mkDetails (Some (VList l)) (Some [VObservable o; VList l])
                          (Some (VObservable o)) n old (luserData obs) None (Some item)
                          (Some insertionIndex)))
             (List.filter observesItemChanges (OList.m_observers (the_list h0 l)))
      else []
  | userCallback _ => []
  end.

(** The details an observer of the list receives for the item put at
    [index], and for the item taken out at [index]. *)
Definition addition (this : nat) (index : Z) (obs : ListObserver) : Details :=
  mkDetails (Some (VList this)) (Some [VList this]) (Some (VList this)) (Z_toString index)
    VUndefined (luserData obs) (Some "add") None (Some index).

Definition removal (this : nat) (index : Z) (item : Value) (obs : ListObserver) : Details :=
  mkDetails (Some (VList this)) (Some [VList this]) (Some (VList this)) (Z_toString index)
    item (luserData obs) (Some "remove") None (Some index).

(** The handle a list holds for an item: the subscription made when the item
    went in at [index], if the item is an ETO_Observable. *)
Definition subscription (h : Heap) (this : nat) (item : Value) (index : Z)
    : option ObserverHandle :=
  match item with
  | VObservable _ =>
      Some (mkHandle (next_handle h) (itemChangeCallback this item index) (VList this) item)
  | _ => None
  end.

(** The details an observer of the list receives for the item that was
    replaced at [index]. *)
Definition replacement (this : nat) (index : Z) (old : Value) (obs : ListObserver) : Details :=
  mkDetails (Some (VList this)) (Some [VList this]) (Some (VList this)) (Z_toString index)
    old (luserData obs) (Some "replace") None (Some index).

(** How many items remove takes out of a list of [len] items. *)
Definition taken_out (len startIndex count : Z) : nat :=
  if (startIndex <? 0) || (startIndex >=? len) || (count <=? 0) then 0%nat
  else Z.to_nat (Z.min count (len - startIndex)).

(** ** What toJSON writes *)

(** What toJSON writes of a property: the value and the enumerable, writable
    and configurable members. *)
Definition written (p : Property) : Value * bool * bool * bool :=
  (slot_get (slot p), enumerable p, Observable.writable_detail (slot p), configurable p).

Definition enumerable_written (x : Obj.t) (n : string) : option (Value * bool * bool * bool) :=
  match own (Obj.props x) n with
  | Some p => if enumerable p then Some (written p) else None
  | None => None
  end.

(** An object set up for the serialization with descriptors, whose enumerable
    own properties hold primitive values under names the constructor takes. *)
Record describable (x : Obj.t) : Prop := mkDescribable {
  d_names_unique : NoDup (map fst (Obj.props x));
  d_not_simple : truthy (Observable.get x "m_simpleSerialize") = false;
  d_enumerable_ok :
    forall n p, In (n, p) (Obj.props x) -> enumerable p = true ->
      is_primitive (slot_get (slot p)) = true
      /\ n <> "m_toString" /\ n <> "m_observers" /\ n <> "m_simpleSerialize"
      /\ n <> Observable.reserved_name /\ inherited n = false
}.


(** ** The delete count of a call of splice *)

(** The second argument of a call of splice: left out, undefined, or an
    integer. *)
Inductive CountArg : Type :=
| CountOmitted
| CountUndefined
| CountInt (deleteCount : Z).

(** What ETO_ObservableList.prototype.splice makes of it:
    [typeof deleteCount] is "undefined" for an argument left out and for an
    undefined one. *)
Definition list_count (c : CountArg) : option Z :=
  match c with
  | CountInt deleteCount => Some deleteCount
  | CountOmitted | CountUndefined => None
  end.

(** What Array.prototype.splice makes of it.  Called with the start index
    alone (no items can follow then) it deletes everything from there on; a
    delete count that is present is converted to an integer, undefined
    to 0. *)
Definition Array_splice_call (array : list Value) (start : Z) (c : CountArg)
    (items : list Value) : list Value :=
  match c with
  | CountOmitted => UndoRedo.Array_splice array start (Z.of_nat (List.length array)) []
  | CountUndefined => UndoRedo.Array_splice array start 0 items
  | CountInt deleteCount => UndoRedo.Array_splice array start deleteCount items
  end.


(** * Properties *)

(** ** The undo/redo system *)

Section UndoRedoFacts.
Import UndoRedo.
Context {Target Custom : Type}.
Variable custom_exec : Custom -> Target -> Exec Target Custom.

Lemma exec_single (cmd inverse : Cmd Custom) (tg tg' : Target) :
  exec custom_exec cmd tg = Returned inverse tg' ->
  exec custom_exec (ETO_InvertibleCmds [cmd]) tg
  = Returned (ETO_InvertibleCmds [inverse]) tg'.
Proof. intros H. cbn. rewrite H. reflexivity. Qed.

Lemma set_undoText_fields (text : string) (s : t Custom) :
  m_undos (set_undoText text s) = m_undos s
  /\ m_redos (set_undoText text s) = m_redos s
  /\ undoText (set_undoText text s) = text
  /\ redoText (set_undoText text s) = redoText s.
Proof.
  unfold set_undoText. destruct (String.eqb_spec (undoText s) text); cbn; auto.
Qed.

Lemma set_redoText_fields (text : string) (s : t Custom) :
  m_undos (set_redoText text s) = m_undos s
  /\ m_redos (set_redoText text s) = m_redos s
  /\ undoText (set_redoText text s) = undoText s
  /\ redoText (set_redoText text s) = text.
Proof.
  unfold set_redoText. destruct (String.eqb_spec (redoText s) text); cbn; auto.
Qed.


End UndoRedoFacts.

Section UndoRedoClaims.
Import UndoRedo.
Context {Target Custom : Type}.
Variable custom_exec : Custom -> Target -> Exec Target Custom.

Lemma addUndo_fields
    (text : string) (c : Cmd Custom + list (Cmd Custom)) (s : t Custom) :
  m_undos (addUndo text c s).2
  = m_undos s ++ [(text, match c with inl x => x | inr arr => ETO_InvertibleCmds arr end)]
  /\ m_redos (addUndo text c s).2 = []
  /\ undoText (addUndo text c s).2 = text
  /\ redoText (addUndo text c s).2 = "Redo".
Proof.
  unfold addUndo. cbv zeta.
  set (cmd := match c with inl x => x | inr arr => ETO_InvertibleCmds arr end).
  set (s1 := set_undos (m_undos s ++ [(text, cmd)]) s).
  set (s2 := set_undoText text s1).
  set (s3 := set_redos [] s2).
  set (s4 := set_redoText "Redo" s3).
  destruct (set_undoText_fields text s1) as (U1 & U2 & U3 & U4).
  destruct (set_redoText_fields "Redo" s3) as (R1 & R2 & R3 & R4).
  fold s2 in U1, U2, U3, U4. fold s4 in R1, R2, R3, R4.
  destruct (negb (redoCount s2 =? 0)); cbn;
    rewrite ?R1, ?R2, ?R3, ?R4; cbn; rewrite ?U1, ?U2, ?U3; auto.
Qed.


(** C4.  From empty stacks, addUndo("Undo: set x", [cmd]) gives undoCount 1,
    redoCount 0 and undoText "Undo: set x"; execUndo then gives undoCount 0,
    redoCount 1 and redoText "Redo: set x", the label with "Undo" replaced by
    "Redo"; execRedo then gives back undoCount 1 and redoCount 0.  The exec
    of cmd returns an inverse, and the exec of that inverse returns one. *)
Theorem C4_undo_redo_scenario
    (s : t Custom) (cmd inverse inverse' : Cmd Custom) (tg tg1 tg2 : Target) :
  m_undos s = [] ->
  m_redos s = [] ->
  exec custom_exec cmd tg = Returned inverse tg1 ->
  exec custom_exec inverse tg1 = Returned inverse' tg2 ->
  let s1 := (addUndo "Undo: set x" (inr [cmd]) s).2 in
  undoCount s1 = 1 /\ redoCount s1 = 0 /\ undoText s1 = "Undo: set x"
  /\ exists s2,
       execUndo custom_exec s1 tg = Done tt s2 tg1
       /\ undoCount s2 = 0 /\ redoCount s2 = 1
       /\ redoText s2 = replace "Undo: set x" "Undo" "Redo"
       /\ redoText s2 = "Redo: set x"
       /\ exists s3,
            execRedo custom_exec s2 tg1 = Done tt s3 tg2
            /\ undoCount s3 = 1 /\ redoCount s3 = 0.
Proof.
  intros Hu Hr Hexec Hexec'. cbv zeta.
  destruct (addUndo_fields "Undo: set x" (inr [cmd]) s)
    as (Hundos & Hredos & Htext & _).
  set (s1 := (addUndo "Undo: set x" (inr [cmd]) s).2) in *.
  rewrite Hu in Hundos. cbn [app] in Hundos.
  split; [unfold undoCount; rewrite Hundos; reflexivity |].
  split; [unfold redoCount; rewrite Hredos; reflexivity |].
  split; [exact Htext |].
  unfold execUndo. rewrite Hundos. cbn [list.last snd fst removelast].
  rewrite (exec_single custom_exec _ _ _ _ Hexec).
  set (label := replace "Undo: set x" "Undo" "Redo").
  set (a1 := set_undos [] s1).
  set (a2 := set_redos (m_redos a1 ++ [(label, ETO_InvertibleCmds [inverse])]) a1).
  set (a3 := set_redoText label a2).
  set (a4 := notifyAll "redoCount" (VNum (redoCount a3 - 1)) a3).
  set (a5 := set_undoText (top_text (m_undos a4) "Undo") a4).
  set (a6 := notifyAll "undoCount" (VNum (undoCount a5 + 1)) a5).
  destruct (set_redoText_fields label a2) as (A1 & A2 & _ & A4). fold a3 in A1, A2, A4.
  destruct (set_undoText_fields (top_text (m_undos a4) "Undo") a4) as (B1 & B2 & _ & B4).
  fold a5 in B1, B2, B4.
  assert (Hu6 : m_undos a6 = []).
  { change (m_undos a6) with (m_undos a5). rewrite B1.
    change (m_undos a4) with (m_undos a3). rewrite A1. reflexivity. }
  assert (Hr6 : m_redos a6 = [(label, ETO_InvertibleCmds [inverse])]).
  { change (m_redos a6) with (m_redos a5). rewrite B2.
    change (m_redos a4) with (m_redos a3). rewrite A2.
    change (m_redos a2) with (m_redos s1 ++ [(label, ETO_InvertibleCmds [inverse])]).
    rewrite Hredos. reflexivity. }
  exists a6. split; [reflexivity |].
  split; [unfold undoCount; rewrite Hu6; reflexivity |].
  split; [unfold redoCount; rewrite Hr6; reflexivity |].
  assert (Hlabel : redoText a6 = label).
  { change (redoText a6) with (redoText a5). rewrite B4.
    change (redoText a4) with (redoText a3). exact A4. }
  split; [exact Hlabel |].
  split; [rewrite Hlabel; reflexivity |].
  unfold execRedo. rewrite Hr6. cbn [list.last snd fst removelast].
  rewrite (exec_single custom_exec _ _ _ _ Hexec').
  set (label' := replace label "Redo" "Undo").
  set (b1 := set_redos [] a6).
  set (b2 := set_undos (m_undos b1 ++ [(label', ETO_InvertibleCmds [inverse'])]) b1).
  set (b3 := set_undoText label' b2).
  set (b4 := notifyAll "undoCount" (VNum (undoCount b3 - 1)) b3).
  set (b5 := set_redoText (top_text (m_redos b4) "Redo") b4).
  set (b6 := notifyAll "redoCount" (VNum (redoCount b5 + 1)) b5).
  destruct (set_undoText_fields label' b2) as (C1 & C2 & _). fold b3 in C1, C2.
  destruct (set_redoText_fields (top_text (m_redos b4) "Redo") b4) as (D1 & D2 & _).
  fold b5 in D1, D2.
  exists b6. split; [reflexivity |].
  split.
  - unfold undoCount. change (m_undos b6) with (m_undos b5). rewrite D1.
    change (m_undos b4) with (m_undos b3). rewrite C1.
    change (m_undos b2) with (m_undos a6 ++ [(label', ETO_InvertibleCmds [inverse'])]).
    rewrite Hu6. reflexivity.
  - unfold redoCount. change (m_redos b6) with (m_redos b5). rewrite D2.
    change (m_redos b4) with (m_redos b3). rewrite C2. reflexivity.
Qed.
End UndoRedoClaims.

Lemma C4_undo_redo_scenario_witness :
  let s1 :=
    (UndoRedo.addUndo "Undo: set x" (inr [set_x_to_2]) UndoRedo.ETO_UndoRedoSystem).2 in
  UndoRedo.undoCount s1 = 1 /\ UndoRedo.redoCount s1 = 0
  /\ UndoRedo.undoText s1 = "Undo: set x"
  /\ exists s2,
       UndoRedo.execUndo UndoRedo.ETO_SetPropertyCmd_exec s1 [[("x", VNum 1)]]
       = UndoRedo.Done tt s2 [[("x", VNum 2)]]
       /\ UndoRedo.undoCount s2 = 0 /\ UndoRedo.redoCount s2 = 1
       /\ UndoRedo.redoText s2 = replace "Undo: set x" "Undo" "Redo"
       /\ UndoRedo.redoText s2 = "Redo: set x"
       /\ exists s3,
            UndoRedo.execRedo UndoRedo.ETO_SetPropertyCmd_exec s2 [[("x", VNum 2)]]
            = UndoRedo.Done tt s3 [[("x", VNum 1)]]
            /\ UndoRedo.undoCount s3 = 1 /\ UndoRedo.redoCount s3 = 0.
Proof.
  apply (C4_undo_redo_scenario UndoRedo.ETO_SetPropertyCmd_exec
           UndoRedo.ETO_UndoRedoSystem set_x_to_2 set_x_to_1 set_x_to_2
           [[("x", VNum 1)]] [[("x", VNum 2)]] [[("x", VNum 1)]]);
    reflexivity.
Defined.

(** ** Observable objects *)

Lemma strict_eq_undefined (v : Value) : strict_eq v VUndefined = true <-> v = VUndefined.
Proof. destruct v; cbn; split; intros H; try reflexivity; discriminate. Qed.

Lemma strict_eq_not_undefined (v : Value) :
  negb (strict_eq v VUndefined) = true <-> v <> VUndefined.
Proof.
  rewrite negb_true_iff, <- not_true_iff_false, strict_eq_undefined. reflexivity.
Qed.

(** A computation that ends in [ret b] never returns another value. *)
Lemma bind_never {A B} (m : M A) (k : A -> M B) (b : B) :
  (forall a w w', k a w <> Ret b w') -> forall w w', bind m k w <> Ret b w'.
Proof.
  intros Hk w w'. unfold bind. destruct (m w); [apply Hk | discriminate | discriminate].
Qed.

Lemma ret_never {A} (a b : A) : a <> b -> forall w w', ret a w <> Ret b w'.
Proof. intros Hne w w' H. injection H as H _. contradiction. Qed.

Lemma bind_get_heap {A} (k : Heap -> M A) (w : World) :
  (h <- get_heap ;; k h) w = k (heap w) w.
Proof. reflexivity. Qed.

(** C8, as amended.  An assignment to a property installed by addProperty, and
    a call of the setter addPropertyWithPrivateSet returned, with a value
    strictly equal to the current one leave the whole world as it was (every
    value, every observer array, every other property) and call no observer;
    on a property with a set filter the same holds when the value the filter
    returns is strictly equal to the current one. *)
Theorem C8_same_value_is_silent
    (E : Env) (gas this : nat) (n : string) (value : Value) (p : Property) (w : World) :
  own (Obj.props (the_object (heap w) this)) n = Some p ->
  (forall current, slot p = PlainSlot current -> strict_eq current value = true ->
     Observable.assign E gas this n value w = Ret tt w)
  /\ (forall current, slot p = PrivateSlot current -> strict_eq current value = true ->
        Observable.setFunc E gas (Observable.mkSetFunc this n) value w = Ret tt w)
  /\ (forall current setFilterFunc,
        slot p = FilterSlot current setFilterFunc ->
        strict_eq current (setFilterFunc value current) = true ->
        Observable.assign E gas this n value w = Ret tt w).
Proof.
  intros Hown. repeat split.
  - intros current Hslot Heq. unfold Observable.assign.
    rewrite bind_get_heap, Hown, Hslot, Heq. reflexivity.
  - intros current Hslot Heq. unfold Observable.setFunc.
    rewrite bind_get_heap. cbn [Observable.ownerObj Observable.sf_propertyName].
    rewrite Hown. cbn [fmap option_fmap option_map]. rewrite Hslot, Heq. reflexivity.
  - intros current f Hslot Heq. unfold Observable.assign.
    rewrite bind_get_heap, Hown, Hslot, Heq. reflexivity.
Qed.

(** ** The notification pass *)

Lemma keeps_observers_refl (h : Heap) : keeps_observers h h.
Proof. split; reflexivity. Qed.

Lemma keeps_observers_trans (h1 h2 h3 : Heap) :
  keeps_observers h1 h2 -> keeps_observers h2 h3 -> keeps_observers h1 h3.
Proof.
  intros [A1 A2] [B1 B2]. split; intros; [rewrite B1, A1 | rewrite B2, A2]; reflexivity.
Qed.

Lemma within_keeps (gas : nat) (h h' : Heap) :
  keeps_observers h h' -> within gas h -> within gas h'.
Proof.
  intros [A1 A2] [B1 B2]. split; intros; [rewrite A1 | rewrite A2]; auto.
Qed.

Lemma observer_calls_app (this : nat) (cs1 cs2 : list Call) :
  observer_calls this (cs1 ++ cs2) = observer_calls this cs1 ++ observer_calls this cs2.
Proof.
  induction cs1 as [| [o h d | l h d] cs1 IH]; cbn; [reflexivity | | exact IH].
  destruct (Nat.eqb o this); cbn; rewrite IH; reflexivity.
Qed.

(** In a quiet program a pass over a list's observers ends, keeps the observer
    arrays and calls no observer of an object. *)
Lemma notifyObservers_loop_quiet (E : Env) :
  quiet E ->
  forall (n this : nat) (cd : Details) (i : nat) (w : World),
    (i <= List.length (OList.m_observers (the_list (heap w) this)))%nat ->
    (List.length (OList.m_observers (the_list (heap w) this)) < i + n)%nat ->
    exists w',
      notifyObservers_loop E n this cd i w = Ret tt w'
      /\ keeps_observers (heap w) (heap w')
      /\ forall o, observer_calls o (calls w') = observer_calls o (calls w).
Proof.
  intros HE n. induction n as [| n IH]; intros this cd i w Hle Hlt; [lia |].
  cbn [notifyObservers_loop].
  destruct (OList.m_observers (the_list (heap w) this) !! i) as [obs |] eqn:Hobs.
  - apply lookup_lt_Some in Hobs.
    destruct (negb (from_option (strict_eq (VList this)) false (object cd))
              && negb (observesItemChanges obs)).
    + apply IH; lia.
    + unfold bind, record_call, call_user. cbn [heap calls].
      match goal with
      | |- context [notifyObservers_loop E n this cd (S i) ?w1] => set (w1' := w1)
      end.
      pose proof (HE (callback obs) (VList this)
                    (mkDetails (Some (VList this)) (senders cd) (object cd) (name cd)
                       (oldValue cd) (luserData obs) (listChangeType cd) (listItem cd)
                       (index cd)) (heap w)) as Hk.
      assert (Hlen : OList.m_observers (the_list (heap w1') this)
                     = OList.m_observers (the_list (heap w) this)) by apply Hk.
      destruct (IH this cd (S i) w1') as (w' & Hrun & Hkeep & Hcalls);
        [rewrite Hlen; lia | rewrite Hlen; lia |].
      exists w'. split; [exact Hrun |]. split.
      * eapply keeps_observers_trans; [exact Hk | exact Hkeep].
      * intros o. rewrite Hcalls. subst w1'. cbn [calls].
        rewrite observer_calls_app. cbn. apply app_nil_r.
  - exists w. split; [reflexivity |]. split; [apply keeps_observers_refl | reflexivity].
Qed.

Lemma notifyObservers_quiet (E : Env) (gas this : nat) (cd : Details) (w : World) :
  quiet E ->
  (List.length (OList.m_observers (the_list (heap w) this)) < gas)%nat ->
  exists w',
    notifyObservers E gas this cd w = Ret tt w'
    /\ keeps_observers (heap w) (heap w')
    /\ forall o, observer_calls o (calls w') = observer_calls o (calls w).
Proof.
  intros HE Hin. unfold notifyObservers.
  apply notifyObservers_loop_quiet; [exact HE | lia | exact Hin].
Qed.

Lemma invoke_quiet (E : Env) (gas this : nat) (h : ObserverHandle) (d : Details) (w : World) :
  quiet E -> within gas (heap w) ->
  exists w',
    invoke E gas this h d w = Ret tt w'
    /\ keeps_observers (heap w) (heap w')
    /\ observer_calls this (calls w') = observer_calls this (calls w) ++ [(h, d)].
Proof.
  intros HE Hin. unfold invoke, bind, record_call. cbn [heap calls].
  destruct (callbackFunction h) as [us item insertionIndex | k].
  - match goal with
    | |- context [notifyObservers E gas us ?info ?w1] =>
        destruct (notifyObservers_quiet E gas us info w1 HE (proj2 Hin us))
          as (w' & Hrun & Hkeep & Hcalls)
    end.
    exists w'. split; [exact Hrun |]. split; [exact Hkeep |].
    rewrite Hcalls. cbn [calls]. rewrite observer_calls_app. cbn.
    rewrite Nat.eqb_refl. reflexivity.
  - unfold call_user. cbn [heap calls]. eexists. split; [reflexivity |].
    split; [apply HE |]. cbn [calls]. rewrite observer_calls_app. cbn.
    rewrite Nat.eqb_refl. reflexivity.
Qed.

(** In a quiet program the pass of notifyAll ends and calls the observers from
    position [i] on, each once, with its own copy of the details. *)
Lemma notifyAll_loop_quiet (E : Env) (gas : nat) :
  quiet E ->
  forall (n this : nat) (cd : Details) (i : nat) (w : World),
    within gas (heap w) ->
    (i <= List.length (Obj.m_observers (the_object (heap w) this)))%nat ->
    (List.length (Obj.m_observers (the_object (heap w) this)) < i + n)%nat ->
    exists w',
      notifyAll_loop E gas n this cd i w = Ret tt w'
      /\ keeps_observers (heap w) (heap w')
      /\ observer_calls this (calls w')
         = observer_calls this (calls w)
           ++ map (fun h => (h, mkDetails (Some (VObservable this)) (senders cd) (object cd)
                                  (name cd) (oldValue cd) (userData h) None None None))
                (drop i (Obj.m_observers (the_object (heap w) this))).
Proof.
  intros HE n. induction n as [| n IH]; intros this cd i w Hin Hle Hlt; [lia |].
  cbn [notifyAll_loop].
  destruct (Obj.m_observers (the_object (heap w) this) !! i) as [h |] eqn:Hobs.
  - pose proof (lookup_lt_Some _ _ _ Hobs) as Hi.
    unfold bind.
    match goal with
    | |- context [invoke E gas this h ?d w] =>
        destruct (invoke_quiet E gas this h d w HE Hin) as (w1 & Hrun & Hkeep & Hcalls)
    end.
    rewrite Hrun.
    assert (Hlen : Obj.m_observers (the_object (heap w1) this)
                   = Obj.m_observers (the_object (heap w) this)) by apply Hkeep.
    destruct (IH this cd (S i) w1) as (w' & Hrun' & Hkeep' & Hcalls');
      [eapply within_keeps; eassumption | rewrite Hlen; lia | rewrite Hlen; lia |].
    exists w'. split; [exact Hrun' |]. split.
    + eapply keeps_observers_trans; eassumption.
    + rewrite Hcalls', Hcalls, Hlen, <- app_assoc. f_equal.
      rewrite (drop_S _ _ _ Hobs). reflexivity.
  - exists w. split; [reflexivity |]. split; [apply keeps_observers_refl |].
    apply lookup_ge_None in Hobs. rewrite drop_ge by lia. cbn. rewrite app_nil_r.
    reflexivity.
Qed.

Lemma set_object_keeps (h : Heap) (this : nat) (x' : Obj.t) :
  Obj.m_observers x' = Obj.m_observers (the_object h this) ->
  keeps_observers h (set_object this x' h).
Proof.
  intros Hobs. split; [| reflexivity].
  intros o. unfold the_object, set_object in *. cbn [observables].
  destruct (decide (o = this)) as [-> | Hne].
  - destruct (observables h !! this) as [x |] eqn:Hx.
    + rewrite list_lookup_insert_eq by (eapply lookup_lt_Some; exact Hx). exact Hobs.
    + rewrite list_insert_ge by (apply lookup_ge_None; exact Hx). rewrite Hx. reflexivity.
  - rewrite list_lookup_insert_ne by congruence. reflexivity.
Qed.

Lemma notifyAll_quiet (E : Env) (gas this : nat) (n : string) (old : Value)
    (obj : option Value) (w : World) :
  quiet E -> within gas (heap w) ->
  obj = None \/ obj = Some (VObservable this) ->
  exists w',
    notifyAll E gas this (changeDetails n old obj) w = Ret tt w'
    /\ keeps_observers (heap w) (heap w')
    /\ observer_calls this (calls w')
       = observer_calls this (calls w)
         ++ map (fun h => (h, event this n old h)) (Obj.m_observers (the_object (heap w) this)).
Proof.
  intros HE Hin Hobj. unfold notifyAll.
  match goal with
  | |- context [notifyAll_loop E gas gas this ?cd 0%nat w] =>
      destruct (notifyAll_loop_quiet E gas HE gas this cd 0%nat w Hin)
        as (w' & Hrun & Hkeep & Hcalls);
        [lia | apply Hin |]
  end.
  exists w'. split; [exact Hrun |]. split; [exact Hkeep |].
  rewrite Hcalls. unfold event.
  destruct Hobj as [-> | ->]; reflexivity.
Qed.

Lemma bind_Ret {A B} (m : M A) (k : A -> M B) (w w1 : World) (a : A) :
  m w = Ret a w1 -> bind m k w = k a w1.
Proof. intros H. unfold bind. rewrite H. reflexivity. Qed.

Lemma define_ok (this : nat) (n : string) (p : Property) (x' : Obj.t) (w : World) :
  Observable.defineProperty (the_object (heap w) this) n p = Some x' ->
  Observable.define this n p w = Ret tt (mkWorld (set_object this x' (heap w)) (calls w)).
Proof.
  intros H. unfold Observable.define. rewrite bind_get_heap, H. reflexivity.
Qed.

Lemma set_slot_ok (this : nat) (n : string) (s : Slot) (p : Property) (w : World) :
  own (Obj.props (the_object (heap w) this)) n = Some p ->
  Observable.set_slot this n s w
  = Ret tt (mkWorld
              (set_object this
                 (set_props (replace_own (Obj.props (the_object (heap w) this)) n
                               (mkProperty s (enumerable p) (configurable p)))
                    (the_object (heap w) this)) (heap w))
              (calls w)).
Proof.
  intros H. unfold Observable.set_slot. rewrite bind_get_heap, H. reflexivity.
Qed.

(** After a step that keeps the observer arrays and the record of calls, the
    pass of notifyAll calls the observers registered before the step. *)
Lemma pass_after_step (E : Env) (gas this : nat) (n : string) (old : Value)
    (obj : option Value) (w w1 : World) :
  quiet E -> within gas (heap w) ->
  keeps_observers (heap w) (heap w1) -> calls w1 = calls w ->
  obj = None \/ obj = Some (VObservable this) ->
  exists w',
    notifyAll E gas this (changeDetails n old obj) w1 = Ret tt w'
    /\ observer_calls this (calls w')
       = observer_calls this (calls w)
         ++ map (fun h => (h, event this n old h)) (Obj.m_observers (the_object (heap w) this)).
Proof.
  intros HE Hin Hkeep Hcalls Hobj.
  destruct (notifyAll_quiet E gas this n old obj w1 HE (within_keeps _ _ _ Hkeep Hin) Hobj)
    as (w' & Hrun & _ & Hc).
  exists w'. split; [exact Hrun |].
  rewrite Hc, Hcalls. destruct Hkeep as [Hk _]. rewrite Hk. reflexivity.
Qed.

(** C3, as amended.  Each property add (by addProperty, addROProperty,
    addPropertyWithPrivateSet or addPropertyWithSetFilter), each change (by an
    assignment, through a set filter or through the private set function) and
    each remove makes one pass of notifyAll, which walks the live observer
    array by position.  When the functions of the program leave the observer
    arrays alone, the pass calls exactly the observers registered when the
    notification begins, each once and in the order of registration, with the
    name and the old value of the property. *)
Theorem C3_one_pass_over_registered_observers
    (E : Env) (gas this : nat) (n : string) (w : World) :
  quiet E -> within gas (heap w) ->
  let x := the_object (heap w) this in
  let passed old w' :=
    observer_calls this (calls w')
    = observer_calls this (calls w)
      ++ map (fun h => (h, event this n old h)) (Obj.m_observers x) in
  (forall v removable writable isEnumerable,
      n <> Observable.reserved_name -> own (Obj.props x) n = None ->
      inherited n = false -> Obj.extensible x = true ->
      exists w', Observable.addProperty E gas this (NameStr n) v removable writable
                   isEnumerable w = Ret true w'
                 /\ passed VUndefined w')
  /\ (forall v isEnumerable,
        n <> Observable.reserved_name -> own (Obj.props x) n = None ->
        inherited n = false -> Obj.extensible x = true ->
        exists w', Observable.addROProperty E gas this (NameStr n) v isEnumerable w
                   = Ret true w'
                   /\ passed VUndefined w')
  /\ (forall v isEnumerable,
        n <> Observable.reserved_name -> own (Obj.props x) n = None ->
        inherited n = false -> Obj.extensible x = true ->
        exists w', Observable.addPropertyWithPrivateSet E gas this (NameStr n) v
                     isEnumerable w = Ret (Some (Observable.mkSetFunc this n)) w'
                   /\ passed VUndefined w')
  /\ (forall v setFilterFunc removable isEnumerable,
        n <> Observable.reserved_name -> own (Obj.props x) n = None ->
        inherited n = false -> Obj.extensible x = true ->
        exists w', Observable.addPropertyWithSetFilter E gas this (NameStr n) v
                     (Some setFilterFunc) removable isEnumerable w = Ret true w'
                   /\ passed VUndefined w')
  /\ (forall p current v,
        own (Obj.props x) n = Some p -> slot p = PlainSlot current ->
        strict_eq current v = false ->
        exists w', Observable.assign E gas this n v w = Ret tt w' /\ passed current w')
  /\ (forall p current v,
        own (Obj.props x) n = Some p -> slot p = PrivateSlot current ->
        strict_eq current v = false ->
        exists w', Observable.setFunc E gas (Observable.mkSetFunc this n) v w = Ret tt w'
                   /\ passed current w')
  /\ (forall p current setFilterFunc v,
        own (Obj.props x) n = Some p -> slot p = FilterSlot current setFilterFunc ->
        strict_eq current (setFilterFunc v current) = false ->
        exists w', Observable.assign E gas this n v w = Ret tt w' /\ passed current w')
  /\ (forall p,
        own (Obj.props x) n = Some p -> configurable p = true ->
        slot_get (slot p) <> VUndefined ->
        exists w', Observable.removeProperty E gas this (NameStr n) w = Ret true w'
                   /\ passed (slot_get (slot p)) w').
Proof.
  intros HE Hin x passed. subst passed. cbv beta.
  assert (Hstep : forall x' old obj,
             Obj.m_observers x' = Obj.m_observers x ->
             obj = None \/ obj = Some (VObservable this) ->
             exists w',
               notifyAll E gas this (changeDetails n old obj)
                 (mkWorld (set_object this x' (heap w)) (calls w)) = Ret tt w'
               /\ observer_calls this (calls w')
                  = observer_calls this (calls w)
                    ++ map (fun h => (h, event this n old h)) (Obj.m_observers x)).
  { intros x' old obj Hobs Hobj.
    apply pass_after_step; [exact HE | exact Hin | | reflexivity | exact Hobj].
    apply set_object_keeps. exact Hobs. }
  assert (Hadd : forall v removable writable isEnumerable,
             n <> Observable.reserved_name -> own (Obj.props x) n = None ->
             inherited n = false -> Obj.extensible x = true ->
             exists w', Observable.addProperty E gas this (NameStr n) v removable writable
                          isEnumerable w = Ret true w'
                        /\ observer_calls this (calls w')
                           = observer_calls this (calls w)
                             ++ map (fun h => (h, event this n VUndefined h))
                                  (Obj.m_observers x)).
  { intros v removable writable isEnumerable Hres Hown Hinh Hext.
    unfold Observable.addProperty.
    rewrite (proj2 (String.eqb_neq _ _) Hres), bind_get_heap. fold x.
    unfold Observable.get at 1. rewrite Hown, Hinh. cbn [strict_eq negb].
    match goal with
    | |- context [Observable.define this n ?p] =>
        rewrite (bind_Ret _ _ _ _ _
                   (define_ok this n p (set_props (Obj.props x ++ [(n, p)]) x) w
                      ltac:(unfold Observable.defineProperty; fold x; rewrite Hown, Hext;
                            reflexivity)))
    end.
    destruct (Hstep (set_props (Obj.props x ++ [(n, match writable with
        | Some false => mkProperty (DataSlot v false) (default true isEnumerable)
                          (default true removable)
        | _ => mkProperty (PlainSlot v) (default true isEnumerable) (default true removable)
        end)]) x) VUndefined (Some (VObservable this)) eq_refl (or_intror eq_refl))
      as (w' & Hrun & Hc).
    exists w'. rewrite (bind_Ret _ _ _ _ _ Hrun). split; [reflexivity | exact Hc]. }
  repeat split.
  - exact Hadd.
  - intros v isEnumerable. unfold Observable.addROProperty. apply Hadd.
  - intros v isEnumerable Hres Hown Hinh Hext.
    unfold Observable.addPropertyWithPrivateSet.
    rewrite (proj2 (String.eqb_neq _ _) Hres), bind_get_heap. fold x.
    unfold Observable.get at 1. rewrite Hown, Hinh. cbn [strict_eq negb].
    match goal with
    | |- context [Observable.define this n ?p] =>
        rewrite (bind_Ret _ _ _ _ _
                   (define_ok this n p (set_props (Obj.props x ++ [(n, p)]) x) w
                      ltac:(unfold Observable.defineProperty; fold x; rewrite Hown, Hext;
                            reflexivity)));
        destruct (Hstep (set_props (Obj.props x ++ [(n, p)]) x) VUndefined
                    (Some (VObservable this)) eq_refl (or_intror eq_refl))
          as (w' & Hrun & Hc)
    end.
    exists w'. rewrite (bind_Ret _ _ _ _ _ Hrun). split; [reflexivity | exact Hc].
  - intros v setFilterFunc removable isEnumerable Hres Hown Hinh Hext.
    unfold Observable.addPropertyWithSetFilter.
    rewrite (proj2 (String.eqb_neq _ _) Hres), bind_get_heap. fold x.
    unfold Observable.get at 1. rewrite Hown, Hinh. cbn [strict_eq negb].
    match goal with
    | |- context [Observable.define this n ?p] =>
        rewrite (bind_Ret _ _ _ _ _
                   (define_ok this n p (set_props (Obj.props x ++ [(n, p)]) x) w
                      ltac:(unfold Observable.defineProperty; fold x; rewrite Hown, Hext;
                            reflexivity)));
        destruct (Hstep (set_props (Obj.props x ++ [(n, p)]) x) VUndefined
                    (Some (VObservable this)) eq_refl (or_intror eq_refl))
          as (w' & Hrun & Hc)
    end.
    exists w'. rewrite (bind_Ret _ _ _ _ _ Hrun). split; [reflexivity | exact Hc].
  - intros p current v Hown Hslot Hne.
    unfold Observable.assign. rewrite bind_get_heap. fold x. rewrite Hown, Hslot, Hne.
    rewrite (bind_Ret _ _ _ _ _ (set_slot_ok this n _ p w Hown)). fold x.
    apply Hstep; [reflexivity | left; reflexivity].
  - intros p current v Hown Hslot Hne.
    unfold Observable.setFunc. rewrite bind_get_heap.
    cbn [Observable.ownerObj Observable.sf_propertyName]. fold x.
    rewrite Hown. cbn [fmap option_fmap option_map]. rewrite Hslot, Hne.
    rewrite (bind_Ret _ _ _ _ _ (set_slot_ok this n _ p w Hown)). fold x.
    apply Hstep; [reflexivity | left; reflexivity].
  - intros p current f v Hown Hslot Hne.
    unfold Observable.assign. rewrite bind_get_heap. fold x. rewrite Hown, Hslot, Hne.
    rewrite (bind_Ret _ _ _ _ _ (set_slot_ok this n _ p w Hown)). fold x.
    apply Hstep; [reflexivity | left; reflexivity].
  - intros p Hown Hconf Hdef.
    unfold Observable.removeProperty. rewrite bind_get_heap. fold x.
    assert (Hget : Observable.get x n = slot_get (slot p))
      by (unfold Observable.get; rewrite Hown; reflexivity).
    rewrite Hget.
    destruct (strict_eq (slot_get (slot p)) VUndefined) eqn:Hu;
      [apply strict_eq_undefined in Hu; contradiction |].
    rewrite Hown, Hconf. cbn [negb].
    unfold bind at 1, put_heap.
    destruct (Hstep (set_props (delete_own (Obj.props x) n) x) (slot_get (slot p)) None
                eq_refl (or_introl eq_refl)) as (w' & Hrun & Hc).
    exists w'. rewrite (bind_Ret _ _ _ _ _ Hrun). split; [reflexivity | exact Hc].
Qed.

(** The three add functions share the test of the name: once the name is
    known not to be the reserved one, the call is settled by whether
    [this[name]] is undefined. *)
Ltac name_check Hreserved Hcheck x :=
  rewrite Hreserved, bind_get_heap; fold x;
  match goal with
  | |- context [negb (strict_eq ?v VUndefined)] =>
      destruct (negb (strict_eq v VUndefined));
      [ split; [split |]; intros;
        [apply Hcheck; reflexivity | eexists; reflexivity | reflexivity]
      | let Hno := fresh "Hno" in
        assert (Hno : ~ (v <> VUndefined))
          by (let Ht := fresh in intros Ht; apply Hcheck in Ht; discriminate Ht);
        split; [split |]; [| contradiction | contradiction];
        let Hr := fresh "Hr" in
        intros (? & Hr); exfalso; revert Hr;
        apply bind_never; intros _ ? ?; apply bind_never; intros _ ? ?;
        apply ret_never; discriminate ]
  end.

(** C10.  The three add functions turn a name down, returning false (null for
    addPropertyWithPrivateSet) and leaving everything as it was, exactly when
    reading [this[name]] yields something other than undefined; so the name of
    an inherited member such as "toString" or "addProperty" is turned down
    though the object has no own property of that name, and an own property
    that holds undefined does not stand in the way: over a removable one the
    add goes through and returns true. *)
Theorem C10_duplicate_name_check
    (E : Env) (gas this : nat) (n : string) (v : Value)
    (removable writable isEnumerable : option bool)
    (setFilterFunc : Value -> Value -> Value) (w : World) :
  n <> Observable.reserved_name ->
  let x := the_object (heap w) this in
  let taken := Observable.get x n <> VUndefined in
  ((exists w', Observable.addProperty E gas this (NameStr n) v removable writable
                 isEnumerable w = Ret false w') <-> taken)
  /\ (taken -> Observable.addProperty E gas this (NameStr n) v removable writable
                 isEnumerable w = Ret false w)
  /\ ((exists w', Observable.addPropertyWithPrivateSet E gas this (NameStr n) v
                    isEnumerable w = Ret None w') <-> taken)
  /\ (taken -> Observable.addPropertyWithPrivateSet E gas this (NameStr n) v
                 isEnumerable w = Ret None w)
  /\ ((exists w', Observable.addPropertyWithSetFilter E gas this (NameStr n) v
                    (Some setFilterFunc) removable isEnumerable w = Ret false w') <-> taken)
  /\ (taken -> Observable.addPropertyWithSetFilter E gas this (NameStr n) v
                 (Some setFilterFunc) removable isEnumerable w = Ret false w)
  /\ (inherited n = true -> own (Obj.props x) n = None -> taken)
  /\ (forall p, own (Obj.props x) n = Some p -> slot_get (slot p) = VUndefined -> ~ taken)
  /\ (forall p,
        own (Obj.props x) n = Some p -> slot_get (slot p) = VUndefined ->
        configurable p = true -> quiet E -> within gas (heap w) ->
        exists w', Observable.addProperty E gas this (NameStr n) v removable writable
                     isEnumerable w = Ret true w')
  /\ inherited "toString" = true /\ inherited "addProperty" = true.
Proof.
  intros Hres x taken.
  assert (Hreserved : String.eqb n Observable.reserved_name = false)
    by (apply String.eqb_neq; exact Hres).
  assert (Hcheck : negb (strict_eq (Observable.get x n) VUndefined) = true <-> taken)
    by apply strict_eq_not_undefined.
  assert (Hadd : forall r, r = Observable.addProperty E gas this (NameStr n) v removable
                               writable isEnumerable w ->
                 ((exists w', r = Ret false w') <-> taken) /\ (taken -> r = Ret false w)).
  { intros r ->. unfold Observable.addProperty. name_check Hreserved Hcheck x. }
  assert (Hprivate : forall r, r = Observable.addPropertyWithPrivateSet E gas this (NameStr n)
                                   v isEnumerable w ->
                 ((exists w', r = Ret None w') <-> taken) /\ (taken -> r = Ret None w)).
  { intros r ->. unfold Observable.addPropertyWithPrivateSet. name_check Hreserved Hcheck x. }
  assert (Hfilter : forall r, r = Observable.addPropertyWithSetFilter E gas this (NameStr n) v
                                  (Some setFilterFunc) removable isEnumerable w ->
                 ((exists w', r = Ret false w') <-> taken) /\ (taken -> r = Ret false w)).
  { intros r ->. unfold Observable.addPropertyWithSetFilter. name_check Hreserved Hcheck x. }
  destruct (Hadd _ eq_refl) as [A1 A2].
  destruct (Hprivate _ eq_refl) as [P1 P2].
  destruct (Hfilter _ eq_refl) as [F1 F2].
  repeat (split; [assumption |]).
  split; [| split; [| split; [| split; reflexivity]]].
  - intros Hinh Hown. unfold taken, Observable.get. rewrite Hown, Hinh. discriminate.
  - intros p Hown Hundef Htaken. apply Htaken. unfold Observable.get.
    rewrite Hown. exact Hundef.
  - intros p Hown Hundef Hconf HE Hin.
    unfold Observable.addProperty. rewrite Hreserved, bind_get_heap. fold x.
    unfold Observable.get at 1. rewrite Hown, Hundef. cbn [strict_eq negb].
    match goal with
    | |- context [Observable.define this n ?q] =>
        rewrite (bind_Ret _ _ _ _ _
                   (define_ok this n q
                      (set_props
                         (replace_own (Obj.props x) n
                            (mkProperty (merge_slot (slot p) (slot q)) (enumerable q)
                               (configurable q))) x) w
                      ltac:(unfold Observable.defineProperty; fold x; rewrite Hown, Hconf;
                            reflexivity)))
    end.
    match goal with
    | |- exists _, bind _ _ ?w1 = _ =>
        destruct (pass_after_step E gas this n VUndefined (Some (VObservable this)) w w1
                    HE Hin) as (w' & Hrun & _);
          [apply set_object_keeps; reflexivity | reflexivity | right; reflexivity |]
    end.
    exists w'. rewrite (bind_Ret _ _ _ _ _ Hrun). reflexivity.
Qed.

Lemma nobody_quiet : quiet nobody.
Proof. intros k this d h. apply keeps_observers_refl. Qed.

Lemma two_observers_within : within 5 (heap two_observers).
Proof.
  split.
  - intros [| o]; vm_compute; lia.
  - intros l; vm_compute; lia.
Qed.

Lemma C3_one_pass_over_registered_observers_witness :
  (exists w',
     Observable.addProperty nobody 5 0 (NameStr "p") (VNum 1) None None None two_observers
     = Ret true w'
     /\ observer_calls 0 (calls w')
        = observer_calls 0 (calls two_observers)
          ++ map (fun h => (h, event 0 "p" VUndefined h))
               (Obj.m_observers (the_object (heap two_observers) 0)))
  /\ (exists w',
        Observable.addPropertyWithPrivateSet nobody 5 0 (NameStr "p") (VNum 1) None
          two_observers = Ret (Some (Observable.mkSetFunc 0 "p")) w'
        /\ observer_calls 0 (calls w')
        = observer_calls 0 (calls two_observers)
          ++ map (fun h => (h, event 0 "p" VUndefined h))
               (Obj.m_observers (the_object (heap two_observers) 0)))
  /\ (exists w',
        Observable.addPropertyWithSetFilter nobody 5 0 (NameStr "p") (VNum 1) (Some bump)
          None None two_observers = Ret true w'
        /\ observer_calls 0 (calls w')
        = observer_calls 0 (calls two_observers)
          ++ map (fun h => (h, event 0 "p" VUndefined h))
               (Obj.m_observers (the_object (heap two_observers) 0))).
Proof.
  destruct (C3_one_pass_over_registered_observers nobody 5 0 "p" two_observers
              nobody_quiet two_observers_within) as (Hadd & _ & Hprivate & Hfilter & _).
  split; [| split].
  - apply Hadd; [discriminate | reflexivity | reflexivity | reflexivity].
  - apply Hprivate; [discriminate | reflexivity | reflexivity | reflexivity].
  - apply Hfilter; [discriminate | reflexivity | reflexivity | reflexivity].
Defined.

(** C3, the claim as stated fails.  The observer array is walked live.  With
    one observer registered, whose function registers a second, adding a
    property calls both in the same pass; with two registered, the first of
    which removes itself, the pass skips the second. *)
Lemma C3_snapshot_counterexample :
  map hid (Obj.m_observers (the_object (heap one_observer) 0)) = [0%nat]
  /\ (exists w',
        Observable.addProperty registers_another 5 0 (NameStr "p") (VNum 1) None None None
          one_observer = Ret true w'
        /\ map (fun c => hid c.1) (observer_calls 0 (calls w')) = [0%nat; 1%nat])
  /\ map hid (Obj.m_observers (the_object (heap two_observers) 0)) = [0%nat; 1%nat]
  /\ (exists w',
        Observable.addProperty unregisters_itself 5 0 (NameStr "p") (VNum 1) None None None
          two_observers = Ret true w'
        /\ map (fun c => hid c.1) (observer_calls 0 (calls w')) = [0%nat]).
Proof.
  split; [reflexivity |]. split.
  - exists (world_after (Observable.addProperty registers_another 5 0 (NameStr "p") (VNum 1)
                           None None None one_observer)).
    split; vm_compute; reflexivity.
  - split; [reflexivity |].
    exists (world_after (Observable.addProperty unregisters_itself 5 0 (NameStr "p") (VNum 1)
                           None None None two_observers)).
    split; vm_compute; reflexivity.
Qed.

Lemma C8_same_value_is_silent_witness :
  Observable.assign nobody 5 0 "x" (VNum 1) two_observers = Ret tt two_observers.
Proof.
  destruct (C8_same_value_is_silent nobody 5 0 "x" (VNum 1)
              (mkProperty (PlainSlot (VNum 1)) true true) two_observers eq_refl)
    as (Hplain & _).
  apply (Hplain (VNum 1)); reflexivity.
Defined.

(** C8, the claim as stated fails.  The property [p] holds 1 behind a set
    filter; assigning 1, strictly equal to the current value, stores what the
    filter returns, 2, and the observer is called. *)
Lemma C8_filtered_assignment_counterexample :
  Observable.get (the_object (heap filtered_world) 0) "p" = VNum 1
  /\ strict_eq (Observable.get (the_object (heap filtered_world) 0) "p") (VNum 1) = true
  /\ exists w',
       Observable.assign nobody 5 0 "p" (VNum 1) filtered_world = Ret tt w'
       /\ Observable.get (the_object (heap w') 0) "p" = VNum 2
       /\ observer_calls 0 (calls filtered_world) = []
       /\ map (fun c => (name c.2, oldValue c.2)) (observer_calls 0 (calls w'))
          = [("p", VNum 1)].
Proof.
  split; [reflexivity |]. split; [reflexivity |].
  exists (world_after (Observable.assign nobody 5 0 "p" (VNum 1) filtered_world)).
  repeat split; vm_compute; reflexivity.
Qed.

Lemma C10_duplicate_name_check_witness :
  Observable.addProperty nobody 5 0 (NameStr "toString") (VNum 1) None None None one_observer
  = Ret false one_observer
  /\ Observable.get (the_object (heap holds_undefined) 0) "p" = VUndefined
  /\ exists w', Observable.addProperty nobody 5 0 (NameStr "p") (VNum 1) None None None
                  holds_undefined = Ret true w'.
Proof.
  split; [| split; [reflexivity |]].
  - destruct (C10_duplicate_name_check nobody 5 0 "toString" (VNum 1) None None None bump
                one_observer ltac:(discriminate)) as (_ & Hadd & _).
    apply Hadd. discriminate.
  - destruct (C10_duplicate_name_check nobody 5 0 "p" (VNum 1) None None None bump
                holds_undefined ltac:(discriminate))
      as (_ & _ & _ & _ & _ & _ & _ & _ & Hre & _).
    apply (Hre (mkProperty (PlainSlot VUndefined) true true));
      [reflexivity | reflexivity | reflexivity | exact nobody_quiet |].
    split; [intros [| o] | intros l]; vm_compute; lia.
Defined.

(** ** Observable lists *)

(** Subscribing to an item touches neither the lists nor the record of calls. *)
Lemma observe_item_returns (this : nat) (item : Value) (i : Z) (w : World) :
  exists handle w1,
    ObservableList.observe_item this item i w = Ret handle w1
    /\ lists (heap w1) = lists (heap w)
    /\ calls w1 = calls w
    /\ handle = match item with
                | VObservable _ =>
                    Some (mkHandle (next_handle (heap w)) (itemChangeCallback this item i)
                            (VList this) item)
                | _ => None
                end.
Proof.
  destruct item; try (exists None, w; repeat split; reflexivity).
  unfold ObservableList.observe_item, Observable.addChangeObserver, bind, get_heap,
    put_heap, ret.
  cbn [loosely_undefined heap calls].
  eexists. eexists. split; [reflexivity |]. repeat split; reflexivity.
Qed.

Lemma the_list_set_list (h : Heap) (this : nat) (x : OList.t) :
  (this < List.length (lists h))%nat -> the_list (set_list this x h) this = x.
Proof.
  intros Hlt. unfold the_list, set_list. cbn [lists].
  rewrite list_lookup_insert_eq by exact Hlt. reflexivity.
Qed.

(** Subscribing to an item: what is returned and what it leaves behind. *)
Lemma observe_item_subscribes (this : nat) (item : Value) (i : Z) (w : World) :
  exists w1,
    ObservableList.observe_item this item i w = Ret (subscription (heap w) this item i) w1
    /\ lists (heap w1) = lists (heap w)
    /\ calls w1 = calls w
    /\ (forall o xo handle,
          item = VObservable o -> observables (heap w) !! o = Some xo ->
          subscription (heap w) this item i = Some handle ->
          Obj.m_observers (the_object (heap w1) o) = Obj.m_observers xo ++ [handle])
    /\ ((forall o, item <> VObservable o) -> w1 = w).
Proof.
  destruct item as [| | | | | | | o | |];
    try (exists w; split; [reflexivity |]; split; [reflexivity |]; split; [reflexivity |];
         split; [intros ? ? ? Hitem; discriminate Hitem | reflexivity]).
  unfold ObservableList.observe_item, Observable.addChangeObserver, bind, get_heap,
    put_heap, ret, subscription.
  cbn [loosely_undefined heap calls].
  eexists. split; [reflexivity |]. cbn [heap calls lists]. repeat split.
  - intros o' xo handle Hitem Hxo Hh. injection Hitem as <-. injection Hh as <-.
    unfold the_object at 1. cbn [observables].
    rewrite list_lookup_insert_eq by (eapply lookup_lt_Some; exact Hxo).
    cbn [default from_option id set_observers Obj.m_observers].
    unfold the_object. rewrite Hxo. reflexivity.
  - intros Hno. exfalso. apply (Hno o). reflexivity.
Qed.

(** C9.  push is the function add.  With the index left out it turns the item
    down, returning false and changing nothing, when the validator does not
    return true; otherwise it subscribes to the item as add does (an item that
    is an ETO_Observable gets one more observer, last in its array: the
    list's function with the list, the item and the old length captured, the
    list being its user data; the storage tuple holds that handle; any other
    item goes in with no handle and no observer array changes), puts the item
    last, tells the list's observers of the "add" at the old length and
    returns true, a boolean and not the new length. *)
Theorem C9_push_is_add
    (E : Env) (gas this : nat) (item : Value) (w : World) :
  let len := ObservableList.length (heap w) this in
  let handle := subscription (heap w) this item len in
  ObservableList.push = ObservableList.add
  /\ (forall validator,
        OList.m_addValidator (the_list (heap w) this) = Some validator ->
        validator item = false ->
        ObservableList.push E gas this item IndexUndefined w = Ret false w)
  /\ (quiet E ->
      (this < List.length (lists (heap w)))%nat ->
      (List.length (OList.m_observers (the_list (heap w) this)) < gas)%nat ->
      (forall validator,
         OList.m_addValidator (the_list (heap w) this) = Some validator ->
         validator item = true) ->
      exists w1 w',
        ObservableList.observe_item this item len w = Ret handle w1
        /\ (forall o xo,
              item = VObservable o -> observables (heap w) !! o = Some xo ->
              Obj.m_observers (the_object (heap w') o)
              = Obj.m_observers xo
                ++ [mkHandle (next_handle (heap w)) (itemChangeCallback this item len)
                      (VList this) item])
        /\ ((forall o, item <> VObservable o) ->
            forall o, Obj.m_observers (the_object (heap w') o)
                      = Obj.m_observers (the_object (heap w) o))
        /\ let inserted :=
             mkWorld
               (set_list this
                  (set_storage (ObservableList.storage_of (heap w) this ++ [(item, handle)])
                     (the_list (heap w1) this))
                  (heap w1))
               (calls w1) in
           ObservableList.at_ (heap inserted) this (Some len) = item
           /\ ObservableList.length (heap inserted) this = len + 1
           /\ ObservableList.storage_of (heap inserted) this
              = ObservableList.storage_of (heap w) this ++ [(item, handle)]
           /\ notifyObservers E gas this
                (mkDetails None None (Some (VList this)) (Z_toString len) VUndefined
                   VUndefined (Some "add") None (Some len)) inserted = Ret tt w'
           /\ ObservableList.push E gas this item IndexUndefined w = Ret true w').
Proof.
  intros len handle. split; [reflexivity |]. split.
  - intros validator Hv Hno. unfold ObservableList.push, ObservableList.add.
    rewrite bind_get_heap. unfold ObservableList.add_at.
    rewrite bind_get_heap, Hv. cbn. rewrite Hno. reflexivity.
  - intros HE Hthis Hgas Hyes.
    destruct (observe_item_subscribes this item len w)
      as (w1 & Hobs & Hlists & Hcalls & Hsub & Hnone).
    fold handle in Hobs.
    assert (Hlist : the_list (heap w1) this = the_list (heap w) this)
      by (unfold the_list; rewrite Hlists; reflexivity).
    set (inserted :=
           mkWorld
             (set_list this
                (set_storage (ObservableList.storage_of (heap w) this ++ [(item, handle)])
                   (the_list (heap w1) this))
                (heap w1))
             (calls w1)).
    assert (Hins : the_list (heap inserted) this
                   = set_storage (ObservableList.storage_of (heap w) this ++ [(item, handle)])
                       (the_list (heap w1) this)).
    { subst inserted. cbn [heap]. apply the_list_set_list. rewrite Hlists. exact Hthis. }
    assert (Hobjs : forall o, the_object (heap inserted) o = the_object (heap w1) o)
      by reflexivity.
    destruct (notifyObservers_quiet E gas this
                (mkDetails None None (Some (VList this)) (Z_toString len) VUndefined
                   VUndefined (Some "add") None (Some len)) inserted HE)
      as (w' & Hrun & [Hkeep _] & _).
    { rewrite Hins. cbn [set_storage OList.m_observers]. rewrite Hlist. exact Hgas. }
    exists w1, w'. split; [exact Hobs |]. cbv zeta. fold inserted.
    assert (Hlen : List.length (ObservableList.storage_of (heap w) this) = Z.to_nat len)
      by (unfold len, ObservableList.length; rewrite Nat2Z.id; reflexivity).
    split; [| split; [| split; [| split; [| split; [| split; [exact Hrun |]]]]]].
    + intros o xo Hitem Hxo. rewrite Hkeep, Hobjs.
      apply (Hsub o xo); [exact Hitem | exact Hxo |].
      unfold subscription. destruct item; try discriminate Hitem. reflexivity.
    + intros Hno o. rewrite Hkeep, Hobjs, (Hnone Hno). reflexivity.
    + unfold ObservableList.at_, ObservableList.length, ObservableList.storage_of.
      rewrite Hins. cbn [set_storage OList.m_storage].
      fold (ObservableList.storage_of (heap w) this).
      rewrite length_app. cbn [List.length].
      replace (len <? 0) with false
        by (symmetry; apply Z.ltb_ge; unfold len, ObservableList.length; lia).
      rewrite Z.geb_leb.
      replace (_ <=? len) with false
        by (symmetry; apply Z.leb_gt; unfold len, ObservableList.length; lia).
      cbn [orb]. rewrite lookup_app_r by lia. rewrite <- Hlen, Nat.sub_diag. reflexivity.
    + unfold ObservableList.length at 1, ObservableList.storage_of.
      rewrite Hins. cbn [set_storage OList.m_storage].
      fold (ObservableList.storage_of (heap w) this).
      rewrite length_app. cbn [List.length]. unfold len, ObservableList.length. lia.
    + unfold ObservableList.storage_of at 1. rewrite Hins. reflexivity.
    + unfold ObservableList.push, ObservableList.add. rewrite bind_get_heap.
      fold len. unfold ObservableList.add_at. rewrite bind_get_heap.
      assert (Hval : from_option (fun m_addValidator : Value -> bool => negb (m_addValidator item))
                       false (OList.m_addValidator (the_list (heap w) this)) = false).
      { destruct (OList.m_addValidator (the_list (heap w) this)) as [validator |] eqn:Hv;
          [cbn; rewrite (Hyes validator eq_refl); reflexivity | reflexivity]. }
      rewrite Hval. rewrite (bind_Ret _ _ _ _ _ Hobs), bind_get_heap.
      assert (Hst : ObservableList.storage_of (heap w1) this
                    = ObservableList.storage_of (heap w) this)
        by (unfold ObservableList.storage_of; rewrite Hlist; reflexivity).
      rewrite Hst.
      replace (len =? Z.of_nat (List.length (ObservableList.storage_of (heap w) this)))
        with true by (symmetry; apply Z.eqb_eq; reflexivity).
      unfold bind at 1, ObservableList.put_storage. rewrite bind_get_heap.
      unfold put_heap. fold inserted. rewrite (bind_Ret _ _ _ _ _ Hrun). reflexivity.
Qed.

Lemma C9_push_is_add_witness :
  ObservableList.push nobody 5 0 (VNum 4) IndexUndefined strings_only = Ret false strings_only
  /\ (exists w', ObservableList.push nobody 5 0 (VStr "d") IndexUndefined strings_only
                 = Ret true w')
  /\ exists w',
       ObservableList.push nobody 5 0 (VObservable 0) IndexUndefined shifted_list = Ret true w'
       /\ Obj.m_observers (the_object (heap w') 0)
          = Obj.m_observers (the_object (heap shifted_list) 0)
            ++ [mkHandle (next_handle (heap shifted_list))
                  (itemChangeCallback 0 (VObservable 0) 2) (VList 0) (VObservable 0)].
Proof.
  split; [| split].
  - destruct (C9_push_is_add nobody 5 0 (VNum 4) strings_only) as (_ & Hno & _).
    apply (Hno is_string); reflexivity.
  - destruct (C9_push_is_add nobody 5 0 (VStr "d") strings_only) as (_ & _ & Hpush).
    destruct Hpush as (w1 & w' & _ & _ & _ & _ & _ & _ & _ & Hret).
    + exact nobody_quiet.
    + vm_compute. lia.
    + vm_compute. lia.
    + intros validator Hv. injection Hv as <-. reflexivity.
    + exists w'. exact Hret.
  - destruct (C9_push_is_add nobody 5 0 (VObservable 0) shifted_list) as (_ & _ & Hpush).
    destruct Hpush as (w1 & w' & _ & Hsub & _ & _ & _ & _ & _ & Hret).
    + exact nobody_quiet.
    + vm_compute. lia.
    + vm_compute. lia.
    + intros validator Hv. discriminate Hv.
    + exists w'. split; [exact Hret |].
      apply (Hsub 0%nat (the_object (heap shifted_list) 0)); reflexivity.
Defined.

(** C1, where the code departs from the claim.  The object is added at index
    0 and "z" is then inserted in front of it, so it stands at index 1; a
    change of its property [x] is forwarded to the list's observer once, with
    the index 0 its subscription captured when it was added. *)
Lemma C1_forwarded_index_is_stale :
  ObservableList.toArray (heap shifted_list) 0 = [VStr "z"; VObservable 0]
  /\ ObservableList.indexOf (heap shifted_list) 0 (VObservable 0) None = 1
  /\ exists w',
       Observable.assign nobody 5 0 "x" (VNum 2) shifted_list = Ret tt w'
       /\ map (fun c => (name c.2, listItem c.2, index c.2))
            (list_observer_calls 0 (drop (List.length (calls shifted_list)) (calls w')))
          = [("x", Some (VObservable 0), Some 0)].
Proof.
  split; [reflexivity |]. split; [reflexivity |].
  exists (world_after (Observable.assign nobody 5 0 "x" (VNum 2) shifted_list)).
  split; vm_compute; reflexivity.
Qed.

(** C2, where the code departs from the claim.  On ["a", "b", "c"],
    splice(0, 1) removes "a" alone and returns all three items: the returned
    array holds every item from the start index to the end of the list. *)
Lemma C2_splice_returns_the_tail :
  ObservableList.toArray (heap abc_list) 0 = [VStr "a"; VStr "b"; VStr "c"]
  /\ exists w',
       ObservableList.splice nobody 5 0 0 (Some 1) [] abc_list
       = Ret [VStr "a"; VStr "b"; VStr "c"] w'
       /\ ObservableList.toArray (heap w') 0 = [VStr "b"; VStr "c"].
Proof.
  split; [reflexivity |].
  exists (world_after (ObservableList.splice nobody 5 0 0 (Some 1) [] abc_list)).
  split; vm_compute; reflexivity.
Qed.

(** C6, where the code departs from the claim.  On ["a", "b", "c"],
    add("x", 2.7) parses "2.7" to 2, inserts at index 2 and returns true. *)
Lemma C6_fractional_index_is_truncated :
  parseInt "2.7" = Some 2
  /\ exists w',
       ObservableList.add nobody 5 0 (VStr "x") (IndexText "2.7") abc_list = Ret true w'
       /\ ObservableList.toArray (heap w') 0 = [VStr "a"; VStr "b"; VStr "x"; VStr "c"].
Proof.
  split; [reflexivity |].
  exists (world_after (ObservableList.add nobody 5 0 (VStr "x") (IndexText "2.7") abc_list)).
  split; vm_compute; reflexivity.
Qed.

(** ** The round trip through toJSON *)

Lemma own_None (ps : Props) (n : string) : ~ In n (map fst ps) -> own ps n = None.
Proof.
  induction ps as [| [k q] ps IH]; cbn; [reflexivity |].
  intros Hnot. destruct (String.eqb_spec k n) as [-> | Hne]; [tauto |].
  apply IH. tauto.
Qed.

Lemma own_In (ps : Props) (n : string) (p : Property) :
  NoDup (map fst ps) -> In (n, p) ps -> own ps n = Some p.
Proof.
  induction ps as [| [k q] ps IH]; cbn; [intros _ [] |].
  intros Hnd [Heq | Hin].
  - injection Heq as -> ->. rewrite String.eqb_refl. reflexivity.
  - inversion Hnd as [| ? ? Hk Hnd']; subst.
    destruct (String.eqb_spec k n) as [-> | Hne]; [| auto].
    exfalso. apply Hk. apply list_elem_of_In. apply (in_map fst _ _ Hin).
Qed.

Lemma own_Some_In (ps : Props) (n : string) (p : Property) :
  own ps n = Some p -> In (n, p) ps.
Proof.
  induction ps as [| [k q] ps IH]; cbn; [discriminate |].
  destruct (String.eqb_spec k n) as [-> | Hne]; [| auto].
  intros H. injection H as ->. left. reflexivity.
Qed.

Lemma primitive_typeof (v : Value) :
  is_primitive v = true ->
  String.eqb (typeof v) "object" = false
  /\ (String.eqb (typeof v) "string" || String.eqb (typeof v) "boolean"
      || String.eqb (typeof v) "number") = true.
Proof. destruct v; cbn; intros H; try discriminate; split; reflexivity. Qed.

(** toJSON writes one descriptor for each enumerable own property. *)
Lemma toJSON_loop_descriptors (x : Obj.t) (l : Props) :
  NoDup (map fst (Obj.props x)) ->
  (forall n p, In (n, p) l ->
     In (n, p) (Obj.props x) /\ is_primitive (slot_get (slot p)) = true
     /\ n <> "m_toString" /\ n <> "m_observers") ->
  Observable.toJSON_loop x (map fst l) = Some (map descriptor l).
Proof.
  intros Hnd. induction l as [| [n p] l IH]; intros Hl; [reflexivity |].
  destruct (Hl n p (or_introl eq_refl)) as (Hin & Hprim & Hts & Hobs).
  cbn [map fst Observable.toJSON_loop].
  rewrite (proj2 (String.eqb_neq _ _) Hobs), (proj2 (String.eqb_neq _ _) Hts).
  cbn [orb]. rewrite (own_In _ _ _ Hnd Hin).
  unfold Observable.describe, Observable.get. rewrite (own_In _ _ _ Hnd Hin).
  destruct (primitive_typeof _ Hprim) as [Hobj _]. rewrite Hobj.
  cbn [mbind option_bind]. rewrite IH by (intros; apply Hl; right; assumption).
  reflexivity.
Qed.

Lemma the_object_new (w : World) (ps : Props) :
  the_object (heap (with_new_object w ps)) (List.length (observables (heap w)))
  = Obj.mk ps [] true.
Proof.
  unfold the_object, with_new_object. cbn [heap observables].
  rewrite lookup_app_r by lia. rewrite Nat.sub_diag. reflexivity.
Qed.

Lemma set_object_new (w : World) (ps ps' : Props) :
  set_object (List.length (observables (heap w))) (Obj.mk ps' [] true)
    (heap (with_new_object w ps))
  = heap (with_new_object w ps').
Proof.
  unfold set_object, with_new_object. cbn [heap observables lists next_handle].
  rewrite insert_app_r_alt by lia. rewrite Nat.sub_diag. reflexivity.
Qed.

Lemma notifyAll_no_observers (E : Env) (gas this : nat) (cd : Details) (w : World) :
  (0 < gas)%nat -> Obj.m_observers (the_object (heap w) this) = [] ->
  notifyAll E gas this cd w = Ret tt w.
Proof.
  intros Hgas Hobs. destruct gas as [| gas]; [lia |].
  unfold notifyAll. cbn [notifyAll_loop]. rewrite Hobs. reflexivity.
Qed.

(** Adding a property to an object under construction. *)
Lemma addProperty_new (E : Env) (gas : nat) (w : World) (ps : Props) (n : string)
    (v : Value) (c wr e : bool) :
  (0 < gas)%nat -> n <> Observable.reserved_name -> inherited n = false ->
  own ps n = None ->
  Observable.addProperty E gas (List.length (observables (heap w))) (NameStr n) v (Some c)
    (Some wr) (Some e) (with_new_object w ps)
  = Ret true
      (with_new_object w
         (ps ++ [(n, mkProperty (if wr then PlainSlot v else DataSlot v false) e c)])).
Proof.
  intros Hgas Hres Hinh Hown. unfold Observable.addProperty.
  rewrite (proj2 (String.eqb_neq _ _) Hres), bind_get_heap, the_object_new.
  unfold Observable.get. cbn [Obj.props]. rewrite Hown, Hinh. cbn [strict_eq negb default].
  set (p := match Some wr with
            | Some false => mkProperty (DataSlot v false) e c
            | _ => mkProperty (PlainSlot v) e c
            end).
  assert (Hp : p = mkProperty (if wr then PlainSlot v else DataSlot v false) e c)
    by (subst p; destruct wr; reflexivity).
  rewrite (bind_Ret _ _ _ _ _
             (define_ok _ n p (Obj.mk (ps ++ [(n, p)]) [] true) _
                ltac:(rewrite the_object_new; unfold Observable.defineProperty;
                      cbn [Obj.props Obj.extensible]; rewrite Hown; reflexivity))).
  rewrite set_object_new.
  change (mkWorld (heap (with_new_object w (ps ++ [(n, p)])))
            (calls (with_new_object w ps)))
    with (with_new_object w (ps ++ [(n, p)])).
  rewrite (bind_Ret _ _ _ _ _
             (notifyAll_no_observers E gas _ _ _ Hgas
                ltac:(rewrite the_object_new; reflexivity))).
  rewrite Hp. reflexivity.
Qed.

Lemma addDeserializedProperty_new (E : Env) (gas : nat) (w : World) (ps : Props)
    (np : string * Property) :
  (0 < gas)%nat -> np.1 <> Observable.reserved_name -> inherited np.1 = false ->
  own ps np.1 = None -> is_primitive (slot_get (slot np.2)) = true ->
  Observable.addDeserializedProperty E gas (List.length (observables (heap w)))
    (descriptor np) (with_new_object w ps)
  = Ret true (with_new_object w (ps ++ [revived np])).
Proof.
  intros Hgas Hres Hinh Hown Hprim. unfold Observable.addDeserializedProperty.
  cbn [descriptor pd_varType pd_name pd_value pd_configurable pd_writable pd_enumerable].
  destruct (primitive_typeof _ Hprim) as [_ Htag]. rewrite Htag.
  apply addProperty_new; assumption.
Qed.

(** The loop of the constructor over the descriptors toJSON wrote. *)
Lemma revive_all (E : Env) (gas : nat) (w : World) (l : Props) :
  (0 < gas)%nat ->
  forall ps : Props,
    NoDup (map fst (ps ++ l)) ->
    (forall n p, In (n, p) l ->
       n <> Observable.reserved_name /\ inherited n = false
       /\ is_primitive (slot_get (slot p)) = true) ->
    for_each
      (fun desc =>
         match pd_varType desc with
         | None => ret tt
         | Some _ =>
             Observable.addDeserializedProperty E gas (List.length (observables (heap w)))
               desc ;;; ret tt
         end) (map descriptor l) (with_new_object w ps)
    = Ret tt (with_new_object w (ps ++ map revived l)).
Proof.
  intros Hgas. induction l as [| [n p] l IH]; intros ps Hnd Hl.
  - cbn. rewrite app_nil_r. reflexivity.
  - destruct (Hl n p (or_introl eq_refl)) as (Hres & Hinh & Hprim).
    cbn [map for_each]. cbn [descriptor pd_varType].
    fold (descriptor (n, p)).
    assert (Hown : own ps n = None).
    { apply own_None. intros Hin. rewrite map_app in Hnd. cbn in Hnd.
      apply list.NoDup_app in Hnd. destruct Hnd as (_ & Hdis & _).
      apply (Hdis n); [apply list_elem_of_In; exact Hin | left]. }
    assert (Hstep : (Observable.addDeserializedProperty E gas
                       (List.length (observables (heap w))) (descriptor (n, p)) ;;; ret tt)
                      (with_new_object w ps)
                    = Ret tt (with_new_object w (ps ++ [revived (n, p)]))).
    { rewrite (bind_Ret _ _ _ _ _
                 (addDeserializedProperty_new E gas w ps (n, p) Hgas Hres Hinh Hown Hprim)).
      reflexivity. }
    rewrite (bind_Ret _ _ _ _ _ Hstep).
    rewrite (IH (ps ++ [revived (n, p)])).
    + rewrite <- app_assoc. reflexivity.
    + rewrite <- app_assoc, !map_app in *. cbn in *. exact Hnd.
    + intros; apply Hl; right; assumption.
Qed.

Lemma define_value_new (w : World) (ps : Props) (n : string) (v : Value) :
  own ps n = None ->
  Observable.define_value (List.length (observables (heap w))) n v (with_new_object w ps)
  = Ret tt (with_new_object w (ps ++ [(n, mkProperty (DataSlot v false) false false)])).
Proof.
  intros Hown. unfold Observable.define_value.
  rewrite bind_get_heap, the_object_new. unfold Observable.defineProperty_value.
  cbn [Obj.props Obj.extensible]. rewrite Hown.
  unfold put_heap, set_props. cbn [Obj.m_observers Obj.extensible].
  rewrite set_object_new. reflexivity.
Qed.

Lemma own_app (ps qs : Props) (n : string) :
  own (ps ++ qs) n = match own ps n with Some p => Some p | None => own qs n end.
Proof.
  induction ps as [| [k q] ps IH]; cbn; [reflexivity |].
  destruct (String.eqb k n); [reflexivity | exact IH].
Qed.

Lemma names_revived (l : Props) : map fst (map revived l) = map fst l.
Proof. rewrite map_map. apply map_ext. intros [k q]. reflexivity. Qed.

Lemma names_of_enumerable (ps : Props) (n : string) :
  In n (map fst (map revived (List.filter (fun np => enumerable np.2) ps))) ->
  In n (map fst ps).
Proof.
  rewrite map_map. intros Hin. apply in_map_iff in Hin.
  destruct Hin as ([k q] & Hk & Hin). apply filter_In in Hin. destruct Hin as [Hin _].
  cbn in Hk. subst k. apply (in_map fst _ _ Hin).
Qed.

Lemma own_revived (ps : Props) (n : string) :
  NoDup (map fst ps) ->
  own (map revived (List.filter (fun np => enumerable np.2) ps)) n
  = match own ps n with
    | Some p => if enumerable p then Some (revived (n, p)).2 else None
    | None => None
    end.
Proof.
  induction ps as [| [k q] ps IH]; intros Hnd; [reflexivity |].
  inversion Hnd as [| ? ? Hk Hnd']; subst.
  cbn [List.filter snd own]. destruct (enumerable q) eqn:He.
  - cbn [map revived fst snd own]. destruct (String.eqb_spec k n) as [-> | Hne].
    + rewrite He. reflexivity.
    + apply IH. exact Hnd'.
  - destruct (String.eqb_spec k n) as [-> | Hne].
    + rewrite He. apply own_None. intros Hin. apply names_of_enumerable in Hin.
      apply Hk. apply list_elem_of_In. exact Hin.
    + apply IH. exact Hnd'.
Qed.

Lemma NoDup_enumerable_names (ps : Props) :
  NoDup (map fst ps) -> NoDup (map fst (List.filter (fun np => enumerable np.2) ps)).
Proof.
  induction ps as [| [k q] ps IH]; intros Hnd; [exact Hnd |].
  inversion Hnd as [| ? ? Hk Hnd']; subst.
  cbn [List.filter snd]. destruct (enumerable q); [| auto].
  cbn [map fst]. apply base.NoDup_cons_2; [| auto].
  intros Hin. apply Hk. apply list_elem_of_In. apply list_elem_of_In in Hin.
  apply in_map_iff in Hin. destruct Hin as ([k' q'] & Hk' & Hin).
  apply filter_In in Hin. destruct Hin as [Hin _]. cbn in Hk'. subst k'.
  apply (in_map fst _ _ Hin).
Qed.

Lemma facts_revived (n : string) (p : Property) :
  installed_by_add (slot p) = true -> facts (revived (n, p)).2 = facts p.
Proof.
  unfold facts, revived. cbn [fst snd slot enumerable configurable].
  destruct (slot p) as [v [|] | v | v | v f | v u f]; cbn; intros H;
    try discriminate H; reflexivity.
Qed.

(** C7, as amended.  For an object set up for the serialization with
    descriptors whose enumerable own properties hold primitive values, were
    added by addProperty, addROProperty or addPropertyWithSetFilter and are
    not named "m_toString", toJSON followed by the constructor on the
    descriptors it wrote yields an object with the same enumerable property
    names, each with the same value and the same enumerable, writable and
    removable flags. *)
Theorem C7_round_trip_of_added_properties
    (E : Env) (gas : nat) (x : Obj.t) (simpleSerialize : Value) (w : World) :
  (0 < gas)%nat -> serializable x ->
  exists arr this w',
    Observable.toJSON x = Some (ETO_Observable_SerializedData arr)
    /\ Observable.ETO_Observable E gas (SerializedData arr) simpleSerialize w = Ret this w'
    /\ forall n, enumerable_facts (the_object (heap w') this) n = enumerable_facts x n.
Proof.
  intros Hgas [Hnd Hsimple Hok].
  set (l := List.filter (fun np => enumerable np.2) (Obj.props x)).
  assert (Hl : forall n p, In (n, p) l -> In (n, p) (Obj.props x) /\ enumerable p = true).
  { intros n p Hin. apply filter_In in Hin. exact Hin. }
  set (m_observers := ("m_observers", mkProperty (DataSlot (VObject "Array" 0) false) false false)).
  set (ss := if strict_eq simpleSerialize VUndefined then VBool true else simpleSerialize).
  set (m_simpleSerialize := ("m_simpleSerialize", mkProperty (DataSlot ss false) false false)).
  set (ps := (m_observers :: map revived l) ++ [m_simpleSerialize]).
  exists (map descriptor l), (List.length (observables (heap w))), (with_new_object w ps).
  split; [| split].
  - unfold Observable.toJSON. rewrite Hsimple. unfold Observable.for_in. fold l.
    rewrite (toJSON_loop_descriptors x l Hnd); [reflexivity |].
    intros n p Hin. destruct (Hl n p Hin) as [Hin' He].
    destruct (Hok n p Hin' He) as (Hprim & Hts & Hobs & _). auto.
  - unfold Observable.ETO_Observable. rewrite bind_get_heap.
    unfold bind at 1, put_heap.
    change (mkWorld (mkHeap (observables (heap w) ++ [Obj.mk [] [] true]) (lists (heap w))
                       (next_handle (heap w))) (calls w))
      with (with_new_object w []).
    rewrite (bind_Ret _ _ _ _ _ (define_value_new w [] "m_observers" _ eq_refl)).
    cbn [app]. fold m_observers.
    assert (Hnames : NoDup (map fst ([m_observers] ++ l))).
    { cbn [app map fst]. apply base.NoDup_cons_2; [| apply NoDup_enumerable_names; exact Hnd].
      intros Hin. apply list_elem_of_In, in_map_iff in Hin.
      destruct Hin as ([k q] & Hk & Hin). cbn in Hk. subst k.
      destruct (Hl _ _ Hin) as [Hin' He]. destruct (Hok _ _ Hin' He) as (_ & _ & Hobs & _).
      apply Hobs. reflexivity. }
    rewrite (bind_Ret _ _ _ _ _
               (revive_all E gas w l Hgas [m_observers] Hnames
                  ltac:(intros n p Hin; destruct (Hl n p Hin) as [Hin' He];
                        destruct (Hok n p Hin' He) as (? & _ & _ & _ & ? & ? & _); auto))).
    fold ss.
    assert (Hfree : own ([m_observers] ++ map revived l) "m_simpleSerialize" = None).
    { apply own_None. cbn [app map fst]. intros [Hin | Hin]; [discriminate |].
      rewrite names_revived in Hin. apply in_map_iff in Hin.
      destruct Hin as ([k q] & Hk & Hin). cbn in Hk. subst k.
      destruct (Hl _ _ Hin) as [Hin' He].
      destruct (Hok _ _ Hin' He) as (_ & _ & _ & Hss & _). apply Hss. reflexivity. }
    rewrite (bind_Ret _ _ _ _ _
               (define_value_new w ([m_observers] ++ map revived l) "m_simpleSerialize" ss
                  Hfree)).
    reflexivity.
  - intros n. rewrite the_object_new. unfold enumerable_facts. cbn [Obj.props].
    subst ps m_observers m_simpleSerialize. rewrite own_app. cbn [own].
    destruct (String.eqb_spec "m_observers" n) as [<- | Hno].
    + cbn [enumerable].
      destruct (own (Obj.props x) "m_observers") as [p |] eqn:Hown; [| reflexivity].
      destruct (enumerable p) eqn:He; [| reflexivity].
      destruct (Hok _ _ (own_Some_In _ _ _ Hown) He) as (_ & _ & Hobs & _).
      exfalso. apply Hobs. reflexivity.
    + subst l. rewrite (own_revived _ n Hnd).
      assert (Hlast : match (if String.eqb "m_simpleSerialize" n
                             then Some (mkProperty (DataSlot ss false) false false)
                             else None) with
                      | Some p => if enumerable p then Some (facts p) else None
                      | None => None
                      end = None)
        by (destruct (String.eqb "m_simpleSerialize" n); reflexivity).
      destruct (own (Obj.props x) n) as [p |] eqn:Hown; [| exact Hlast].
      destruct (enumerable p) eqn:He; [| exact Hlast].
      destruct (Hok _ _ (own_Some_In _ _ _ Hown) He) as (_ & _ & _ & _ & _ & _ & Hpriv).
      rewrite (facts_revived n p Hpriv).
      change (enumerable (revived (n, p)).2) with (enumerable p). rewrite He. reflexivity.
Qed.

Lemma serial_world_serializable : serializable (the_object (heap serial_world) 0).
Proof.
  split.
  - vm_compute.
    repeat (apply base.NoDup_cons_2;
            [rewrite list_elem_of_In; cbn; intuition discriminate |]).
    apply base.NoDup_nil_2.
  - reflexivity.
  - intros n p Hin. vm_compute in Hin.
    repeat (destruct Hin as [Hin | Hin];
            [injection Hin as <- <-; intros He; try discriminate He;
             repeat split; try discriminate; reflexivity |]).
    destruct Hin.
Qed.

Lemma C7_round_trip_of_added_properties_witness :
  exists arr this w',
    Observable.toJSON (the_object (heap serial_world) 0)
    = Some (ETO_Observable_SerializedData arr)
    /\ Observable.ETO_Observable nobody 5 (SerializedData arr) (VBool false) serial_world
       = Ret this w'
    /\ forall n, enumerable_facts (the_object (heap w') this) n
                 = enumerable_facts (the_object (heap serial_world) 0) n.
Proof.
  apply (C7_round_trip_of_added_properties nobody 5 (the_object (heap serial_world) 0)
           (VBool false) serial_world);
    [lia | exact serial_world_serializable].
Defined.

(** C7, the claim as stated fails.  The object holds the single enumerable
    property [m_toString], a string; toJSON leaves that name out, so the
    descriptor list is empty and the object built from it has no such
    property. *)
Lemma C7_m_toString_counterexample :
  map (fun np => (np.1, is_primitive (slot_get (slot np.2))))
    (List.filter (fun np => enumerable np.2) (Obj.props (the_object (heap m_toString_world) 0)))
  = [("m_toString", true)]
  /\ enumerable_facts (the_object (heap m_toString_world) 0) "m_toString"
     = Some (VStr "x", true, true, true)
  /\ Observable.toJSON (the_object (heap m_toString_world) 0)
     = Some (ETO_Observable_SerializedData [])
  /\ exists w',
       Observable.ETO_Observable nobody 5 (SerializedData []) (VBool false) m_toString_world
       = Ret 1%nat w'
       /\ enumerable_facts (the_object (heap w') 1) "m_toString" = None
       /\ Observable.get (the_object (heap w') 1) "m_toString" = VUndefined.
Proof.
  split; [reflexivity |]. split; [reflexivity |]. split; [reflexivity |].
  exists (world_after (Observable.ETO_Observable nobody 5 (SerializedData []) (VBool false)
                         m_toString_world)).
  repeat split; vm_compute; reflexivity.
Qed.

(** ** Further facts about lists and observers *)

Lemma bind_Ret_inv {A B} (m : M A) (k : A -> M B) (w w' : World) (b : B) :
  bind m k w = Ret b w' -> exists a w1, m w = Ret a w1 /\ k a w1 = Ret b w'.
Proof.
  unfold bind. destruct (m w) as [a w1 | |]; [| discriminate | discriminate].
  intros H. exists a, w1. split; [reflexivity | exact H].
Qed.

(** remove does nothing and returns 0 when the start index is outside
    [0, length) or the count is not positive. *)
Theorem remove_out_of_range
    (E : Env) (gas this : nat) (startIndex : Z) (count : option Z) (w : World) :
  startIndex < 0 \/ ObservableList.length (heap w) this <= startIndex
  \/ default 1 count <= 0 ->
  ObservableList.remove E gas this startIndex count w = Ret 0 w.
Proof.
  intros H. unfold ObservableList.remove. rewrite bind_get_heap.
  destruct (startIndex <? 0) eqn:H1; [reflexivity |].
  destruct (startIndex >=? ObservableList.length (heap w) this) eqn:H2; [reflexivity |].
  cbn [orb]. destruct (default 1 count <=? 0) eqn:H3; [reflexivity |].
  apply Z.ltb_ge in H1. rewrite Z.geb_leb in H2. apply Z.leb_gt in H2.
  apply Z.leb_gt in H3. lia.
Qed.

Lemma remove_out_of_range_witness :
  ObservableList.remove nobody 5 0 3 (Some 2) abc_list = Ret 0 abc_list.
Proof.
  apply (remove_out_of_range nobody 5 0 3 (Some 2) abc_list).
  right. left. vm_compute. discriminate.
Defined.

(** Whatever deleteCount and the items to insert are, a splice that returns
    returns the items that stood from the start index to the end of the list. *)
Theorem splice_returns_from_start
    (E : Env) (gas this : nat) (startIndex : Z) (deleteCount : option Z)
    (items removedItems : list Value) (w w' : World) :
  ObservableList.splice E gas this startIndex deleteCount items w = Ret removedItems w' ->
  removedItems
  = map fst (drop (Z.to_nat (ObservableList.splice_start
                               (ObservableList.length (heap w) this) startIndex))
               (ObservableList.storage_of (heap w) this)).
Proof.
  unfold ObservableList.splice. rewrite bind_get_heap. cbv zeta. intros H.
  apply bind_Ret_inv in H. destruct H as (? & w1 & _ & H).
  apply bind_Ret_inv in H. destruct H as (? & w2 & _ & H).
  injection H as <- _. reflexivity.
Qed.

Lemma splice_returns_from_start_witness :
  [VStr "b"; VStr "c"]
  = map fst (drop (Z.to_nat (ObservableList.splice_start
                               (ObservableList.length (heap abc_list) 0) 1))
               (ObservableList.storage_of (heap abc_list) 0)).
Proof.
  apply (splice_returns_from_start nobody 5 0 1 (Some 0) [] [VStr "b"; VStr "c"] abc_list
           abc_list).
  vm_compute. reflexivity.
Defined.

(** add turns an index down, returning false and changing nothing, when its
    text, read past leading white space and line terminators, does not start
    with an integer or the integer is outside [0, length]. *)
Theorem add_rejects_index
    (E : Env) (gas this : nat) (item : Value) (s : string) (w : World) :
  match parseInt s with
  | None => True
  | Some i => i < 0 \/ ObservableList.length (heap w) this < i
  end ->
  ObservableList.add E gas this item (IndexText s) w = Ret false w.
Proof.
  intros H. unfold ObservableList.add. rewrite bind_get_heap.
  destruct (parseInt s) as [i |]; [| reflexivity].
  destruct (i <? 0) eqn:H1; [reflexivity |].
  destruct (i >? ObservableList.length (heap w) this) eqn:H2; [reflexivity |].
  apply Z.ltb_ge in H1. rewrite Z.gtb_ltb in H2. apply Z.ltb_ge in H2. lia.
Qed.

Lemma add_rejects_index_witness :
  ObservableList.add nobody 5 0 (VStr "x") (IndexText "4") abc_list = Ret false abc_list
  /\ ObservableList.add nobody 5 0 (VStr "x") (IndexText "two") abc_list = Ret false abc_list.
Proof.
  split.
  - apply (add_rejects_index nobody 5 0 (VStr "x") "4" abc_list). vm_compute. right. reflexivity.
  - apply (add_rejects_index nobody 5 0 (VStr "x") "two" abc_list). exact I.
Defined.

(** parseInt reads past each white space character and line terminator,
    whatever the number of its bytes. *)
Lemma skip_whitespace_WhiteSpace (ws s : string) :
  In ws WhiteSpace -> skip_whitespace (ws ++ s) = skip_whitespace s.
Proof.
  unfold WhiteSpace. cbn [map In].
  intros H. repeat (destruct H as [<- | H]; [reflexivity |]). destruct H.
Qed.

Lemma parseInt_skips_white_space (ws s : string) :
  In ws WhiteSpace -> parseInt (ws ++ s) = parseInt s.
Proof.
  intros H. unfold parseInt. rewrite (skip_whitespace_WhiteSpace ws s H). reflexivity.
Qed.

(** Nothing is skipped in front of a digit, a sign or a letter. *)
Lemma skip_whitespace_plain (c : ascii) (s : string) :
  (33 <= nat_of_ascii c < 127)%nat -> skip_whitespace (String c s) = String c s.
Proof.
  intros H. cbn [skip_whitespace].
  unfold is_whitespace, is_whitespace_lead. cbv zeta.
  repeat match goal with
         | |- context [(nat_of_ascii c =? ?k)%nat] =>
             destruct (Nat.eqb_spec (nat_of_ascii c) k); [lia |]
         end.
  reflexivity.
Qed.

(** An index that starts with a no-break space is read as the integer that
    follows: add inserts at 1. *)
Lemma add_reads_past_white_space :
  exists w',
    ObservableList.add nobody 5 0 (VStr "x")
      (IndexText (String (ascii_of_nat 194) (String (ascii_of_nat 160) "1"))) abc_list
    = Ret true w'
    /\ ObservableList.toArray (heap w') 0 = [VStr "a"; VStr "x"; VStr "b"; VStr "c"].
Proof.
  exists (world_after
            (ObservableList.add nobody 5 0 (VStr "x")
               (IndexText (String (ascii_of_nat 194) (String (ascii_of_nat 160) "1")))
               abc_list)).
  split; vm_compute; reflexivity.
Qed.

(** Assigning to an index the very item it holds changes nothing: the
    subscription stays and no observer is called. *)
Theorem set_index_same_item
    (E : Env) (gas this index : nat) (newItem : Value)
    (item : Value * option ObserverHandle) (w : World) :
  ObservableList.storage_of (heap w) this !! index = Some item ->
  strict_eq item.1 newItem = true ->
  ObservableList.set_index E gas this index newItem w = Ret tt w.
Proof.
  intros Hitem Heq. unfold ObservableList.set_index.
  rewrite bind_get_heap, Hitem, Heq. reflexivity.
Qed.

Lemma set_index_same_item_witness :
  ObservableList.set_index nobody 5 0 1 (VObservable 0) shifted_list = Ret tt shifted_list.
Proof.
  eapply (set_index_same_item nobody 5 0 1 (VObservable 0) _ shifted_list).
  - vm_compute. reflexivity.
  - reflexivity.
Defined.

Lemma find_handle_ge (obs : list ObserverHandle) (id i j : nat) :
  Observable.find_handle obs id i = Some j -> (i <= j)%nat.
Proof.
  revert i. induction obs as [| o obs IH]; intros i; cbn; [discriminate |].
  destruct (Nat.eqb (hid o) id); [intros H; injection H as <-; lia |].
  intros H. apply IH in H. lia.
Qed.

Lemma find_handle_None (obs : list ObserverHandle) (id i : nat) :
  ~ In id (map hid obs) -> Observable.find_handle obs id i = None.
Proof.
  revert i. induction obs as [| o obs IH]; intros i Hnot; cbn; [reflexivity |].
  destruct (Nat.eqb_spec (hid o) id) as [Heq | Hne]; [exfalso; apply Hnot; left; exact Heq |].
  apply IH. intros Hin. apply Hnot. right. exact Hin.
Qed.

Lemma find_handle_deleted (obs : list ObserverHandle) (id i j : nat) :
  NoDup (map hid obs) ->
  Observable.find_handle obs id i = Some j ->
  ~ In id (map hid (delete (j - i)%nat obs)).
Proof.
  revert i. induction obs as [| o obs IH]; intros i Hnd; cbn [Observable.find_handle];
    [discriminate |].
  inversion Hnd as [| ? ? Ho Hnd']; subst.
  destruct (Nat.eqb_spec (hid o) id) as [Heq | Hne].
  - intros H. injection H as <-. rewrite Nat.sub_diag. cbn. subst id.
    intros Hin. apply Ho. apply list_elem_of_In. exact Hin.
  - intros H. pose proof (find_handle_ge _ _ _ _ H) as Hge.
    replace (j - i)%nat with (S (j - S i))%nat by lia. cbn.
    intros [Heq | Hin]; [contradiction |]. exact (IH (S i) Hnd' H Hin).
Qed.

(** Where every handle is registered once, as addChangeObserver leaves them,
    removing an observer a second time finds nothing and returns false. *)
Theorem removeChangeObserver_twice
    (this : nat) (observerHandle : ObserverHandle) (w w1 : World) (found : bool) :
  NoDup (map hid (Obj.m_observers (the_object (heap w) this))) ->
  Observable.removeChangeObserver this observerHandle w = Ret found w1 ->
  Observable.removeChangeObserver this observerHandle w1 = Ret false w1.
Proof.
  intros Hnd. unfold Observable.removeChangeObserver. rewrite !bind_get_heap.
  destruct (Observable.find_handle (Obj.m_observers (the_object (heap w) this))
              (hid observerHandle) 0) as [i |] eqn:Hfind.
  - intros H. injection H as _ <-. cbn [heap].
    assert (Hthis : (this < List.length (observables (heap w)))%nat).
    { unfold the_object in Hfind.
      destruct (observables (heap w) !! this) as [x |] eqn:Hx;
        [eapply lookup_lt_Some; exact Hx | discriminate Hfind]. }
    unfold the_object at 1, set_object. cbn [observables].
    rewrite list_lookup_insert_eq by exact Hthis. cbn [default from_option id set_observers
                                                     Obj.m_observers].
    rewrite find_handle_None; [reflexivity |].
    pose proof (find_handle_deleted _ _ _ _ Hnd Hfind) as Hdel.
    rewrite Nat.sub_0_r in Hdel. exact Hdel.
  - intros H. injection H as _ <-. rewrite Hfind. reflexivity.
Qed.

Lemma removeChangeObserver_twice_witness :
  Observable.removeChangeObserver 0 (mkHandle 0 (userCallback 0) VUndefined (VObservable 0))
    (world_after
       (Observable.removeChangeObserver 0
          (mkHandle 0 (userCallback 0) VUndefined (VObservable 0)) two_observers))
  = Ret false
      (world_after
         (Observable.removeChangeObserver 0
            (mkHandle 0 (userCallback 0) VUndefined (VObservable 0)) two_observers)).
Proof.
  apply (removeChangeObserver_twice 0 (mkHandle 0 (userCallback 0) VUndefined (VObservable 0))
           two_observers _ true).
  - vm_compute.
    repeat (apply base.NoDup_cons_2; [rewrite list_elem_of_In; cbn; lia |]).
    apply base.NoDup_nil_2.
  - reflexivity.
Defined.

(** toJSON reports a property installed by addPropertyWithPrivateSet as
    writable, since its accessor descriptor has a set member; the object built
    from the descriptors then takes an ordinary assignment to that property,
    which the original ignores. *)
Lemma private_setter_comes_back_writable :
  Observable.toJSON (the_object (heap private_world) 0)
  = Some (ETO_Observable_SerializedData
            [mkPropDesc "total" (VNum 7) true true false (Some "number")])
  /\ (exists w',
        Observable.assign nobody 5 0 "total" (VNum 8) private_world = Ret tt w'
        /\ Observable.get (the_object (heap w') 0) "total" = VNum 7)
  /\ exists w1 w',
       Observable.ETO_Observable nobody 5
         (SerializedData [mkPropDesc "total" (VNum 7) true true false (Some "number")])
         (VBool false) private_world = Ret 1%nat w1
       /\ Observable.assign nobody 5 1 "total" (VNum 8) w1 = Ret tt w'
       /\ Observable.get (the_object (heap w') 1) "total" = VNum 8.
Proof.
  split; [reflexivity |]. split.
  - exists private_world. split; reflexivity.
  - exists (world_after
              (Observable.ETO_Observable nobody 5
                 (SerializedData [mkPropDesc "total" (VNum 7) true true false (Some "number")])
                 (VBool false) private_world)).
    eexists. split; [vm_compute; reflexivity |]. split; vm_compute; reflexivity.
Qed.

(** ** Further facts about commands, undo and redo *)

Section UndoRedoMore.
Import UndoRedo.
Context {Target Custom : Type}.
Variable custom_exec : Custom -> Target -> Exec Target Custom.

Lemma composite_loop (cs acc : list (Cmd Custom)) (tg : Target) :
  (fix loop (cmdArr : list (Cmd Custom)) (inverseArr : list (Cmd Custom)) (t : Target)
       : Exec Target Custom :=
     match cmdArr with
     | [] => Returned (ETO_InvertibleCmds inverseArr) t
     | c :: rest =>
         match exec custom_exec c t with
         | Returned inverse t' => loop rest (inverse :: inverseArr) t'
         | Raised t' => Raised t'
         end
     end) cs acc tg
  = match exec_each custom_exec cs tg with
    | inl (inverses, tg') => Returned (ETO_InvertibleCmds (rev inverses ++ acc)) tg'
    | inr tg' => Raised tg'
    end.
Proof.
  revert acc tg. induction cs as [| c cs IH]; intros acc tg.
  - reflexivity.
  - cbn [exec_each]. destruct (exec custom_exec c tg) as [inverse tg' | tg']; [| reflexivity].
    rewrite IH. destruct (exec_each custom_exec cs tg') as [[inverses tg''] | tg'']; [| reflexivity].
    cbn [rev]. rewrite <- app_assoc. reflexivity.
Qed.

(** The exec of ETO_InvertibleCmds runs the commands in order and returns
    an ETO_InvertibleCmds of their inverses in the opposite order; an exception
    in one command ends it there, with the commands before it executed. *)
Theorem composite_returns_the_inverses_reversed (cmdArr : list (Cmd Custom)) (tg : Target) :
  exec custom_exec (ETO_InvertibleCmds cmdArr) tg
  = match exec_each custom_exec cmdArr tg with
    | inl (inverses, tg') => Returned (ETO_InvertibleCmds (rev inverses)) tg'
    | inr tg' => Raised tg'
    end.
Proof.
  cbn [exec]. rewrite composite_loop.
  destruct (exec_each custom_exec cmdArr tg) as [[inverses tg'] | tg']; [| reflexivity].
  rewrite app_nil_r. reflexivity.
Qed.
End UndoRedoMore.

Section SetPropertyFacts.
Import UndoRedo.

Lemma read_write_eq (ps : list (string * Value)) (n : string) (v : Value) :
  read (write ps n v) n = v.
Proof.
  induction ps as [| [k u] ps IH]; cbn.
  - rewrite String.eqb_refl. reflexivity.
  - destruct (String.eqb k n) eqn:E; cbn; rewrite E; auto.
Qed.

Lemma read_write_ne (ps : list (string * Value)) (n n' : string) (v : Value) :
  n <> n' -> read (write ps n v) n' = read ps n'.
Proof.
  intros Hne. induction ps as [| [k u] ps IH]; cbn.
  - apply String.eqb_neq in Hne. rewrite Hne. reflexivity.
  - destruct (String.eqb_spec k n) as [-> | Hk]; cbn.
    + apply String.eqb_neq in Hne. rewrite Hne. reflexivity.
    + destruct (String.eqb k n'); auto.
Qed.

Lemma same_reads_refl (tg : BareObjects) : same_reads tg tg.
Proof. split; auto. Qed.

Lemma same_reads_sym (tg tg' : BareObjects) : same_reads tg tg' -> same_reads tg' tg.
Proof. intros [H1 H2]. split; auto. Qed.

Lemma same_reads_trans (a b c : BareObjects) :
  same_reads a b -> same_reads b c -> same_reads a c.
Proof. intros [H1 H2] [H3 H4]. split; [congruence |]. intros o n. rewrite H2. apply H4. Qed.

(** What an assignment leaves to read. *)
Lemma read_after_write (tg : BareObjects) (o o' : nat) (n n' : string) (v : Value) :
  read (default [] (<[o := write (default [] (tg !! o)) n v]> tg !! o')) n'
  = if Nat.eqb o' o && (o <? List.length tg)%nat && String.eqb n' n then v
    else read (default [] (tg !! o')) n'.
Proof.
  unfold BareObjects in *.
  destruct (Nat.eqb_spec o' o) as [-> | Ho]; cbn [andb].
  - destruct (Nat.ltb_spec o (List.length tg)) as [Hlt | Hge]; cbn [andb].
    + rewrite list_lookup_insert_eq by exact Hlt. cbn.
      destruct (String.eqb_spec n' n) as [-> | Hn].
      * apply read_write_eq.
      * apply read_write_ne. auto.
    + rewrite list_insert_ge by lia. reflexivity.
  - rewrite list_lookup_insert_ne by auto. reflexivity.
Qed.

(** The inverse of an assignment, run on a state that reads like the one the
    assignment left, leaves a state that reads like the one before it. *)
Lemma inverse_restores (c : ETO_SetPropertyCmd) (tg tg' : BareObjects) :
  let obj := default [] (tg !! sp_object c) in
  same_reads tg' (<[sp_object c := write obj (sp_propertyName c) (sp_value c)]> tg) ->
  same_reads
    (<[sp_object c := write (default [] (tg' !! sp_object c)) (sp_propertyName c)
                        (read obj (sp_propertyName c))]> tg')
    tg.
Proof.
  cbv zeta. unfold BareObjects in *. intros [Hlen Hread]. rewrite length_insert in Hlen.
  split; [rewrite length_insert; exact Hlen |].
  intros o n. rewrite read_after_write.
  destruct (Nat.eqb_spec o (sp_object c)) as [-> | Ho]; cbn [andb].
  - destruct (String.eqb_spec n (sp_propertyName c)) as [-> | Hn].
    + destruct (Nat.ltb_spec (sp_object c) (List.length tg')) as [Hlt | Hge]; cbn [andb].
      * reflexivity.
      * rewrite Hread, read_after_write, Nat.eqb_refl, String.eqb_refl.
        destruct (Nat.ltb_spec (sp_object c) (List.length tg)); [lia |]. reflexivity.
    + rewrite andb_false_r. rewrite Hread, read_after_write.
      apply String.eqb_neq in Hn. rewrite Hn, andb_false_r. reflexivity.
  - rewrite Hread, read_after_write. apply Nat.eqb_neq in Ho. rewrite Ho. reflexivity.
Qed.

Lemma exec_each_app {Target Custom : Type}
    (custom_exec : Custom -> Target -> Exec Target Custom)
    (l1 l2 : list (Cmd Custom)) (tg : Target) :
  exec_each custom_exec (l1 ++ l2) tg
  = match exec_each custom_exec l1 tg with
    | inl (i1, t1) =>
        match exec_each custom_exec l2 t1 with
        | inl (i2, t2) => inl (i1 ++ i2, t2)
        | inr t2 => inr t2
        end
    | inr t1 => inr t1
    end.
Proof.
  revert tg. induction l1 as [| c l1 IH]; intros tg; cbn [app exec_each].
  - destruct (exec_each custom_exec l2 tg) as [[i2 t2] | t2]; reflexivity.
  - destruct (exec custom_exec c tg) as [inverse t' | t']; [| reflexivity].
    rewrite IH. destruct (exec_each custom_exec l1 t') as [[i1 t1] | t1]; [| reflexivity].
    destruct (exec_each custom_exec l2 t1) as [[i2 t2] | t2]; reflexivity.
Qed.

(** Assignments always return, and the inverses are assignments. *)
Lemma exec_each_assignments (cs : list ETO_SetPropertyCmd) (tg : BareObjects) :
  exists cs' tg1,
    exec_each ETO_SetPropertyCmd_exec (map CustomCmd cs) tg = inl (map CustomCmd cs', tg1).
Proof.
  revert tg. induction cs as [| c cs IH]; intros tg.
  - exists [], tg. reflexivity.
  - cbn [map exec_each exec]. unfold ETO_SetPropertyCmd_exec at 1. cbv zeta.
    destruct (IH (<[sp_object c := write (default [] (tg !! sp_object c))
                      (sp_propertyName c) (sp_value c)]> tg)) as (cs' & tg1 & ->).
    eexists (_ :: cs'), tg1. reflexivity.
Qed.

Lemma inverses_restore (cs cs' : list ETO_SetPropertyCmd) (tg tg1 tg1' : BareObjects) :
  exec_each ETO_SetPropertyCmd_exec (map CustomCmd cs) tg = inl (map CustomCmd cs', tg1) ->
  same_reads tg1' tg1 ->
  exists cs'' tg2,
    exec_each ETO_SetPropertyCmd_exec (map CustomCmd (rev cs')) tg1'
    = inl (map CustomCmd cs'', tg2)
    /\ same_reads tg2 tg.
Proof.
  revert cs' tg tg1 tg1'. induction cs as [| c cs IH]; intros cs' tg tg1 tg1' Hexec Hsame.
  - cbn in Hexec. injection Hexec as Hcs <-. destruct cs'; [| discriminate].
    exists [], tg1'. split; [reflexivity | exact Hsame].
  - cbn [map exec_each exec] in Hexec. unfold ETO_SetPropertyCmd_exec at 1 in Hexec.
    cbv zeta in Hexec.
    set (obj := default [] (tg !! sp_object c)) in *.
    set (tgc := <[sp_object c := write obj (sp_propertyName c) (sp_value c)]> tg) in *.
    destruct (exec_each_assignments cs tgc) as (ci & tgi & Hi). rewrite Hi in Hexec.
    injection Hexec as Hcs <-.
    destruct cs' as [| inv cs']; [discriminate |].
    cbn [map] in Hcs. injection Hcs as Hinv Hcs.
    assert (Hci : ci = cs').
    { clear - Hcs. revert cs' Hcs. induction ci as [| x ci IHc]; intros [| y cs'] H;
        try discriminate; [reflexivity |]. cbn in H. injection H as -> H. f_equal. auto. }
    subst ci.
    destruct (IH cs' tgc tgi tg1' Hi Hsame) as (cs2 & tg2 & Hrev & Hsame2).
    cbn [rev]. rewrite map_app, exec_each_app, Hrev. cbn [map exec_each exec].
    unfold ETO_SetPropertyCmd_exec at 1. cbv zeta.
    eexists (cs2 ++ [_]), _. split; [rewrite map_app; reflexivity |].
    subst inv. cbn [sp_object sp_propertyName sp_value].
    apply inverse_restores. exact Hsame2.
Qed.

(** Running an array of ETO_SetPropertyCmd whose objects have no prototype,
    are extensible and hold writable data properties only, through
    ETO_InvertibleCmds, always returns; running the inverse it returns leaves
    every name reading on every object as before, and running the inverse of
    that one leaves them reading as after the first run. *)
Theorem assignments_are_undone_and_redone (cs : list ETO_SetPropertyCmd) (tg : BareObjects) :
  exists inverse tg1 inverse' tg2 inverse'' tg3,
    exec ETO_SetPropertyCmd_exec (ETO_InvertibleCmds (map CustomCmd cs)) tg
    = Returned inverse tg1
    /\ exec ETO_SetPropertyCmd_exec inverse tg1 = Returned inverse' tg2
    /\ same_reads tg2 tg
    /\ exec ETO_SetPropertyCmd_exec inverse' tg2 = Returned inverse'' tg3
    /\ same_reads tg3 tg1.
Proof.
  destruct (exec_each_assignments cs tg) as (c1 & tg1 & H1).
  destruct (inverses_restore cs c1 tg tg1 tg1 H1 (same_reads_refl _)) as (c2 & tg2 & H2 & S2).
  rewrite <- (rev_involutive c1) in H1 at 1.
  assert (H1' : exec_each ETO_SetPropertyCmd_exec (map CustomCmd cs) tg
                = inl (map CustomCmd c1, tg1)) by (rewrite rev_involutive in H1; exact H1).
  destruct (inverses_restore (rev c1) c2 tg1 tg2 tg2 H2 (same_reads_refl _))
    as (c3 & tg3 & H3 & S3).
  exists (ETO_InvertibleCmds (map CustomCmd (rev c1))), tg1,
         (ETO_InvertibleCmds (map CustomCmd (rev c2))), tg2,
         (ETO_InvertibleCmds (map CustomCmd (rev c3))), tg3.
  cbn [exec]. rewrite !composite_loop, H1', H2, H3, !map_rev, !app_nil_r.
  auto.
Qed.
End SetPropertyFacts.





Section UndoRedoSteps.
Import UndoRedo.
Context {Target Custom : Type}.
Variable custom_exec : Custom -> Target -> Exec Target Custom.









(** When the exec of the top undo entry throws, execUndo has already popped
    the entry: the exception leaves the undo stack one entry shorter, nothing
    pushed on the redo stack, both labels as they were, and no observer told. *)
Theorem failed_undo_is_lost (s : t Custom) (tg tg' : Target) (label : string)
    (cmd : Cmd Custom) :
  list.last (m_undos s) = Some (label, cmd) ->
  exec custom_exec cmd tg = Raised tg' ->
  exists s',
    execUndo custom_exec s tg = Failed s' tg'
    /\ m_undos s' = removelast (m_undos s)
    /\ undoCount s' = undoCount s - 1
    /\ m_redos s' = m_redos s
    /\ undoText s' = undoText s
    /\ redoText s' = redoText s
    /\ notices s' = notices s.
Proof.
  intros Hlast Hexec. unfold execUndo. rewrite Hlast. cbn [snd]. rewrite Hexec.
  eexists. split; [reflexivity |]. cbn. repeat split.
  unfold undoCount. cbn.
  assert (Hne : m_undos s <> []) by (intros E; rewrite E in Hlast; discriminate).
  destruct (exists_last Hne) as (l & x & ->). rewrite removelast_last, length_app. cbn. lia.
Qed.

End UndoRedoSteps.

Section ArrayCommands.
Import UndoRedo.

Lemma settled_start_le (array : list Value) (i : Z) :
  (settled_start array i <= List.length array)%nat.
Proof. unfold settled_start. cbv zeta. destruct (Z.ltb_spec i 0); lia. Qed.

Lemma Array_splice_insert (array : list Value) (i : Z) (item : Value) :
  Array_splice array i 0 [item]
  = take (settled_start array i) array ++ item :: drop (settled_start array i) array.
Proof.
  pose proof (settled_start_le array i) as Hle. revert Hle.
  unfold Array_splice, settled_start. cbv zeta.
  set (len := Z.of_nat (List.length array)).
  set (s := if i <? 0 then Z.max (len + i) 0 else Z.min i len).
  intros Hle.
  assert (0 <= s) by (unfold s; destruct (Z.ltb_spec i 0); lia).
  replace (Z.min (Z.max 0 0) (len - s)) with 0 by lia.
  rewrite Z.add_0_r. reflexivity.
Qed.

Lemma Array_splice_remove (array : list Value) (i : Z) :
  Array_splice array i 1 [] = delete (settled_start array i) array.
Proof.
  pose proof (settled_start_le array i) as Hle. revert Hle.
  rewrite delete_take_drop.
  unfold Array_splice, settled_start. cbv zeta.
  set (len := Z.of_nat (List.length array)).
  set (s := if i <? 0 then Z.max (len + i) 0 else Z.min i len).
  intros Hle.
  assert (0 <= s) by (unfold s; destruct (Z.ltb_spec i 0); lia).
  cbn [app].
  destruct (Z.eq_dec s len) as [E | NE].
  - replace (Z.min (Z.max 1 0) (len - s)) with 0 by lia.
    rewrite Z.add_0_r, !drop_ge; [reflexivity | |]; unfold len in *; lia.
  - replace (Z.min (Z.max 1 0) (len - s)) with 1 by lia.
    replace (Z.to_nat (s + 1)) with (S (Z.to_nat s)) by lia. reflexivity.
Qed.

Lemma delete_the_inserted (array : list Value) (item : Value) (s : nat) :
  (s <= List.length array)%nat ->
  delete s (take s array ++ item :: drop s array) = array.
Proof.
  intros Hs. rewrite delete_take_drop.
  rewrite take_app_length' by (rewrite length_take; lia).
  replace (S s) with (s + 1)%nat by lia.
  rewrite drop_app_add' by (rewrite length_take; lia).
  change (drop 1 (item :: drop s array)) with (drop s array). apply take_drop.
Qed.

Lemma insert_the_deleted (array : list Value) (item : Value) (s : nat) :
  array !! s = Some item ->
  take s (delete s array) ++ item :: drop s (delete s array) = array.
Proof.
  intros Hs. pose proof (lookup_lt_Some _ _ _ Hs) as Hlt.
  rewrite delete_take_drop.
  rewrite take_app_length' by (rewrite length_take; lia).
  rewrite drop_app_length' by (rewrite length_take; lia).
  apply take_drop_middle. exact Hs.
Qed.

Lemma arrays_insert_insert (tg : Arrays) (a : nat) (x y : list Value) :
  <[a := y]> (<[a := x]> tg) = <[a := y]> tg.
Proof. unfold Arrays in *. apply list_insert_insert_eq. Qed.

(** ETO_ArrayInsertCmd with an index from 0 to the length of the array puts
    the item at that index and returns the ETO_ArrayRemoveCmd of the same
    index, whose exec gives back the array as it was and returns the
    insertion command again. *)
Theorem an_insertion_in_range_is_undone
    (tg : Arrays) (a : nat) (array : list Value) (item : Value) (i : Z) :
  tg !! a = Some array ->
  0 <= i <= Z.of_nat (List.length array) ->
  exists tg1,
    exec ETO_ArrayCmd_exec (CustomCmd (ETO_ArrayInsertCmd a item i)) tg
    = Returned (CustomCmd (ETO_ArrayRemoveCmd a i)) tg1
    /\ tg1 !! a = Some (take (Z.to_nat i) array ++ item :: drop (Z.to_nat i) array)
    /\ exec ETO_ArrayCmd_exec (CustomCmd (ETO_ArrayRemoveCmd a i)) tg1
       = Returned (CustomCmd (ETO_ArrayInsertCmd a item i)) tg.
Proof.
  intros Ha Hi. unfold Arrays in *.
  pose proof (lookup_lt_Some _ _ _ Ha) as Hlt.
  assert (Hs : settled_start array i = Z.to_nat i).
  { unfold settled_start. cbv zeta. destruct (Z.ltb_spec i 0); lia. }
  cbn [exec ETO_ArrayCmd_exec]. unfold Arrays in *. rewrite Ha. cbn [default from_option id].
  rewrite Array_splice_insert, Hs.
  set (array1 := take (Z.to_nat i) array ++ item :: drop (Z.to_nat i) array).
  assert (Hlen1 : List.length array1 = S (List.length array)).
  { unfold array1. rewrite length_app, length_take. cbn [List.length].
    rewrite length_drop. lia. }
  eexists. split; [reflexivity |].
  rewrite list_lookup_insert_eq by exact Hlt.
  split; [reflexivity |]. cbn [default from_option id].
  assert (Hs1 : settled_start array1 i = Z.to_nat i).
  { unfold settled_start. cbv zeta. rewrite Hlen1. destruct (Z.ltb_spec i 0); lia. }
  rewrite Array_splice_remove, Hs1.
  unfold array1 at 2. rewrite delete_the_inserted by lia.
  rewrite list_insert_insert_eq, (list_insert_id _ _ _ Ha).
  do 3 f_equal. unfold Array_get.
  destruct (Z.ltb_spec i 0); [lia |].
  unfold array1. rewrite lookup_app_r by (rewrite length_take; lia).
  rewrite length_take. replace (Z.to_nat i - _)%nat with 0%nat by lia. reflexivity.
Qed.

(** ETO_ArrayRemoveCmd with the index of an item takes that item out and
    returns the ETO_ArrayInsertCmd of the item and the index, whose exec gives
    back the array as it was and returns the removal command again. *)
Theorem a_removal_in_range_is_undone
    (tg : Arrays) (a : nat) (array : list Value) (item : Value) (i : Z) :
  tg !! a = Some array ->
  0 <= i ->
  array !! Z.to_nat i = Some item ->
  exists tg1,
    exec ETO_ArrayCmd_exec (CustomCmd (ETO_ArrayRemoveCmd a i)) tg
    = Returned (CustomCmd (ETO_ArrayInsertCmd a item i)) tg1
    /\ tg1 !! a = Some (delete (Z.to_nat i) array)
    /\ exec ETO_ArrayCmd_exec (CustomCmd (ETO_ArrayInsertCmd a item i)) tg1
       = Returned (CustomCmd (ETO_ArrayRemoveCmd a i)) tg.
Proof.
  intros Ha Hi Hitem. unfold Arrays in *.
  pose proof (lookup_lt_Some _ _ _ Ha) as Hlt.
  pose proof (lookup_lt_Some _ _ _ Hitem) as Hlti.
  assert (Hs : settled_start array i = Z.to_nat i).
  { unfold settled_start. cbv zeta. destruct (Z.ltb_spec i 0); lia. }
  cbn [exec ETO_ArrayCmd_exec]. unfold Arrays in *. rewrite Ha. cbn [default from_option id].
  rewrite Array_splice_remove, Hs.
  assert (Hget : Array_get array i = item).
  { unfold Array_get. destruct (Z.ltb_spec i 0); [lia |]. rewrite Hitem. reflexivity. }
  rewrite Hget. eexists. split; [reflexivity |].
  rewrite list_lookup_insert_eq by exact Hlt.
  split; [reflexivity |]. cbn [default from_option id].
  assert (Hs1 : settled_start (delete (Z.to_nat i) array) i = Z.to_nat i).
  { unfold settled_start. cbv zeta. rewrite length_delete by (rewrite Hitem; eauto).
    destruct (Z.ltb_spec i 0); lia. }
  rewrite Array_splice_insert, Hs1, insert_the_deleted by exact Hitem.
  rewrite list_insert_insert_eq, (list_insert_id _ _ _ Ha). reflexivity.
Qed.

(** An insertion at an index that splice has to bring into range is not
    undone by the command it returns.  With an index beyond the length the
    item is appended and the removal at that index removes nothing, so the
    item stays; with a negative index counted from the end, the removal takes
    out the item after the inserted one, so the inserted item has replaced
    it. *)
Theorem an_insertion_out_of_range_is_not_undone
    (tg : Arrays) (a : nat) (array : list Value) (item : Value) (i : Z) :
  tg !! a = Some array ->
  let len := Z.of_nat (List.length array) in
  exists tg1 inverse' tg2,
    exec ETO_ArrayCmd_exec (CustomCmd (ETO_ArrayInsertCmd a item i)) tg
    = Returned (CustomCmd (ETO_ArrayRemoveCmd a i)) tg1
    /\ exec ETO_ArrayCmd_exec (CustomCmd (ETO_ArrayRemoveCmd a i)) tg1
       = Returned inverse' tg2
    /\ (len < i -> tg2 !! a = Some (array ++ [item]))
    /\ (- len <= i < 0 -> tg2 !! a = Some (<[Z.to_nat (len + i) := item]> array)).
Proof.
  intros Ha len. unfold Arrays in *.
  pose proof (lookup_lt_Some _ _ _ Ha) as Hlt.
  cbn [exec ETO_ArrayCmd_exec]. unfold Arrays in *. rewrite Ha. cbn [default from_option id].
  do 3 eexists. split; [reflexivity |].
  rewrite list_lookup_insert_eq by exact Hlt. cbn [default from_option id].
  split; [reflexivity |].
  rewrite list_insert_insert_eq, list_lookup_insert_eq by exact Hlt.
  rewrite Array_splice_remove, Array_splice_insert.
  set (s := settled_start array i).
  set (array1 := take s array ++ item :: drop s array).
  assert (Hlen1 : List.length array1 = S (List.length array)).
  { unfold array1. rewrite length_app, length_take. cbn [List.length].
    rewrite length_drop. pose proof (settled_start_le array i). fold s in H. lia. }
  split.
  - intros Hi.
    assert (Hs : s = List.length array).
    { unfold s, settled_start. cbv zeta. destruct (Z.ltb_spec i 0); lia. }
    assert (Hs1 : settled_start array1 i = List.length array1).
    { unfold settled_start. cbv zeta. rewrite Hlen1. destruct (Z.ltb_spec i 0); lia. }
    rewrite Hs1, delete_take_drop, take_ge, drop_ge by lia. rewrite app_nil_r.
    unfold array1. rewrite Hs, take_ge, drop_ge by lia. reflexivity.
  - intros Hi.
    assert (Hs : s = Z.to_nat (len + i)).
    { unfold s, settled_start. cbv zeta. fold len. destruct (Z.ltb_spec i 0); lia. }
    assert (Hlts : (s < List.length array)%nat) by (unfold len in *; lia).
    assert (Hs1 : settled_start array1 i = S s).
    { unfold settled_start. cbv zeta. rewrite Hlen1. destruct (Z.ltb_spec i 0); lia. }
    rewrite Hs1, <- Hs. f_equal. rewrite delete_take_drop, insert_take_drop by exact Hlts.
    unfold array1.
    replace (S s) with (s + 1)%nat at 1 by lia.
    rewrite take_app_add' by (rewrite length_take; lia). cbn [take firstn].
    replace (S (S s)) with (s + 2)%nat by lia.
    rewrite drop_app_add' by (rewrite length_take; lia). cbn [drop skipn].
    rewrite <- app_assoc. cbn [app]. rewrite drop_drop.
    replace (s + 1)%nat with (S s) by lia. reflexivity.
Qed.
End ArrayCommands.





Lemma failed_undo_is_lost_witness :
  exists s',
    UndoRedo.execUndo UndoRedo.ETO_SetPropertyCmd_exec abstract_undo [[("x", VNum 1)]]
    = UndoRedo.Failed s' [[("x", VNum 1)]]
    /\ UndoRedo.undoCount s' = 0
    /\ UndoRedo.undoText s' = "Undo: nothing".
Proof.
  destruct (failed_undo_is_lost UndoRedo.ETO_SetPropertyCmd_exec abstract_undo
              [[("x", VNum 1)]] [[("x", VNum 1)]] "Undo: nothing" UndoRedo.ETO_InvertibleCmd
              eq_refl eq_refl)
    as (s' & H & _ & Hc & _ & Ht & _).
  exists s'. split; [exact H |]. split; [exact Hc | exact Ht].
Defined.

Lemma an_insertion_in_range_is_undone_witness :
  exists tg1,
    UndoRedo.exec UndoRedo.ETO_ArrayCmd_exec
      (UndoRedo.CustomCmd (UndoRedo.ETO_ArrayInsertCmd 0 (VStr "x") 3)) abc_array
    = UndoRedo.Returned (UndoRedo.CustomCmd (UndoRedo.ETO_ArrayRemoveCmd 0 3)) tg1
    /\ tg1 !! 0%nat = Some [VStr "a"; VStr "b"; VStr "c"; VStr "x"]
    /\ UndoRedo.exec UndoRedo.ETO_ArrayCmd_exec
         (UndoRedo.CustomCmd (UndoRedo.ETO_ArrayRemoveCmd 0 3)) tg1
       = UndoRedo.Returned
           (UndoRedo.CustomCmd (UndoRedo.ETO_ArrayInsertCmd 0 (VStr "x") 3)) abc_array.
Proof.
  apply (an_insertion_in_range_is_undone abc_array 0 [VStr "a"; VStr "b"; VStr "c"]
           (VStr "x") 3); [reflexivity | cbn; lia].
Defined.

Lemma a_removal_in_range_is_undone_witness :
  exists tg1,
    UndoRedo.exec UndoRedo.ETO_ArrayCmd_exec
      (UndoRedo.CustomCmd (UndoRedo.ETO_ArrayRemoveCmd 0 1)) abc_array
    = UndoRedo.Returned (UndoRedo.CustomCmd (UndoRedo.ETO_ArrayInsertCmd 0 (VStr "b") 1)) tg1
    /\ tg1 !! 0%nat = Some [VStr "a"; VStr "c"]
    /\ UndoRedo.exec UndoRedo.ETO_ArrayCmd_exec
         (UndoRedo.CustomCmd (UndoRedo.ETO_ArrayInsertCmd 0 (VStr "b") 1)) tg1
       = UndoRedo.Returned (UndoRedo.CustomCmd (UndoRedo.ETO_ArrayRemoveCmd 0 1)) abc_array.
Proof.
  apply (a_removal_in_range_is_undone abc_array 0 [VStr "a"; VStr "b"; VStr "c"]
           (VStr "b") 1); [reflexivity | lia | reflexivity].
Defined.

Lemma an_insertion_out_of_range_is_not_undone_witness :
  exists tg1 inverse' tg2,
    UndoRedo.exec UndoRedo.ETO_ArrayCmd_exec
      (UndoRedo.CustomCmd (UndoRedo.ETO_ArrayInsertCmd 0 (VStr "x") 5)) abc_array
    = UndoRedo.Returned (UndoRedo.CustomCmd (UndoRedo.ETO_ArrayRemoveCmd 0 5)) tg1
    /\ UndoRedo.exec UndoRedo.ETO_ArrayCmd_exec
         (UndoRedo.CustomCmd (UndoRedo.ETO_ArrayRemoveCmd 0 5)) tg1
       = UndoRedo.Returned inverse' tg2
    /\ tg2 !! 0%nat = Some [VStr "a"; VStr "b"; VStr "c"; VStr "x"].
Proof.
  destruct (an_insertion_out_of_range_is_not_undone abc_array 0
              [VStr "a"; VStr "b"; VStr "c"] (VStr "x") 5 eq_refl)
    as (tg1 & inverse' & tg2 & H1 & H2 & Hpast & _).
  exists tg1, inverse', tg2. split; [exact H1 |]. split; [exact H2 |].
  apply Hpast. cbn. lia.
Defined.

(** ** What a pass leaves alone *)

Section StablePass.
Variable E : Env.
Variable gas : nat.
Variable P : Heap -> Prop.
Hypothesis HP : stable E P.
Hypothesis Hwithin : forall h, P h -> within gas h.

Lemma notifyObservers_loop_stable (n this : nat) (cd : Details) (i : nat) (w : World) :
  P (heap w) -> (i < gas)%nat -> (gas <= i + n)%nat ->
  exists w', notifyObservers_loop E n this cd i w = Ret tt w' /\ P (heap w').
Proof.
  revert i w. induction n as [| n IH]; intros i w Hw Hi Hn; [lia |].
  cbn [notifyObservers_loop].
  destruct (OList.m_observers (the_list (heap w) this) !! i) as [obs |] eqn:Hobs.
  - apply lookup_lt_Some in Hobs.
    pose proof (proj2 (Hwithin _ Hw) this) as Hlen.
    destruct (negb (from_option (strict_eq (VList this)) false (object cd))
              && negb (observesItemChanges obs)).
    + apply IH; [exact Hw | lia | lia].
    + unfold bind, record_call, call_user. cbn [heap calls].
      apply IH; [cbn [heap]; apply HP; exact Hw | lia | lia].
  - exists w. split; [reflexivity | exact Hw].
Qed.

Lemma notifyObservers_stable (this : nat) (cd : Details) (w : World) :
  P (heap w) ->
  exists w', notifyObservers E gas this cd w = Ret tt w' /\ P (heap w').
Proof.
  intros Hw. unfold notifyObservers.
  pose proof (proj2 (Hwithin _ Hw) this).
  apply notifyObservers_loop_stable; [exact Hw | lia | lia].
Qed.

Lemma invoke_stable (this : nat) (h : ObserverHandle) (d : Details) (w : World) :
  P (heap w) ->
  exists w', invoke E gas this h d w = Ret tt w' /\ P (heap w').
Proof.
  intros Hw. unfold invoke, bind, record_call. cbn [heap calls].
  destruct (callbackFunction h) as [us item insertionIndex | k].
  - apply notifyObservers_stable. exact Hw.
  - unfold call_user. cbn [heap calls]. eexists. split; [reflexivity |].
    cbn [heap]. apply HP. exact Hw.
Qed.

Lemma notifyAll_loop_stable (n this : nat) (cd : Details) (i : nat) (w : World) :
  P (heap w) -> (i < gas)%nat -> (gas <= i + n)%nat ->
  exists w', notifyAll_loop E gas n this cd i w = Ret tt w' /\ P (heap w').
Proof.
  revert i w. induction n as [| n IH]; intros i w Hw Hi Hn; [lia |].
  cbn [notifyAll_loop].
  destruct (Obj.m_observers (the_object (heap w) this) !! i) as [h |] eqn:Hobs.
  - apply lookup_lt_Some in Hobs.
    pose proof (proj1 (Hwithin _ Hw) this) as Hlen.
    unfold bind.
    match goal with
    | |- context [invoke E gas this h ?d w] =>
        destruct (invoke_stable this h d w Hw) as (w1 & Hrun & Hw1)
    end.
    rewrite Hrun. apply IH; [exact Hw1 | lia | lia].
  - exists w. split; [reflexivity | exact Hw].
Qed.

Lemma notifyAll_stable (this : nat) (cd : Details) (w : World) :
  P (heap w) ->
  exists w', notifyAll E gas this cd w = Ret tt w' /\ P (heap w').
Proof.
  intros Hw. unfold notifyAll.
  pose proof (proj1 (Hwithin _ Hw) this).
  apply notifyAll_loop_stable; [exact Hw | lia | lia].
Qed.
End StablePass.

(** ** Further facts about observable objects *)

Lemma the_object_set_object (h : Heap) (this : nat) (x : Obj.t) :
  (this < List.length (observables h))%nat -> the_object (set_object this x h) this = x.
Proof.
  intros Hlt. unfold the_object, set_object. cbn [observables].
  rewrite list_lookup_insert_eq by exact Hlt. reflexivity.
Qed.

Lemma set_object_length (h : Heap) (this : nat) (x : Obj.t) :
  List.length (observables (set_object this x h)) = List.length (observables h).
Proof. unfold set_object. cbn [observables]. apply length_insert. Qed.

(** A pass of notifyAll in a quiet program that leaves [this] alone ends and
    leaves [this] as it was. *)
Lemma pass_leaves_object (E : Env) (gas o this : nat) (cd : Details) (w : World) :
  quiet E -> untouched E this -> within gas (heap w) ->
  exists w',
    notifyAll E gas o cd w = Ret tt w'
    /\ observables (heap w') !! this = observables (heap w) !! this
    /\ within gas (heap w').
Proof.
  intros HE HU Hin.
  destruct (notifyAll_stable E gas
              (fun h => keeps_observers (heap w) h
                        /\ observables h !! this = observables (heap w) !! this))
    with (this := o) (cd := cd) (w := w) as (w' & Hrun & Hk & Hobj).
  - intros k t d h [Hk Ho]. split.
    + eapply keeps_observers_trans; [exact Hk | apply HE].
    + rewrite HU. exact Ho.
  - intros h [Hk _]. eapply within_keeps; eassumption.
  - split; [apply keeps_observers_refl | reflexivity].
  - exists w'. split; [exact Hrun |]. split; [exact Hobj |].
    eapply within_keeps; eassumption.
Qed.

Lemma lookup_set_object (h : Heap) (this : nat) (x : Obj.t) :
  (this < List.length (observables h))%nat ->
  observables (set_object this x h) !! this = Some x.
Proof.
  intros Hlt. unfold set_object. cbn [observables].
  apply list_lookup_insert_eq. exact Hlt.
Qed.

Lemma the_object_lookup (h : Heap) (this : nat) (x : Obj.t) :
  observables h !! this = Some x ->
  the_object h this = x /\ (this < List.length (observables h))%nat.
Proof.
  intros H. split; [unfold the_object; rewrite H; reflexivity |].
  eapply lookup_lt_Some. exact H.
Qed.

Lemma bind_then_ret {A} (m : M unit) (a : A) (w w1 : World) :
  m w = Ret tt w1 -> (m ;;; ret a) w = Ret a w1.
Proof. intros H. unfold bind. rewrite H. reflexivity. Qed.

Lemma bind_bind_then_ret {A} (m k : M unit) (a : A) (w w1 : World) :
  (m ;;; k) w = Ret tt w1 -> (m ;;; k ;;; ret a) w = Ret a w1.
Proof.
  unfold bind. destruct (m w) as [[] w0 | |]; try discriminate.
  intros ->. reflexivity.
Qed.

Section ObservableState.
Variable E : Env.
Variable gas this : nat.
Hypothesis HE : quiet E.
Hypothesis HU : untouched E this.

(** What a change of [this] followed by the pass comes to. *)
Lemma change_and_notify (x' : Obj.t) (cd : Details) (w : World) :
  within gas (heap w) ->
  (this < List.length (observables (heap w)))%nat ->
  Obj.m_observers x' = Obj.m_observers (the_object (heap w) this) ->
  exists w1,
    notifyAll E gas this cd (mkWorld (set_object this x' (heap w)) (calls w)) = Ret tt w1
    /\ the_object (heap w1) this = x'
    /\ (this < List.length (observables (heap w1)))%nat
    /\ within gas (heap w1).
Proof.
  intros Hin Hlt Hobs.
  match goal with
  | |- context [notifyAll E gas this cd ?w0] =>
      destruct (pass_leaves_object E gas this this cd w0 HE HU) as (w1 & Hrun & Hobj & Hin1)
  end.
  { cbn [heap]. eapply within_keeps; [| exact Hin]. apply set_object_keeps. exact Hobs. }
  cbn [heap] in Hobj. rewrite lookup_set_object in Hobj by exact Hlt.
  apply the_object_lookup in Hobj. destruct Hobj as [Hobj Hlt1].
  exists w1. auto.
Qed.

(** What defining a new property and telling the observers comes to. *)
Lemma define_and_notify (n : string) (p : Property) (w : World) :
  within gas (heap w) ->
  (this < List.length (observables (heap w)))%nat ->
  let x := the_object (heap w) this in
  own (Obj.props x) n = None -> Obj.extensible x = true ->
  exists w1,
    (Observable.define this n p ;;;
     notifyAll E gas this (changeDetails n VUndefined (Some (VObservable this)))) w
    = Ret tt w1
    /\ the_object (heap w1) this = set_props (Obj.props x ++ [(n, p)]) x
    /\ (this < List.length (observables (heap w1)))%nat
    /\ within gas (heap w1).
Proof.
  intros Hin Hlt x Hown Hext.
  rewrite (bind_Ret _ _ _ _ _
             (define_ok this n p (set_props (Obj.props x ++ [(n, p)]) x) w
                ltac:(unfold Observable.defineProperty; fold x; rewrite Hown, Hext;
                      reflexivity))).
  apply change_and_notify; [exact Hin | exact Hlt | reflexivity].
Qed.

Lemma own_snoc (ps : Props) (n : string) (p : Property) :
  own ps n = None -> own (ps ++ [(n, p)]) n = Some p.
Proof. intros H. rewrite own_app, H. cbn. rewrite String.eqb_refl. reflexivity. Qed.

Lemma own_snoc_ne (ps : Props) (n m : string) (p : Property) :
  m <> n -> own (ps ++ [(n, p)]) m = own ps m.
Proof.
  intros Hne. rewrite own_app. destruct (own ps m); [reflexivity |]. cbn.
  destruct (String.eqb_spec n m); [congruence | reflexivity].
Qed.

Lemma own_replace_own (ps : Props) (n m : string) (p q : Property) :
  own ps n = Some p ->
  own (replace_own ps n q) m = if String.eqb n m then Some q else own ps m.
Proof.
  induction ps as [| [k r] ps IH]; cbn; [discriminate |].
  destruct (String.eqb_spec k n) as [-> | Hk]; cbn.
  - intros _. destruct (String.eqb n m); reflexivity.
  - intros H. destruct (String.eqb_spec k m) as [-> | Hm].
    + destruct (String.eqb_spec n m); [congruence | reflexivity].
    + apply IH. exact H.
Qed.

Lemma delete_own_snoc (ps : Props) (n : string) (p : Property) :
  own ps n = None -> delete_own (ps ++ [(n, p)]) n = ps.
Proof.
  induction ps as [| [k r] ps IH]; cbn.
  - rewrite String.eqb_refl. reflexivity.
  - destruct (String.eqb k n); [discriminate |]. intros H. rewrite IH by exact H. reflexivity.
Qed.

(** addROProperty on a free name, in a program whose functions leave the
    object and the observer arrays alone: it returns true, the property reads
    the value given, the other properties are as before, every assignment to
    it (made outside strict mode, where it is ignored without an exception)
    leaves the world as it was, and removeProperty returns false and leaves
    the world as it was. *)
Theorem a_read_only_property_stays
    (n : string) (v : Value) (isEnumerable : option bool) (w : World) :
  within gas (heap w) ->
  (this < List.length (observables (heap w)))%nat ->
  let x := the_object (heap w) this in
  n <> Observable.reserved_name -> own (Obj.props x) n = None ->
  inherited n = false -> Obj.extensible x = true ->
  exists w1,
    Observable.addROProperty E gas this (NameStr n) v isEnumerable w = Ret true w1
    /\ Observable.get (the_object (heap w1) this) n = v
    /\ (forall m, m <> n ->
          own (Obj.props (the_object (heap w1) this)) m = own (Obj.props x) m)
    /\ (forall v', Observable.assign E gas this n v' w1 = Ret tt w1)
    /\ Observable.removeProperty E gas this (NameStr n) w1 = Ret false w1.
Proof.
  intros Hin Hlt x Hres Hown Hinh Hext.
  unfold Observable.addROProperty, Observable.addProperty.
  rewrite (proj2 (String.eqb_neq _ _) Hres), bind_get_heap. fold x.
  unfold Observable.get at 1. rewrite Hown, Hinh. cbn [strict_eq negb default from_option id].
  set (p := mkProperty (DataSlot v false) (from_option id true isEnumerable) false).
  destruct (define_and_notify n p w Hin Hlt Hown Hext) as (w1 & Hrun & Hobj & _).
  exists w1. split; [exact (bind_bind_then_ret _ _ true _ _ Hrun) |].
  assert (Hown1 : own (Obj.props (the_object (heap w1) this)) n = Some p).
  { rewrite Hobj. cbn [Obj.props set_props]. apply own_snoc. exact Hown. }
  split; [unfold Observable.get; rewrite Hown1; reflexivity |].
  split; [intros m Hm; rewrite Hobj; cbn [Obj.props set_props]; apply own_snoc_ne; exact Hm |].
  split.
  - intros v'. unfold Observable.assign. rewrite bind_get_heap, Hown1. reflexivity.
  - unfold Observable.removeProperty. rewrite bind_get_heap.
    unfold Observable.get. rewrite Hown1. cbn [slot slot_get p].
    destruct (strict_eq v VUndefined); reflexivity.
Qed.

(** addPropertyWithPrivateSet on a free name, in such a program: it returns
    the setter, the property reads the value given, every assignment to it
    (made outside strict mode) and removeProperty leave the world as it was,
    and a call of the setter makes the property read the new value (the old
    one when the two are strictly equal) and leaves the other properties as
    they were. *)
Theorem a_private_property_changes_through_its_setter_only
    (n : string) (v : Value) (isEnumerable : option bool) (w : World) :
  within gas (heap w) ->
  (this < List.length (observables (heap w)))%nat ->
  let x := the_object (heap w) this in
  n <> Observable.reserved_name -> own (Obj.props x) n = None ->
  inherited n = false -> Obj.extensible x = true ->
  exists w1,
    Observable.addPropertyWithPrivateSet E gas this (NameStr n) v isEnumerable w
    = Ret (Some (Observable.mkSetFunc this n)) w1
    /\ Observable.get (the_object (heap w1) this) n = v
    /\ (forall v', Observable.assign E gas this n v' w1 = Ret tt w1)
    /\ Observable.removeProperty E gas this (NameStr n) w1 = Ret false w1
    /\ forall v', exists w2,
         Observable.setFunc E gas (Observable.mkSetFunc this n) v' w1 = Ret tt w2
         /\ Observable.get (the_object (heap w2) this) n
            = (if strict_eq v v' then v else v')
         /\ forall m, m <> n ->
              own (Obj.props (the_object (heap w2) this)) m = own (Obj.props x) m.
Proof.
  intros Hin Hlt x Hres Hown Hinh Hext.
  unfold Observable.addPropertyWithPrivateSet.
  rewrite (proj2 (String.eqb_neq _ _) Hres), bind_get_heap. fold x.
  unfold Observable.get at 1. rewrite Hown, Hinh. cbn [strict_eq negb default from_option id].
  set (p := mkProperty (PrivateSlot v) (from_option id true isEnumerable) false).
  destruct (define_and_notify n p w Hin Hlt Hown Hext) as (w1 & Hrun & Hobj & Hlt1 & Hin1).
  exists w1. split; [exact (bind_bind_then_ret _ _ _ _ _ Hrun) |].
  assert (Hown1 : own (Obj.props (the_object (heap w1) this)) n = Some p).
  { rewrite Hobj. cbn [Obj.props set_props]. apply own_snoc. exact Hown. }
  assert (Hothers : forall m, m <> n ->
            own (Obj.props (the_object (heap w1) this)) m = own (Obj.props x) m).
  { intros m Hm. rewrite Hobj. cbn [Obj.props set_props]. apply own_snoc_ne. exact Hm. }
  split; [unfold Observable.get; rewrite Hown1; reflexivity |].
  split; [intros v'; unfold Observable.assign; rewrite bind_get_heap, Hown1; reflexivity |].
  split.
  { unfold Observable.removeProperty. rewrite bind_get_heap.
    unfold Observable.get. rewrite Hown1. cbn [slot slot_get p].
    destruct (strict_eq v VUndefined); reflexivity. }
  intros v'. unfold Observable.setFunc. rewrite bind_get_heap.
  cbn [Observable.ownerObj Observable.sf_propertyName]. rewrite Hown1.
  cbn [fmap option_fmap option_map slot p].
  destruct (strict_eq v v') eqn:Heq.
  - exists w1. split; [reflexivity |].
    split; [unfold Observable.get; rewrite Hown1; reflexivity | exact Hothers].
  - rewrite (bind_Ret _ _ _ _ _ (set_slot_ok this n _ _ w1 Hown1)).
    match goal with
    | |- context [set_object this ?x' (heap w1)] =>
        destruct (change_and_notify x' (changeDetails n v None) w1 Hin1 Hlt1 eq_refl)
          as (w2 & Hrun2 & Hobj2 & _)
    end.
    exists w2. split; [exact Hrun2 |]. rewrite Hobj2. unfold set_props. cbn [Obj.props].
    split.
    + unfold Observable.get. cbn [Obj.props].
      rewrite (own_replace_own _ _ _ _ _ Hown1), String.eqb_refl.
      reflexivity.
    + intros m Hm. rewrite (own_replace_own _ _ _ _ _ Hown1).
      destruct (String.eqb_spec n m); [congruence | apply Hothers; exact Hm].
Qed.

(** addProperty of a value other than undefined under a free name, left
    removable, followed by removeProperty of that name, in such a program: both
    return true, the property reads the value in between, and the object ends
    as it began, with the same properties in the same order. *)
Theorem add_then_remove
    (n : string) (v : Value) (writable isEnumerable : option bool) (w : World) :
  within gas (heap w) ->
  (this < List.length (observables (heap w)))%nat ->
  let x := the_object (heap w) this in
  n <> Observable.reserved_name -> own (Obj.props x) n = None ->
  inherited n = false -> Obj.extensible x = true ->
  v <> VUndefined ->
  exists w1 w2,
    Observable.addProperty E gas this (NameStr n) v None writable isEnumerable w = Ret true w1
    /\ Observable.get (the_object (heap w1) this) n = v
    /\ Observable.removeProperty E gas this (NameStr n) w1 = Ret true w2
    /\ the_object (heap w2) this = x.
Proof.
  intros Hin Hlt x Hres Hown Hinh Hext Hv.
  unfold Observable.addProperty.
  rewrite (proj2 (String.eqb_neq _ _) Hres), bind_get_heap. fold x.
  unfold Observable.get at 1. rewrite Hown, Hinh. cbn [strict_eq negb default from_option id].
  match goal with
  | |- context [Observable.define this n ?q] => set (p := q)
  end.
  assert (Hp : configurable p = true /\ slot_get (slot p) = v).
  { unfold p. destruct writable as [[|] |]; split; reflexivity. }
  destruct Hp as [Hconf Hval].
  destruct (define_and_notify n p w Hin Hlt Hown Hext) as (w1 & Hrun & Hobj & Hlt1 & Hin1).
  assert (Hown1 : own (Obj.props (the_object (heap w1) this)) n = Some p).
  { rewrite Hobj. cbn [Obj.props set_props]. apply own_snoc. exact Hown. }
  assert (Hremove : exists w2,
            Observable.removeProperty E gas this (NameStr n) w1 = Ret true w2
            /\ the_object (heap w2) this = x).
  { unfold Observable.removeProperty. rewrite bind_get_heap.
    unfold Observable.get. rewrite Hown1, Hval.
    destruct (strict_eq v VUndefined) eqn:Hu; [apply strict_eq_undefined in Hu; contradiction |].
    rewrite Hconf. cbn [negb]. unfold bind at 1, put_heap.
    match goal with
    | |- context [set_object this ?x' (heap w1)] =>
        destruct (change_and_notify x' (changeDetails n v None) w1 Hin1 Hlt1 eq_refl)
          as (w2 & Hrun2 & Hobj2 & _)
    end.
    exists w2. split; [exact (bind_then_ret _ true _ _ Hrun2) |].
    rewrite Hobj2, Hobj. unfold set_props. cbn [Obj.props Obj.m_observers Obj.extensible].
    rewrite delete_own_snoc by exact Hown. fold x. destruct x; reflexivity. }
  destruct Hremove as (w2 & Hrem & Hback).
  exists w1, w2. split; [exact (bind_bind_then_ret _ _ true _ _ Hrun) |].
  split; [unfold Observable.get; rewrite Hown1; exact Hval |].
  split; assumption.
Qed.
End ObservableState.

Lemma own_sealed (ps : Props) (n : string) :
  own (map (fun np => (np.1, mkProperty (slot np.2) (enumerable np.2) false)) ps) n
  = (fun p => mkProperty (slot p) (enumerable p) false) <$> own ps n.
Proof.
  induction ps as [| [k q] ps IH]; cbn; [reflexivity |].
  destruct (String.eqb k n); [reflexivity | exact IH].
Qed.

(** After seal every property reads as before; removeProperty returns false
    and changes nothing for every name that is an own property or is not
    inherited; and addProperty of a free name throws a TypeError, because
    Object.defineProperty cannot add to an object that is not extensible. *)
Theorem a_sealed_object_is_closed (E : Env) (gas this : nat) (w : World) :
  (this < List.length (observables (heap w)))%nat ->
  let x := the_object (heap w) this in
  exists w1,
    Observable.seal this w = Ret tt w1
    /\ (forall n, Observable.get (the_object (heap w1) this) n = Observable.get x n)
    /\ (forall n, (own (Obj.props x) n = None -> inherited n = false) ->
          Observable.removeProperty E gas this (NameStr n) w1 = Ret false w1)
    /\ (forall n v removable writable isEnumerable,
          n <> Observable.reserved_name -> own (Obj.props x) n = None ->
          inherited n = false ->
          Observable.addProperty E gas this (NameStr n) v removable writable isEnumerable w1
          = Throw TypeError w1).
Proof.
  intros Hlt x. unfold Observable.seal. rewrite bind_get_heap. fold x.
  unfold put_heap. eexists. split; [reflexivity |]. cbn [heap].
  rewrite the_object_set_object by exact Hlt.
  assert (Hget : forall n,
            Observable.get
              (Obj.mk (map (fun np => (np.1, mkProperty (slot np.2) (enumerable np.2) false))
                         (Obj.props x)) (Obj.m_observers x) false) n
            = Observable.get x n).
  { intros n. unfold Observable.get. cbn [Obj.props]. rewrite own_sealed.
    destruct (own (Obj.props x) n); reflexivity. }
  split; [exact Hget |]. split.
  - intros n Hn. unfold Observable.removeProperty. rewrite bind_get_heap. cbn [heap].
    rewrite the_object_set_object by exact Hlt. rewrite Hget.
    destruct (own (Obj.props x) n) as [p |] eqn:Hown.
    + cbn [Obj.props]. rewrite own_sealed, Hown. cbn.
      destruct (strict_eq (Observable.get x n) VUndefined); reflexivity.
    + unfold Observable.get. rewrite Hown, (Hn eq_refl). reflexivity.
  - intros n v removable writable isEnumerable Hres Hown Hinh.
    unfold Observable.addProperty.
    rewrite (proj2 (String.eqb_neq _ _) Hres), bind_get_heap. cbn [heap].
    rewrite the_object_set_object by exact Hlt. rewrite Hget.
    unfold Observable.get at 1. rewrite Hown, Hinh. cbn [strict_eq negb].
    unfold Observable.define. unfold bind at 1. rewrite bind_get_heap. cbn [heap].
    rewrite the_object_set_object by exact Hlt.
    unfold Observable.defineProperty. cbn [Obj.props Obj.extensible].
    rewrite own_sealed, Hown. reflexivity.
Qed.

(** What removeProperty turns down.  It returns false and changes nothing for
    a null or undefined name, for a name that reads undefined (one that is
    absent, or a property holding undefined) and for an own property that is
    not configurable; for the name of an inherited member that is no own
    property, such as "toString", it throws a TypeError, reading configurable
    off the missing descriptor. *)
Theorem removeProperty_refusals (E : Env) (gas this : nat) (w : World) :
  let x := the_object (heap w) this in
  Observable.removeProperty E gas this NameNull w = Ret false w
  /\ Observable.removeProperty E gas this NameUndefined w = Ret false w
  /\ (forall n, Observable.get x n = VUndefined ->
        Observable.removeProperty E gas this (NameStr n) w = Ret false w)
  /\ (forall n p, own (Obj.props x) n = Some p -> configurable p = false ->
        Observable.removeProperty E gas this (NameStr n) w = Ret false w)
  /\ (forall n, own (Obj.props x) n = None -> inherited n = true ->
        Observable.removeProperty E gas this (NameStr n) w = Throw TypeError w).
Proof.
  intros x. split; [reflexivity |]. split; [reflexivity |].
  split; [| split].
  - intros n Hget. unfold Observable.removeProperty. rewrite bind_get_heap. fold x.
    rewrite Hget. reflexivity.
  - intros n p Hown Hconf. unfold Observable.removeProperty. rewrite bind_get_heap. fold x.
    rewrite Hown, Hconf. destruct (strict_eq (Observable.get x n) VUndefined); reflexivity.
  - intros n Hown Hinh. unfold Observable.removeProperty. rewrite bind_get_heap. fold x.
    unfold Observable.get. rewrite Hown, Hinh. reflexivity.
Qed.

Lemma facts_of_revived (n : string) (p : Property) : facts (revived (n, p)).2 = written p.
Proof.
  unfold facts, written, revived. cbn [fst snd slot enumerable configurable].
  destruct (Observable.writable_detail (slot p)); reflexivity.
Qed.


(** For an object set up for the serialization with descriptors
    (m_simpleSerialize is not truthy) whose enumerable own properties hold
    primitive values under names other than "m_toString", "m_observers",
    "m_simpleSerialize", "ETO_Observable_Properties" and the names of
    inherited members, whichever of the add functions installed them, toJSON
    followed by the constructor yields an object whose enumerable properties
    have the names, values, enumerable and configurable flags of the original,
    and are writable exactly when toJSON wrote so: a property that only a
    private setter can change comes back taking ordinary assignments. *)
Theorem round_trip_keeps_what_toJSON_wrote
    (E : Env) (gas : nat) (x : Obj.t) (simpleSerialize : Value) (w : World) :
  (0 < gas)%nat -> describable x ->
  exists arr this w',
    Observable.toJSON x = Some (ETO_Observable_SerializedData arr)
    /\ Observable.ETO_Observable E gas (SerializedData arr) simpleSerialize w = Ret this w'
    /\ (forall n, enumerable_facts (the_object (heap w') this) n = enumerable_written x n)
    /\ (forall n p v,
          own (Obj.props x) n = Some p -> enumerable p = true -> slot p = PrivateSlot v ->
          enumerable_facts x n = Some (v, true, false, configurable p)
          /\ enumerable_facts (the_object (heap w') this) n
             = Some (v, true, true, configurable p)).
Proof.
  intros Hgas [Hnd Hsimple Hok].
  set (l := List.filter (fun np => enumerable np.2) (Obj.props x)).
  assert (Hl : forall n p, In (n, p) l -> In (n, p) (Obj.props x) /\ enumerable p = true).
  { intros n p Hin. apply filter_In in Hin. exact Hin. }
  set (m_observers := ("m_observers", mkProperty (DataSlot (VObject "Array" 0) false) false false)).
  set (ss := if strict_eq simpleSerialize VUndefined then VBool true else simpleSerialize).
  set (m_simpleSerialize := ("m_simpleSerialize", mkProperty (DataSlot ss false) false false)).
  set (ps := (m_observers :: map revived l) ++ [m_simpleSerialize]).
  assert (Hback : forall n,
            enumerable_facts
              (the_object (heap (with_new_object w ps)) (List.length (observables (heap w)))) n
            = enumerable_written x n).
  { intros n. rewrite the_object_new. unfold enumerable_facts, enumerable_written.
    cbn [Obj.props]. subst ps m_observers m_simpleSerialize. rewrite own_app. cbn [own].
    destruct (String.eqb_spec "m_observers" n) as [<- | Hno].
    + cbn [enumerable].
      destruct (own (Obj.props x) "m_observers") as [p |] eqn:Hown; [| reflexivity].
      destruct (enumerable p) eqn:He; [| reflexivity].
      destruct (Hok _ _ (own_Some_In _ _ _ Hown) He) as (_ & _ & Hobs & _).
      exfalso. apply Hobs. reflexivity.
    + subst l. rewrite (own_revived _ n Hnd).
      assert (Hlast : match (if String.eqb "m_simpleSerialize" n
                             then Some (mkProperty (DataSlot ss false) false false)
                             else None) with
                      | Some p => if enumerable p then Some (facts p) else None
                      | None => None
                      end = None)
        by (destruct (String.eqb "m_simpleSerialize" n); reflexivity).
      destruct (own (Obj.props x) n) as [p |] eqn:Hown; [| exact Hlast].
      destruct (enumerable p) eqn:He; [| exact Hlast].
      rewrite (facts_of_revived n p).
      change (enumerable (revived (n, p)).2) with (enumerable p). rewrite He. reflexivity. }
  exists (map descriptor l), (List.length (observables (heap w))), (with_new_object w ps).
  split; [| split; [| split]].
  - unfold Observable.toJSON. rewrite Hsimple. unfold Observable.for_in. fold l.
    rewrite (toJSON_loop_descriptors x l Hnd); [reflexivity |].
    intros n p Hin. destruct (Hl n p Hin) as [Hin' He].
    destruct (Hok n p Hin' He) as (Hprim & Hts & Hobs & _). auto.
  - unfold Observable.ETO_Observable. rewrite bind_get_heap.
    unfold bind at 1, put_heap.
    change (mkWorld (mkHeap (observables (heap w) ++ [Obj.mk [] [] true]) (lists (heap w))
                       (next_handle (heap w))) (calls w))
      with (with_new_object w []).
    rewrite (bind_Ret _ _ _ _ _ (define_value_new w [] "m_observers" _ eq_refl)).
    cbn [app]. fold m_observers.
    assert (Hnames : NoDup (map fst ([m_observers] ++ l))).
    { cbn [app map fst]. apply base.NoDup_cons_2; [| apply NoDup_enumerable_names; exact Hnd].
      intros Hin. apply list_elem_of_In, in_map_iff in Hin.
      destruct Hin as ([k q] & Hk & Hin). cbn in Hk. subst k.
      destruct (Hl _ _ Hin) as [Hin' He]. destruct (Hok _ _ Hin' He) as (_ & _ & Hobs & _).
      apply Hobs. reflexivity. }
    rewrite (bind_Ret _ _ _ _ _
               (revive_all E gas w l Hgas [m_observers] Hnames
                  ltac:(intros n p Hin; destruct (Hl n p Hin) as [Hin' He];
                        destruct (Hok n p Hin' He) as (? & _ & _ & _ & ? & ?); auto))).
    fold ss.
    assert (Hfree : own ([m_observers] ++ map revived l) "m_simpleSerialize" = None).
    { apply own_None. cbn [app map fst]. intros [Hin | Hin]; [discriminate |].
      rewrite names_revived in Hin. apply in_map_iff in Hin.
      destruct Hin as ([k q] & Hk & Hin). cbn in Hk. subst k.
      destruct (Hl _ _ Hin) as [Hin' He].
      destruct (Hok _ _ Hin' He) as (_ & _ & _ & Hss & _). apply Hss. reflexivity. }
    rewrite (bind_Ret _ _ _ _ _
               (define_value_new w ([m_observers] ++ map revived l) "m_simpleSerialize" ss
                  Hfree)).
    reflexivity.
  - exact Hback.
  - intros n p v Hown He Hslot. split.
    + unfold enumerable_facts. rewrite Hown, He. unfold facts. rewrite Hslot, He. reflexivity.
    + rewrite Hback. unfold enumerable_written. rewrite Hown, He. unfold written.
      rewrite Hslot, He. reflexivity.
Qed.

(** ** Printing an index and reading it back *)

Lemma digit_value_digit (d : nat) :
  (d < 10)%nat -> digit_value (digit_of_nat d) = Some (Z.of_nat d).
Proof.
  intros H. do 10 (destruct d as [| d]; [reflexivity |]). lia.
Qed.

Lemma digit_is_plain (d : nat) (s : string) :
  (d < 10)%nat ->
  parseInt (String (digit_of_nat d) s) = parse_digits (String (digit_of_nat d) s) None.
Proof.
  intros H. do 10 (destruct d as [| d]; [reflexivity |]). lia.
Qed.

Lemma parse_digits_of_pos (fuel n : nat) (acc : string) (init : option Z) :
  (n < fuel)%nat ->
  exists v,
    parse_digits (digits_of_pos fuel n acc) init = parse_digits acc (Some v)
    /\ (default 0 init = 0 -> v = Z.of_nat n).
Proof.
  revert n acc init. induction fuel as [| fuel IH]; intros n acc init Hn; [lia |].
  cbn [digits_of_pos].
  assert (Hd : (n mod 10 < 10)%nat) by (apply Nat.mod_upper_bound; lia).
  pose proof (Nat.div_mod_eq n 10) as Hdm.
  destruct (n / 10)%nat as [| q] eqn:Hq.
  - cbn [parse_digits]. rewrite (digit_value_digit _ Hd). eexists. split; [reflexivity |].
    intros ->. lia.
  - destruct (IH (S q) (String (digit_of_nat (n mod 10)) acc) init) as (v & Hv & Hvn); [lia |].
    rewrite Hv. cbn [parse_digits]. rewrite (digit_value_digit _ Hd).
    eexists. split; [reflexivity |]. intros H0. rewrite (Hvn H0). cbn [default from_option id].
    lia.
Qed.

Lemma digits_of_pos_head (fuel n : nat) (acc : string) :
  (0 < fuel)%nat ->
  exists d rest, (d < 10)%nat /\ digits_of_pos fuel n acc = String (digit_of_nat d) rest.
Proof.
  revert n acc. induction fuel as [| fuel IH]; intros n acc Hf; [lia |].
  cbn [digits_of_pos].
  assert (Hd : (n mod 10 < 10)%nat) by (apply Nat.mod_upper_bound; lia).
  destruct (n / 10)%nat as [| q]; [eauto |].
  destruct fuel as [| fuel]; [cbn; eauto |]. apply IH. lia.
Qed.

(** parseInt reads back the index that toString printed. *)
Lemma parseInt_Z_toString (z : Z) : 0 <= z -> parseInt (Z_toString z) = Some z.
Proof.
  intros Hz. unfold Z_toString. destruct (Z.ltb_spec z 0); [lia |].
  unfold nat_toString.
  destruct (digits_of_pos_head (S (Z.to_nat z)) (Z.to_nat z) "" ltac:(lia))
    as (d & rest & Hd & Hhead).
  destruct (parse_digits_of_pos (S (Z.to_nat z)) (Z.to_nat z) "" None ltac:(lia))
    as (v & Hv & Hvz).
  rewrite Hhead in *. rewrite (digit_is_plain d rest Hd), Hv. cbn [parse_digits].
  rewrite Hvz by reflexivity. f_equal. lia.
Qed.

(** ** What the observers of a list are told *)

Lemma list_observer_calls_app (this : nat) (cs1 cs2 : list Call) :
  list_observer_calls this (cs1 ++ cs2)
  = list_observer_calls this cs1 ++ list_observer_calls this cs2.
Proof.
  induction cs1 as [| [o h d | l h d] cs1 IH]; cbn; [reflexivity | exact IH |].
  destruct (Nat.eqb l this); cbn; rewrite IH; reflexivity.
Qed.

Section ListCalls.
Variable E : Env.
Hypothesis HE : quiet E.

Lemma notifyObservers_loop_calls (n this : nat) (cd : Details) (i : nat) (w : World) :
  (i <= List.length (OList.m_observers (the_list (heap w) this)))%nat ->
  (List.length (OList.m_observers (the_list (heap w) this)) < i + n)%nat ->
  exists w',
    notifyObservers_loop E n this cd i w = Ret tt w'
    /\ keeps_observers (heap w) (heap w')
    /\ (forall o, observer_calls o (calls w') = observer_calls o (calls w))
    /\ forall l,
         list_observer_calls l (calls w')
         = list_observer_calls l (calls w)
           ++ (if Nat.eqb this l
               then map (fun obs => (obs, copy_for this cd obs))
                      (List.filter (told this cd)
                         (drop i (OList.m_observers (the_list (heap w) this))))
               else []).
Proof.
  revert i w. induction n as [| n IH]; intros i w Hle Hlt; [lia |].
  cbn [notifyObservers_loop].
  destruct (OList.m_observers (the_list (heap w) this) !! i) as [obs |] eqn:Hobs.
  - pose proof (lookup_lt_Some _ _ _ Hobs) as Hi.
    rewrite (drop_S _ _ _ Hobs). cbn [List.filter].
    assert (Hskip : negb (from_option (strict_eq (VList this)) false (object cd))
                    && negb (observesItemChanges obs) = negb (told this cd obs)).
    { unfold told. destruct (from_option (strict_eq (VList this)) false (object cd)),
        (observesItemChanges obs); reflexivity. }
    rewrite Hskip. destruct (told this cd obs) eqn:Htold; cbn [negb].
    + unfold bind, record_call, call_user. cbn [heap calls].
      match goal with
      | |- context [notifyObservers_loop E n this cd (S i) ?w1] => set (w1' := w1)
      end.
      pose proof (HE (callback obs) (VList this) (copy_for this cd obs) (heap w)) as Hk.
      assert (Hlen : OList.m_observers (the_list (heap w1') this)
                     = OList.m_observers (the_list (heap w) this)) by apply Hk.
      destruct (IH (S i) w1') as (w' & Hrun & Hkeep & Hc & Hl);
        [rewrite Hlen; lia | rewrite Hlen; lia |].
      exists w'. split; [exact Hrun |].
      split; [eapply keeps_observers_trans; [exact Hk | exact Hkeep] |].
      split.
      * intros o. rewrite Hc. subst w1'. cbn [calls].
        rewrite observer_calls_app. cbn. apply app_nil_r.
      * intros l. rewrite Hl, Hlen. subst w1'. cbn [calls heap].
        rewrite list_observer_calls_app. cbn [list_observer_calls].
        destruct (Nat.eqb this l); cbn [app map]; rewrite <- ?app_assoc; cbn [app];
          rewrite ?app_nil_r; reflexivity.
    + destruct (IH (S i) w) as (w' & Hrun & Hk & Hc & Hl); [lia | lia |].
      exists w'. auto.
  - exists w. split; [reflexivity |]. split; [apply keeps_observers_refl |].
    split; [reflexivity |]. intros l.
    apply lookup_ge_None in Hobs. rewrite drop_ge by lia. cbn.
    destruct (Nat.eqb this l); rewrite app_nil_r; reflexivity.
Qed.

Lemma notifyObservers_calls (gas this : nat) (cd : Details) (w : World) :
  (List.length (OList.m_observers (the_list (heap w) this)) < gas)%nat ->
  exists w',
    notifyObservers E gas this cd w = Ret tt w'
    /\ keeps_observers (heap w) (heap w')
    /\ (forall o, observer_calls o (calls w') = observer_calls o (calls w))
    /\ forall l,
         list_observer_calls l (calls w')
         = list_observer_calls l (calls w)
           ++ (if Nat.eqb this l
               then map (fun obs => (obs, copy_for this (list_details this cd) obs))
                      (List.filter (told this (list_details this cd))
                         (OList.m_observers (the_list (heap w) this)))
               else []).
Proof.
  intros Hlt. unfold notifyObservers. fold (list_details this cd).
  destruct (notifyObservers_loop_calls gas this (list_details this cd) 0 w)
    as (w' & Hrun & Hk & Hc & Hl); [lia | lia |].
  exists w'. auto.
Qed.

Lemma invoke_list_calls (gas o : nat) (h : ObserverHandle) (n : string) (old : Value)
    (w : World) :
  within gas (heap w) ->
  let d := mkDetails (Some (VObservable o)) (Some [VObservable o]) (Some (VObservable o))
             n old (userData h) None None None in
  exists w',
    invoke E gas o h d w = Ret tt w'
    /\ keeps_observers (heap w) (heap w')
    /\ forall l,
         list_observer_calls l (calls w')
         = list_observer_calls l (calls w) ++ forwarded (heap w) l o n old h.
Proof.
  intros Hin d. unfold invoke, bind, record_call, forwarded. cbn [heap calls].
  destruct (callbackFunction h) as [us item insertionIndex | k].
  - match goal with
    | |- context [notifyObservers E gas us ?info ?w1] =>
        destruct (notifyObservers_calls gas us info w1 (proj2 Hin us))
          as (w' & Hrun & Hkeep & _ & Hl)
    end.
    exists w'. split; [exact Hrun |]. split; [exact Hkeep |].
    intros l. rewrite Hl. cbn [calls heap]. rewrite list_observer_calls_app. cbn.
    rewrite app_nil_r. f_equal.
    destruct (Nat.eqb_spec us l) as [-> | Hne]; [| reflexivity].
    unfold list_details, copy_for, told. cbn.
    reflexivity.
  - unfold call_user. cbn [heap calls]. eexists. split; [reflexivity |].
    split; [apply HE |]. intros l. cbn [calls]. rewrite list_observer_calls_app. reflexivity.
Qed.

Lemma forwarded_keeps (h0 h1 : Heap) (l o : nat) (n : string) (old : Value)
    (h : ObserverHandle) :
  keeps_observers h0 h1 -> forwarded h1 l o n old h = forwarded h0 l o n old h.
Proof.
  intros [_ Hk]. unfold forwarded. rewrite Hk. reflexivity.
Qed.

Lemma notifyAll_loop_list_calls (gas o : nat) (nm : string) (old : Value) (ud : Value)
    (n i : nat) (w : World) :
  within gas (heap w) ->
  (i <= List.length (Obj.m_observers (the_object (heap w) o)))%nat ->
  (List.length (Obj.m_observers (the_object (heap w) o)) < i + n)%nat ->
  let cd := mkDetails None (Some [VObservable o]) (Some (VObservable o)) nm old ud
              None None None in
  exists w',
    notifyAll_loop E gas n o cd i w = Ret tt w'
    /\ keeps_observers (heap w) (heap w')
    /\ forall l,
         list_observer_calls l (calls w')
         = list_observer_calls l (calls w)
           ++ flat_map (forwarded (heap w) l o nm old)
                (drop i (Obj.m_observers (the_object (heap w) o))).
Proof.
  intros Hin Hle Hlt cd. revert i w Hin Hle Hlt.
  induction n as [| n IH]; intros i w Hin Hle Hlt; [lia |].
  cbn [notifyAll_loop].
  destruct (Obj.m_observers (the_object (heap w) o) !! i) as [h |] eqn:Hobs.
  - pose proof (lookup_lt_Some _ _ _ Hobs) as Hi.
    unfold bind. cbn [senders object name oldValue cd].
    destruct (invoke_list_calls gas o h nm old w Hin) as (w1 & Hrun & Hkeep & Hl1).
    cbv zeta in Hrun. rewrite Hrun.
    assert (Hlen : Obj.m_observers (the_object (heap w1) o)
                   = Obj.m_observers (the_object (heap w) o)) by apply Hkeep.
    destruct (IH (S i) w1) as (w' & Hrun' & Hkeep' & Hl');
      [eapply within_keeps; eassumption | rewrite Hlen; lia | rewrite Hlen; lia |].
    exists w'. split; [exact Hrun' |].
    split; [eapply keeps_observers_trans; eassumption |].
    intros l. rewrite Hl', Hl1, Hlen, <- app_assoc. f_equal.
    rewrite (drop_S _ _ _ Hobs). cbn [flat_map]. f_equal.
    apply flat_map_ext. intros a. apply forwarded_keeps. exact Hkeep.
  - exists w. split; [reflexivity |]. split; [apply keeps_observers_refl |].
    intros l. apply lookup_ge_None in Hobs. rewrite drop_ge by lia. cbn.
    rewrite app_nil_r. reflexivity.
Qed.

(** An assignment that changes a property installed by addProperty, in a
    program whose functions leave the observer arrays alone, reaches the
    observers of every list through the subscriptions the list holds on the
    object: for each subscription, each observer of the list that asked for the
    changes of items is called once, with the list as sender, the object
    and then the list as senders, the object as object, the name and the old
    value of the property, and the item and the index the subscription was
    made with; the observers that did not ask are not called. *)
Theorem item_changes_are_forwarded
    (gas o : nat) (n : string) (p : Property) (current v : Value) (w : World) :
  within gas (heap w) ->
  own (Obj.props (the_object (heap w) o)) n = Some p ->
  slot p = PlainSlot current ->
  strict_eq current v = false ->
  exists w',
    Observable.assign E gas o n v w = Ret tt w'
    /\ forall l,
         list_observer_calls l (calls w')
         = list_observer_calls l (calls w)
           ++ flat_map (forwarded (heap w) l o n current)
                (Obj.m_observers (the_object (heap w) o)).
Proof.
  intros Hin Hown Hslot Hne.
  unfold Observable.assign. rewrite bind_get_heap, Hown, Hslot, Hne.
  rewrite (bind_Ret _ _ _ _ _ (set_slot_ok o n _ p w Hown)).
  set (w1 := mkWorld _ (calls w)).
  assert (Hk : keeps_observers (heap w) (heap w1))
    by (apply set_object_keeps; reflexivity).
  unfold notifyAll.
  destruct (notifyAll_loop_list_calls gas o n current VUndefined gas 0 w1)
    as (w' & Hrun & _ & Hl).
  - eapply within_keeps; eassumption.
  - lia.
  - destruct Hk as [Hk _]. rewrite Hk. apply Hin.
  - exists w'. split; [exact Hrun |].
    intros l. rewrite Hl. rewrite drop_0. destruct Hk as [Hk1 Hk2].
    change (calls w1) with (calls w). rewrite Hk1. reflexivity.
Qed.
End ListCalls.

(** ** How add, remove, splice and an index assignment change a list *)

Lemma within_mono (gas gas' : nat) (h : Heap) :
  (gas' <= gas)%nat -> within gas' h -> within gas h.
Proof. intros Hle [H1 H2]. split; intros; [specialize (H1 o) | specialize (H2 l)]; lia. Qed.

Lemma the_list_lookup (h : Heap) (this : nat) (x : OList.t) :
  lists h !! this = Some x ->
  the_list h this = x /\ (this < List.length (lists h))%nat.
Proof.
  intros H. split; [unfold the_list; rewrite H; reflexivity |].
  eapply lookup_lt_Some. exact H.
Qed.

Section ListState.
Variable E : Env.
Variable this : nat.
Hypothesis HE : quiet E.
Hypothesis HU : untouched_list E this.

(** A pass of a list in a quiet program that leaves [this] alone. *)
Lemma list_pass (gas l : nat) (cd : Details) (w : World) :
  within gas (heap w) ->
  exists w',
    notifyObservers E gas l cd w = Ret tt w'
    /\ lists (heap w') !! this = lists (heap w) !! this
    /\ keeps_observers (heap w) (heap w')
    /\ forall l',
         list_observer_calls l' (calls w')
         = list_observer_calls l' (calls w)
           ++ (if Nat.eqb l l'
               then map (fun obs => (obs, copy_for l (list_details l cd) obs))
                      (List.filter (told l (list_details l cd))
                         (OList.m_observers (the_list (heap w) l)))
               else []).
Proof.
  intros Hin.
  destruct (notifyObservers_calls E HE gas l cd w (proj2 Hin l)) as (w' & Hrun & Hk & _ & Hc).
  destruct (notifyObservers_stable E gas
              (fun h => keeps_observers (heap w) h
                        /\ lists h !! this = lists (heap w) !! this))
    with (this := l) (cd := cd) (w := w) as (w'' & Hrun' & _ & Hl).
  - intros k t d h [Hk' Ho]. split.
    + eapply keeps_observers_trans; [exact Hk' | apply HE].
    + rewrite HU. exact Ho.
  - intros h [Hk' _]. eapply within_keeps; eassumption.
  - split; [apply keeps_observers_refl | reflexivity].
  - rewrite Hrun in Hrun'. injection Hrun' as <-.
    exists w'. split; [exact Hrun |]. split; [exact Hl |].
    split; [exact Hk | exact Hc].
Qed.

(** A change of the list itself reaches every observer. *)
Lemma told_all (gas : nat) (n : string) (old : Value) (kind : string) (index : Z)
    (w : World) :
  within gas (heap w) ->
  let cd := mkDetails None None (Some (VList this)) n old VUndefined (Some kind) None
              (Some index) in
  exists w',
    notifyObservers E gas this cd w = Ret tt w'
    /\ lists (heap w') !! this = lists (heap w) !! this
    /\ keeps_observers (heap w) (heap w')
    /\ list_observer_calls this (calls w')
       = list_observer_calls this (calls w)
         ++ map (fun obs =>
                   (obs, mkDetails (Some (VList this)) (Some [VList this]) (Some (VList this))
                           n old (luserData obs) (Some kind) None (Some index)))
              (OList.m_observers (the_list (heap w) this)).
Proof.
  intros Hin cd. destruct (list_pass gas this cd w Hin) as (w' & Hrun & Hl & Hin' & Hc).
  exists w'. split; [exact Hrun |]. split; [exact Hl |]. split; [exact Hin' |].
  rewrite Hc, Nat.eqb_refl. f_equal. clear Hc Hrun Hl Hin' Hin.
  unfold told, list_details, copy_for. cbn. rewrite Nat.eqb_refl. cbn.
  induction (OList.m_observers (the_list (heap w) this)) as [| obs l IH]; [reflexivity |].
  cbn. rewrite IH. reflexivity.
Qed.

Lemma within_set_object (gas o : nat) (x' : Obj.t) (h : Heap) :
  (List.length (Obj.m_observers x') < gas)%nat ->
  within gas h -> within gas (set_object o x' h).
Proof.
  intros Hx [H1 H2]. split; [| exact H2].
  intros o'. unfold the_object, set_object. cbn [observables].
  destruct (decide (o' = o)) as [-> | Hne].
  - destruct (decide (o < List.length (observables h))%nat) as [Hlt | Hge].
    + rewrite list_lookup_insert_eq by exact Hlt. exact Hx.
    + rewrite list_insert_ge by lia. apply H1.
  - rewrite list_lookup_insert_ne by congruence. apply H1.
Qed.

Lemma observe_item_within (gas : nat) (item : Value) (index : Z) (w : World) :
  within gas (heap w) ->
  exists w1,
    ObservableList.observe_item this item index w
    = Ret (subscription (heap w) this item index) w1
    /\ lists (heap w1) = lists (heap w)
    /\ calls w1 = calls w
    /\ within (S gas) (heap w1).
Proof.
  intros Hin.
  assert (Hnone : exists w1 : World,
             Ret (@None ObserverHandle) w = Ret None w1
             /\ lists (heap w1) = lists (heap w) /\ calls w1 = calls w
             /\ within (S gas) (heap w1)).
  { exists w. split; [reflexivity |]. split; [reflexivity |]. split; [reflexivity |].
    apply (within_mono (S gas) gas); [lia | exact Hin]. }
  destruct item as [| | b | z | | s | o | l | c r | r]; try exact Hnone. clear Hnone.
  unfold ObservableList.observe_item, Observable.addChangeObserver, bind, get_heap,
    put_heap, ret, subscription.
  cbn [loosely_undefined heap calls].
  eexists. split; [reflexivity |]. split; [reflexivity |]. split; [reflexivity |].
  cbn [heap].
  match goal with
  | |- within _ (mkHeap (<[?o' := ?x']> _) _ _) =>
      pose proof (within_set_object (S gas) o' x' (heap w)) as Hset
  end.
  destruct Hin as [H1 H2].
  destruct Hset as [S1 S2].
  - cbn [set_observers Obj.m_observers]. rewrite length_app. cbn [List.length].
    specialize (H1 o). lia.
  - split; intros; [specialize (H1 o0) | specialize (H2 l)]; lia.
  - split; [exact S1 | exact S2].
Qed.

Lemma length_delete_le {A} (l : list A) (i : nat) :
  (List.length (delete i l) <= List.length l)%nat.
Proof.
  rewrite delete_take_drop, length_app, length_take, length_drop. lia.
Qed.

Lemma unobserve_item_returns (tuple : Value * option ObserverHandle) (w : World) :
  exists w1,
    ObservableList.unobserve_item tuple w = Ret tt w1
    /\ lists (heap w1) = lists (heap w)
    /\ next_handle (heap w1) = next_handle (heap w)
    /\ calls w1 = calls w
    /\ forall g, within g (heap w) -> within g (heap w1).
Proof.
  assert (Hnone : exists w1 : World,
             Ret tt w = Ret tt w1
             /\ lists (heap w1) = lists (heap w)
             /\ next_handle (heap w1) = next_handle (heap w) /\ calls w1 = calls w
             /\ forall g, within g (heap w) -> within g (heap w1)).
  { exists w. split; [reflexivity |]. split; [reflexivity |]. split; [reflexivity |].
    split; [reflexivity |]. auto. }
  destruct tuple as [item [handle |]];
    destruct item as [| | b | z | | s | o | l | c r | r]; try exact Hnone.
  unfold ObservableList.unobserve_item, Observable.removeChangeObserver.
  unfold bind at 1. rewrite bind_get_heap.
  destruct (Observable.find_handle _ _ _) as [i |].
  - unfold bind, put_heap, ret. eexists. split; [reflexivity |].
    split; [reflexivity |]. split; [reflexivity |]. split; [reflexivity |].
    cbn [heap]. intros g Hin.
    apply within_set_object; [| exact Hin].
    cbn [set_observers Obj.m_observers].
    pose proof (length_delete_le (Obj.m_observers (the_object (heap w) o)) i).
    pose proof (proj1 Hin o). lia.
  - exact Hnone.
Qed.

Lemma put_storage_returns (st : list (Value * option ObserverHandle)) (x : OList.t)
    (w : World) :
  lists (heap w) !! this = Some x ->
  exists w1,
    ObservableList.put_storage this st w = Ret tt w1
    /\ lists (heap w1) !! this = Some (set_storage st x)
    /\ calls w1 = calls w
    /\ keeps_observers (heap w) (heap w1).
Proof.
  intros Hx. destruct (the_list_lookup _ _ _ Hx) as [Hthe Hlt].
  unfold ObservableList.put_storage. rewrite bind_get_heap. unfold put_heap.
  eexists. split; [reflexivity |]. cbn [heap calls]. rewrite Hthe.
  split; [unfold set_list; cbn [lists]; apply list_lookup_insert_eq; exact Hlt |].
  split; [reflexivity |].
  split; [reflexivity |].
  intros l. unfold the_list, set_list. cbn [lists].
  destruct (decide (l = this)) as [-> | Hne].
  - rewrite list_lookup_insert_eq by exact Hlt. rewrite Hx. reflexivity.
  - rewrite list_lookup_insert_ne by congruence. reflexivity.
Qed.

Lemma add_at_returns
    (gas gas' : nat) (item : Value) (k : Z) (x : OList.t) (w : World) :
  within gas' (heap w) -> (gas' < gas)%nat ->
  lists (heap w) !! this = Some x ->
  from_option (fun validator => validator item) true (OList.m_addValidator x) = true ->
  0 <= k <= Z.of_nat (List.length (OList.m_storage x)) ->
  exists w',
    ObservableList.add_at E gas this item k w = Ret true w'
    /\ lists (heap w') !! this
       = Some (set_storage
                 (take (Z.to_nat k) (OList.m_storage x)
                    ++ (item, subscription (heap w) this item k)
                         :: drop (Z.to_nat k) (OList.m_storage x)) x)
    /\ within (S gas') (heap w')
    /\ list_observer_calls this (calls w')
       = list_observer_calls this (calls w)
         ++ map (fun obs => (obs, addition this k obs)) (OList.m_observers x).
Proof.
  intros Hin Hgas Hx Hval Hk.
  destruct (the_list_lookup _ _ _ Hx) as [Hthe Hlt].
  set (st := OList.m_storage x) in *.
  set (st' := take (Z.to_nat k) st
                ++ (item, subscription (heap w) this item k) :: drop (Z.to_nat k) st).
  unfold ObservableList.add_at. rewrite bind_get_heap, Hthe.
  assert (Hv : from_option (fun m_addValidator : Value -> bool => negb (m_addValidator item))
                 false (OList.m_addValidator x) = false).
  { destruct (OList.m_addValidator x) as [f |]; cbn in *; [rewrite Hval |]; reflexivity. }
  rewrite Hv.
  destruct (observe_item_within gas' item k w Hin) as (w1 & Hobs & Hl1 & Hc1 & Hin1).
  rewrite (bind_Ret _ _ _ _ _ Hobs), bind_get_heap.
  assert (Hx1 : lists (heap w1) !! this = Some x) by (rewrite Hl1; exact Hx).
  assert (Hst1 : ObservableList.storage_of (heap w1) this = st).
  { unfold ObservableList.storage_of. rewrite (proj1 (the_list_lookup _ _ _ Hx1)).
    reflexivity. }
  rewrite Hst1.
  assert (Hput : (if k =? Z.of_nat (List.length st)
                  then ObservableList.put_storage this
                         (st ++ [(item, subscription (heap w) this item k)])
                  else ObservableList.put_storage this st')
                 = ObservableList.put_storage this st').
  { destruct (Z.eqb_spec k (Z.of_nat (List.length st))) as [-> | _]; [| reflexivity].
    unfold st'. rewrite Nat2Z.id, take_ge, drop_ge by lia. reflexivity. }
  fold st' in Hput |- *. rewrite Hput.
  destruct (put_storage_returns st' x w1 Hx1) as (w2 & Hrun2 & Hx2 & Hc2 & Hk2).
  rewrite (bind_Ret _ _ _ _ _ Hrun2).
  assert (Hin2 : within (S gas') (heap w2)) by (eapply within_keeps; eassumption).
  destruct (told_all gas (Z_toString k) VUndefined "add" k w2
              (within_mono gas (S gas') _ ltac:(lia) Hin2))
    as (w' & Hrun & Hl' & Hk' & Hc).
  rewrite (bind_Ret _ _ _ _ _ Hrun).
  exists w'. split; [reflexivity |]. split; [rewrite Hl'; exact Hx2 |].
  split; [eapply within_keeps; eassumption |].
  rewrite Hc, Hc2, Hc1, (proj1 (the_list_lookup _ _ _ Hx2)). reflexivity.
Qed.

(** add with a number from 0 to the length for the index. *)
Lemma add_in_range (gas : nat) (item : Value) (k : Z) (w : World) :
  0 <= k <= ObservableList.length (heap w) this ->
  ObservableList.add E gas this item (IndexText (Z_toString k)) w
  = ObservableList.add_at E gas this item k w.
Proof.
  intros Hk. unfold ObservableList.add. rewrite bind_get_heap, (parseInt_Z_toString k) by lia.
  destruct (Z.ltb_spec k 0); [lia |].
  destruct (Z.gtb_spec k (ObservableList.length (heap w) this)); [lia |]. reflexivity.
Qed.


Lemma remove_notify_returns (gas : nat) (startIndex : Z)
    (removed : list (Value * option ObserverHandle)) (x : OList.t) :
  forall (i : Z) (w : World),
    within gas (heap w) -> lists (heap w) !! this = Some x ->
    exists w',
      ObservableList.remove_notify E gas this startIndex removed i w = Ret tt w'
      /\ lists (heap w') !! this = Some x
      /\ (forall g, within g (heap w) -> within g (heap w'))
      /\ list_observer_calls this (calls w')
         = list_observer_calls this (calls w)
           ++ concat (imap (fun j tuple =>
                              map (fun obs =>
                                     (obs, removal this (startIndex + i + Z.of_nat j)
                                             tuple.1 obs))
                                (OList.m_observers x)) removed).
Proof.
  induction removed as [| item rest IH]; intros i w Hin Hx.
  - exists w. split; [reflexivity |]. split; [exact Hx |]. split; [auto |].
    cbn. rewrite app_nil_r. reflexivity.
  - cbn [ObservableList.remove_notify].
    destruct (unobserve_item_returns item w) as (w1 & Hrun1 & Hl1 & _ & Hc1 & Hin1).
    rewrite (bind_Ret _ _ _ _ _ Hrun1).
    destruct (told_all gas (Z_toString (startIndex + i)) item.1 "remove" (i + startIndex)
                w1 (Hin1 _ Hin)) as (w2 & Hrun2 & Hl2 & Hk2 & Hc2).
    rewrite (bind_Ret _ _ _ _ _ Hrun2).
    assert (Hx2 : lists (heap w2) !! this = Some x) by (rewrite Hl2, Hl1; exact Hx).
    destruct (IH (i + 1) w2 (within_keeps _ _ _ Hk2 (Hin1 _ Hin)) Hx2)
      as (w' & Hrun & Hx' & Hin' & Hc).
    exists w'. split; [exact Hrun |]. split; [exact Hx' |].
    split; [intros g Hg; apply Hin'; eapply within_keeps; [exact Hk2 | apply Hin1; exact Hg] |].
    rewrite Hc, Hc2, Hc1. unfold the_list. rewrite Hl1, Hx. cbn [default from_option id].
    rewrite <- app_assoc. f_equal. rewrite imap_cons. cbn [concat]. f_equal.
    + apply map_ext. intros obs. unfold removal.
      replace (startIndex + i + Z.of_nat 0) with (startIndex + i) by lia.
      replace (i + startIndex) with (startIndex + i) by lia. reflexivity.
    + f_equal. apply imap_ext. intros j tuple _. cbn. apply map_ext. intros obs.
      replace (startIndex + (i + 1) + Z.of_nat j) with (startIndex + i + Z.of_nat (S j))
        by lia.
      reflexivity.
Qed.

Lemma set_storage_same (x : OList.t) : set_storage (OList.m_storage x) x = x.
Proof. destruct x; reflexivity. Qed.

Lemma remove_returns
    (gas : nat) (startIndex : Z) (count : option Z) (x : OList.t) (w : World) :
  within gas (heap w) ->
  lists (heap w) !! this = Some x ->
  let st := OList.m_storage x in
  0 <= startIndex ->
  let n := taken_out (Z.of_nat (List.length st)) startIndex (default 1 count) in
  exists w',
    ObservableList.remove E gas this startIndex count w = Ret (Z.of_nat n) w'
    /\ lists (heap w') !! this
       = Some (set_storage (take (Z.to_nat startIndex) st ++ drop (Z.to_nat startIndex + n) st)
                 x)
    /\ (forall g, within g (heap w) -> within g (heap w'))
    /\ list_observer_calls this (calls w')
       = list_observer_calls this (calls w)
         ++ concat (imap (fun j tuple =>
                            map (fun obs =>
                                   (obs, removal this (startIndex + Z.of_nat j) tuple.1 obs))
                              (OList.m_observers x))
                      (take n (drop (Z.to_nat startIndex) st))).
Proof.
  intros Hin Hx st Hstart n.
  destruct (the_list_lookup _ _ _ Hx) as [Hthe Hlt].
  unfold ObservableList.remove. rewrite bind_get_heap.
  unfold ObservableList.length, ObservableList.storage_of. rewrite Hthe. fold st.
  unfold taken_out in n.
  destruct ((startIndex <? 0) || (startIndex >=? Z.of_nat (List.length st))) eqn:Hout.
  { exists w. subst n. cbn [orb take]. split; [reflexivity |].
    rewrite Nat.add_0_r, take_drop. unfold st. rewrite set_storage_same.
    split; [exact Hx |]. split; [auto |]. cbn. rewrite app_nil_r. reflexivity. }
  cbn [orb] in n.
  destruct (default 1 count <=? 0) eqn:Hcount.
  { exists w. subst n. cbn [take]. split; [reflexivity |].
    rewrite Nat.add_0_r, take_drop. unfold st. rewrite set_storage_same.
    split; [exact Hx |]. split; [auto |]. cbn. rewrite app_nil_r. reflexivity. }
  apply orb_false_iff in Hout. destruct Hout as [_ Hge].
  rewrite Z.geb_leb in Hge. apply Z.leb_gt in Hge. apply Z.leb_gt in Hcount.
  set (count' := if startIndex + default 1 count >? Z.of_nat (List.length st)
                 then Z.of_nat (List.length st) - startIndex else default 1 count).
  assert (Hn : Z.to_nat count' = n).
  { unfold count', n. destruct (Z.gtb_spec (startIndex + default 1 count)
                                  (Z.of_nat (List.length st))); lia. }
  rewrite Hn.
  destruct (put_storage_returns
              (take (Z.to_nat startIndex) st ++ drop (Z.to_nat startIndex + n) st) x w Hx)
    as (w1 & Hrun1 & Hx1 & Hc1 & Hk1).
  rewrite (bind_Ret _ _ _ _ _ Hrun1).
  destruct (remove_notify_returns gas startIndex (take n (drop (Z.to_nat startIndex) st))
              _ 0 w1 (within_keeps _ _ _ Hk1 Hin) Hx1) as (w' & Hrun & Hx' & Hin' & Hc).
  rewrite (bind_Ret _ _ _ _ _ Hrun).
  exists w'. split; [| split; [exact Hx' | split; [|]]].
  - unfold ret. do 2 f_equal. rewrite length_take, length_drop. lia.
  - intros g Hg. apply Hin'. eapply within_keeps; [exact Hk1 | exact Hg].
  - rewrite Hc, Hc1. f_equal. f_equal. apply imap_ext. intros j tuple _. cbn.
    apply map_ext. intros obs. replace (startIndex + 0 + Z.of_nat j)
      with (startIndex + Z.of_nat j) by lia. reflexivity.
Qed.

(** remove with a start index inside the list and a positive count (1 when
    omitted), in such a program: it returns the count cut down to what the list
    holds from the start index, leaves the items before and after that range,
    and calls every observer of the list once for each item taken out, first
    item first, with the "remove" details: the item as old value and the
    index the item had before the call. *)
Theorem remove_takes_the_range_out
    (gas : nat) (startIndex : Z) (count : option Z) (x : OList.t) (w : World) :
  within gas (heap w) ->
  lists (heap w) !! this = Some x ->
  let st := OList.m_storage x in
  0 <= startIndex < Z.of_nat (List.length st) ->
  0 < default 1 count ->
  let n := Z.to_nat (Z.min (default 1 count) (Z.of_nat (List.length st) - startIndex)) in
  exists w',
    ObservableList.remove E gas this startIndex count w = Ret (Z.of_nat n) w'
    /\ ObservableList.storage_of (heap w') this
       = take (Z.to_nat startIndex) st ++ drop (Z.to_nat startIndex + n) st
    /\ list_observer_calls this (calls w')
       = list_observer_calls this (calls w)
         ++ concat (imap (fun j tuple =>
                            map (fun obs =>
                                   (obs, removal this (startIndex + Z.of_nat j) tuple.1 obs))
                              (OList.m_observers x))
                      (take n (drop (Z.to_nat startIndex) st))).
Proof.
  intros Hin Hx st Hstart Hcount n.
  destruct (remove_returns gas startIndex count x w Hin Hx ltac:(lia))
    as (w' & Hrun & Hx' & _ & Hc).
  assert (Hn : taken_out (Z.of_nat (List.length (OList.m_storage x))) startIndex
                 (default 1 count) = n).
  { unfold taken_out. fold st. destruct (Z.ltb_spec startIndex 0); [lia |].
    rewrite Z.geb_leb. destruct (Z.leb_spec (Z.of_nat (List.length st)) startIndex); [lia |].
    destruct (Z.leb_spec (default 1 count) 0); [lia |]. reflexivity. }
  rewrite Hn in Hrun, Hx', Hc. fold st in Hx', Hc.
  exists w'. split; [exact Hrun |]. split; [| exact Hc].
  unfold ObservableList.storage_of. rewrite (proj1 (the_list_lookup _ _ _ Hx')). reflexivity.
Qed.

End ListState.

(** What Array.prototype.splice leaves when it deletes to the end, and when
    it deletes nothing. *)
Lemma Array_splice_rest (array : list Value) (start : Z) (items : list Value) :
  UndoRedo.Array_splice array start (Z.of_nat (List.length array)) items
  = take (settled_start array start) array ++ items.
Proof.
  unfold UndoRedo.Array_splice, settled_start. cbv zeta.
  set (len := Z.of_nat (List.length array)).
  set (s := if start <? 0 then Z.max (len + start) 0 else Z.min start len).
  assert (Hs : 0 <= s <= len).
  { unfold s. destruct (Z.ltb_spec start 0); unfold len; lia. }
  rewrite drop_ge by (unfold len in *; lia).
  rewrite app_nil_r. reflexivity.
Qed.

Lemma Array_splice_none (array : list Value) (start : Z) (items : list Value) :
  UndoRedo.Array_splice array start 0 items
  = take (settled_start array start) array ++ items ++ drop (settled_start array start) array.
Proof.
  unfold UndoRedo.Array_splice, settled_start. cbv zeta.
  set (len := Z.of_nat (List.length array)).
  set (s := if start <? 0 then Z.max (len + start) 0 else Z.min start len).
  assert (Hs : 0 <= s <= len).
  { unfold s. destruct (Z.ltb_spec start 0); unfold len; lia. }
  replace (s + Z.min (Z.max 0 0) (len - s)) with s by lia.
  reflexivity.
Qed.

Section ListSplice.
Variable E : Env.
Variable this : nat.
Hypothesis HE : quiet E.
Hypothesis HU : untouched_list E this.

Lemma splice_insert_returns (gas : nat) (s : Z) (items : list Value) :
  forall (k : Z) (gas' : nat) (xc : OList.t) (w : World),
    within gas' (heap w) -> (gas' + List.length items <= gas)%nat ->
    lists (heap w) !! this = Some xc ->
    (forall item, In item items ->
       from_option (fun validator => validator item) true (OList.m_addValidator xc) = true) ->
    0 <= s -> 0 <= k -> s + k <= Z.of_nat (List.length (OList.m_storage xc)) ->
    exists w' xc',
      ObservableList.splice_insert E gas this s items k w = Ret tt w'
      /\ lists (heap w') !! this = Some xc'
      /\ map fst (OList.m_storage xc')
         = take (Z.to_nat (s + k)) (map fst (OList.m_storage xc)) ++ items
             ++ drop (Z.to_nat (s + k)) (map fst (OList.m_storage xc)).
Proof.
  induction items as [| item rest IH]; intros k gas' xc w Hin Hgas Hx Hval Hs Hk Hlen.
  - exists w, xc. split; [reflexivity |]. split; [exact Hx |]. cbn [app].
    rewrite take_drop. reflexivity.
  - cbn [ObservableList.splice_insert]. cbn [List.length] in Hgas.
    assert (Hrange : 0 <= s + k <= ObservableList.length (heap w) this).
    { unfold ObservableList.length, ObservableList.storage_of.
      rewrite (proj1 (the_list_lookup _ _ _ Hx)). lia. }
    destruct (add_at_returns E this HE HU gas gas' item (s + k) xc w Hin ltac:(lia) Hx
                (Hval item (or_introl eq_refl)) ltac:(lia))
      as (w1 & Hrun1 & Hx1 & Hin1 & _).
    rewrite <- (add_in_range E this gas item (s + k) w Hrange) in Hrun1.
    rewrite (bind_Ret _ _ _ _ _ Hrun1).
    set (stc := OList.m_storage xc) in *.
    set (st1 := take (Z.to_nat (s + k)) stc
                  ++ (item, subscription (heap w) this item (s + k))
                       :: drop (Z.to_nat (s + k)) stc) in *.
    assert (Hlen1 : List.length st1 = S (List.length stc)).
    { unfold st1. rewrite length_app, length_take. cbn [List.length]. rewrite length_drop.
      lia. }
    destruct (IH (k + 1) (S gas') (set_storage st1 xc) w1 Hin1 ltac:(lia) Hx1)
      as (w' & xc' & Hrun & Hx' & Hst').
    + intros it Hit. cbn [set_storage OList.m_addValidator]. apply Hval. right. exact Hit.
    + exact Hs.
    + lia.
    + cbn [set_storage OList.m_storage]. rewrite Hlen1. lia.
    + exists w', xc'. split; [exact Hrun |]. split; [exact Hx' |].
      rewrite Hst'. cbn [set_storage OList.m_storage]. unfold st1.
      rewrite map_app. cbn [map fst]. rewrite <- firstn_map, <- skipn_map.
      set (A := map fst stc).
      assert (HA : (Z.to_nat (s + k) <= List.length A)%nat)
        by (unfold A; rewrite length_map; lia).
      replace (Z.to_nat (s + (k + 1))) with (Z.to_nat (s + k) + 1)%nat by lia.
      rewrite take_app_add' by (rewrite length_take; lia).
      rewrite drop_app_add' by (rewrite length_take; lia).
      cbn [take firstn drop skipn]. rewrite <- app_assoc. reflexivity.
Qed.

(** splice, with items the validator accepts, in such a program: the list
    afterwards, in terms of Array.prototype.splice with an integer delete
    count, which is the length when the list is given none. *)
Lemma splice_leaves
    (gas gas' : nat) (startIndex : Z) (deleteCount : option Z) (items : list Value)
    (x : OList.t) (w : World) :
  within gas' (heap w) -> (gas' + List.length items <= gas)%nat ->
  lists (heap w) !! this = Some x ->
  (forall item, In item items ->
     from_option (fun validator => validator item) true (OList.m_addValidator x) = true) ->
  exists removedItems w',
    ObservableList.splice E gas this startIndex deleteCount items w = Ret removedItems w'
    /\ ObservableList.toArray (heap w') this
       = UndoRedo.Array_splice (ObservableList.toArray (heap w) this) startIndex
           (default (ObservableList.length (heap w) this) deleteCount) items.
Proof.
  intros Hin Hgas Hx Hval.
  destruct (the_list_lookup _ _ _ Hx) as [Hthe Hlt].
  unfold ObservableList.splice. rewrite bind_get_heap.
  unfold ObservableList.toArray at 2, ObservableList.length, ObservableList.storage_of.
  rewrite Hthe.
  set (st := OList.m_storage x).
  set (len := Z.of_nat (List.length st)).
  set (s := ObservableList.splice_start len startIndex).
  assert (Hs : 0 <= s <= len).
  { unfold s, ObservableList.splice_start, len.
    destruct (Z.gtb_spec startIndex (Z.of_nat (List.length st))); [lia |].
    destruct (Z.ltb_spec startIndex (- Z.of_nat (List.length st))); [lia |].
    destruct (Z.ltb_spec startIndex 0); lia. }
  set (dc := match deleteCount with
             | Some deleteCount0 =>
                 if deleteCount0 >? len - s then len - s else deleteCount0
             | None => len - s
             end).
  destruct (remove_returns E this HE HU gas s (Some dc) x w
              (within_mono gas gas' _ ltac:(lia) Hin) Hx ltac:(lia))
    as (w1 & Hrun1 & Hx1 & Hg1 & _).
  fold st len in Hrun1, Hx1. cbn [default from_option id] in Hrun1, Hx1.
  set (n := taken_out len s dc) in *.
  rewrite (bind_Ret _ _ _ _ _ Hrun1).
  assert (Hin1 : within gas' (heap w1)) by (apply Hg1; exact Hin).
  set (st1 := take (Z.to_nat s) st ++ drop (Z.to_nat s + n) st) in *.
  assert (Hn : (Z.to_nat s + n <= List.length st)%nat).
  { unfold n, taken_out. destruct (_ || _ || _); unfold len in *; lia. }
  destruct (splice_insert_returns gas s items 0 gas' (set_storage st1 x) w1 Hin1 Hgas Hx1)
    as (w' & xc' & Hrun & Hx' & Hst').
  - exact Hval.
  - lia.
  - lia.
  - cbn [set_storage OList.m_storage]. unfold st1.
    rewrite length_app, length_take, length_drop. unfold len in *. lia.
  - rewrite (bind_Ret _ _ _ _ _ Hrun).
    eexists. exists w'. split; [reflexivity |].
    unfold ObservableList.toArray, ObservableList.storage_of.
    rewrite (proj1 (the_list_lookup _ _ _ Hx')), Hst'.
    cbn [set_storage OList.m_storage]. rewrite Z.add_0_r. unfold st1.
    rewrite map_app, <- firstn_map, <- skipn_map.
    set (A := map fst st).
    assert (HA : List.length A = List.length st) by apply length_map.
    rewrite take_app_length' by (rewrite length_take; lia).
    rewrite drop_app_length' by (rewrite length_take; lia).
    unfold UndoRedo.Array_splice. cbv zeta. rewrite HA. fold len.
    assert (Hstart : (if startIndex <? 0 then Z.max (len + startIndex) 0
                      else Z.min startIndex len) = s).
    { unfold s, ObservableList.splice_start.
      destruct (Z.gtb_spec startIndex len); destruct (Z.ltb_spec startIndex (- len));
        destruct (Z.ltb_spec startIndex 0); lia. }
    rewrite Hstart.
    assert (Hdel : Z.min (Z.max (default len deleteCount) 0) (len - s) = Z.of_nat n).
    { unfold n, taken_out, dc. destruct (Z.ltb_spec s 0); [lia |]. rewrite Z.geb_leb.
      destruct (Z.leb_spec len s); cbn [orb]; [destruct deleteCount; cbn; lia |].
      destruct deleteCount as [d |]; cbn [default from_option id].
      + destruct (Z.gtb_spec d (len - s));
          match goal with |- context [?a <=? 0] => destruct (Z.leb_spec a 0) end; lia.
      + destruct (Z.leb_spec (len - s) 0); lia. }
    rewrite Hdel. replace (Z.to_nat (s + Z.of_nat n)) with (Z.to_nat s + n)%nat by lia.
    reflexivity.
Qed.

(** splice against Array.prototype.splice, with items the validator accepts,
    in such a program.  The call always returns.  With an integer delete count,
    and when called with the start index alone, the list is left holding
    exactly what the array method leaves in an array of the same items for the
    same arguments.  With an undefined delete count the list loses everything
    from the start index on before the items go in, where the array method
    deletes nothing: the two agree only when no item stands at or after the
    start index. *)
Theorem splice_compared_with_Array_splice
    (gas gas' : nat) (startIndex : Z) (deleteCount : CountArg) (items : list Value)
    (x : OList.t) (w : World) :
  within gas' (heap w) -> (gas' + List.length items <= gas)%nat ->
  lists (heap w) !! this = Some x ->
  (forall item, In item items ->
     from_option (fun validator => validator item) true (OList.m_addValidator x) = true) ->
  (deleteCount = CountOmitted -> items = []) ->
  exists removedItems w',
    ObservableList.splice E gas this startIndex (list_count deleteCount) items w
    = Ret removedItems w'
    /\ let array := ObservableList.toArray (heap w) this in
       let left := ObservableList.toArray (heap w') this in
       match deleteCount with
       | CountUndefined =>
           left = take (settled_start array startIndex) array ++ items
           /\ (left = Array_splice_call array startIndex deleteCount items
               <-> (List.length array <= settled_start array startIndex)%nat)
       | CountOmitted | CountInt _ =>
           left = Array_splice_call array startIndex deleteCount items
       end.
Proof.
  intros Hin Hgas Hx Hval Hitems.
  destruct (splice_leaves gas gas' startIndex
              (list_count deleteCount) items x w Hin Hgas Hx Hval)
    as (removedItems & w' & Hrun & Hleft).
  exists removedItems, w'. split; [exact Hrun |]. cbv zeta.
  assert (Hlen : ObservableList.length (heap w) this
                 = Z.of_nat (List.length (ObservableList.toArray (heap w) this))).
  { unfold ObservableList.length, ObservableList.toArray. rewrite length_map. reflexivity. }
  destruct deleteCount as [| | d]; cbn [list_count default from_option id] in Hleft;
    cbn [Array_splice_call].
  - rewrite Hleft, Hlen, (Hitems eq_refl). reflexivity.
  - rewrite Hlen, Array_splice_rest in Hleft. split; [exact Hleft |].
    rewrite Hleft, Array_splice_none.
    set (array := ObservableList.toArray (heap w) this).
    set (s := settled_start array startIndex).
    split.
    + intros Heq. apply app_inv_head in Heq.
      apply (f_equal (@List.length Value)) in Heq.
      rewrite length_app, length_drop in Heq. lia.
    + intros Hle. rewrite (drop_ge array s Hle), app_nil_r. reflexivity.
  - exact Hleft.
Qed.
(** clear, in such a program, leaves the list empty and calls every observer
    of the list once for each item, first item first, with the "remove"
    details and the index the item had before the call. *)
Theorem clear_empties_the_list (gas : nat) (x : OList.t) (w : World) :
  within gas (heap w) ->
  lists (heap w) !! this = Some x ->
  exists w',
    ObservableList.clear E gas this w = Ret tt w'
    /\ ObservableList.storage_of (heap w') this = []
    /\ list_observer_calls this (calls w')
       = list_observer_calls this (calls w)
         ++ concat (imap (fun j tuple =>
                            map (fun obs => (obs, removal this (Z.of_nat j) tuple.1 obs))
                              (OList.m_observers x))
                      (OList.m_storage x)).
Proof.
  intros Hin Hx.
  destruct (the_list_lookup _ _ _ Hx) as [Hthe Hlt].
  unfold ObservableList.clear. rewrite bind_get_heap.
  unfold ObservableList.length, ObservableList.storage_of. rewrite Hthe.
  set (st := OList.m_storage x).
  destruct (remove_returns E this HE HU gas 0 (Some (Z.of_nat (List.length st))) x w Hin Hx
              ltac:(lia)) as (w' & Hrun & Hx' & _ & Hc).
  fold st in Hrun, Hx', Hc. cbn [default from_option id] in Hrun, Hx', Hc.
  assert (Hn : taken_out (Z.of_nat (List.length st)) 0 (Z.of_nat (List.length st))
               = List.length st).
  { unfold taken_out. change (0 <? 0) with false. cbn [orb]. rewrite Z.geb_leb.
    destruct (Z.leb_spec (Z.of_nat (List.length st)) 0); cbn [orb]; [lia |].
    destruct (Z.leb_spec (Z.of_nat (List.length st)) 0); lia. }
  rewrite Hn in Hrun, Hx', Hc.
  rewrite (bind_Ret _ _ _ _ _ Hrun).
  exists w'. split; [reflexivity |]. split.
  - rewrite (proj1 (the_list_lookup _ _ _ Hx')). cbn [set_storage OList.m_storage].
    cbn [Z.to_nat take firstn]. rewrite drop_ge by lia. reflexivity.
  - rewrite Hc. cbn [Z.to_nat]. rewrite drop_0, take_ge by lia. reflexivity.
Qed.
End ListSplice.

Lemma notifyObservers_nobody (E : Env) (gas this : nat) (cd : Details) (w : World) :
  (0 < gas)%nat ->
  OList.m_observers (the_list (heap w) this) = [] ->
  notifyObservers E gas this cd w = Ret tt w.
Proof.
  intros Hgas Hobs. unfold notifyObservers. destruct gas as [| gas]; [lia |].
  cbn [notifyObservers_loop]. rewrite Hobs. reflexivity.
Qed.

(** Adding to a list nobody observes. *)
Lemma add_unobserved (E : Env) (gas this : nat) (item : Value)
    (st : list (Value * option ObserverHandle)) (validator : option (Value -> bool))
    (w : World) :
  (0 < gas)%nat ->
  lists (heap w) !! this = Some (OList.mk st [] validator) ->
  exists w' st',
    (ObservableList.add E gas this item IndexUndefined ;;; ret tt) w = Ret tt w'
    /\ lists (heap w') !! this = Some (OList.mk st' [] validator)
    /\ map fst st'
       = map fst st ++ (if from_option (fun v => v item) true validator then [item] else [])
    /\ calls w' = calls w.
Proof.
  intros Hgas Hx.
  destruct (the_list_lookup _ _ _ Hx) as [Hthe Hlt].
  unfold ObservableList.add. unfold bind at 1. rewrite bind_get_heap.
  unfold ObservableList.add_at. rewrite bind_get_heap, Hthe. cbn [OList.m_addValidator].
  destruct (from_option (fun v => v item) true validator) eqn:Hacc.
  - assert (Hv : from_option (fun m_addValidator : Value -> bool => negb (m_addValidator item))
                   false validator = false).
    { destruct validator as [v |]; cbn in *; [rewrite Hacc |]; reflexivity. }
    rewrite Hv.
    destruct (observe_item_returns this item (ObservableList.length (heap w) this) w)
      as (handle & w1 & Hobs & Hl1 & Hc1 & _).
    rewrite (bind_Ret _ _ _ _ _ Hobs), bind_get_heap.
    assert (Hx1 : lists (heap w1) !! this = Some (OList.mk st [] validator))
      by (rewrite Hl1; exact Hx).
    unfold ObservableList.length, ObservableList.storage_of.
    rewrite Hthe, (proj1 (the_list_lookup _ _ _ Hx1)). cbn [OList.m_storage].
    rewrite Z.eqb_refl.
    destruct (put_storage_returns this (st ++ [(item, handle)]) _ w1 Hx1)
      as (w2 & Hrun2 & Hx2 & Hc2 & _).
    rewrite (bind_Ret _ _ _ _ _ Hrun2).
    rewrite (bind_Ret _ _ _ _ _
               (notifyObservers_nobody E gas this _ w2 Hgas
                  ltac:(rewrite (proj1 (the_list_lookup _ _ _ Hx2)); reflexivity))).
    exists w2, (st ++ [(item, handle)]). split; [reflexivity |]. split; [exact Hx2 |].
    split; [rewrite map_app; reflexivity | congruence].
  - assert (Hv : from_option (fun m_addValidator : Value -> bool => negb (m_addValidator item))
                   false validator = true).
    { destruct validator as [v |]; cbn in *; [rewrite Hacc; reflexivity | discriminate]. }
    rewrite Hv. exists w, st. split; [reflexivity |]. split; [exact Hx |].
    rewrite app_nil_r. auto.
Qed.

(** The constructor with an array to copy returns a list that holds, in
    order, the items of the array the validator accepts (all of them without
    a validator), has no observers and keeps the validator; no observer of
    anything is called. *)
Theorem a_new_list_copies_what_the_validator_accepts
    (E : Env) (gas : nat) (addValidator : option (Value -> bool)) (items : list Value)
    (w : World) :
  (0 < gas)%nat ->
  let this := List.length (lists (heap w)) in
  exists w',
    ObservableList.ETO_ObservableList E gas addValidator (Some items) w = Ret this w'
    /\ ObservableList.toArray (heap w') this
       = List.filter (fun item => from_option (fun v => v item) true addValidator) items
    /\ OList.m_observers (the_list (heap w') this) = []
    /\ OList.m_addValidator (the_list (heap w') this) = addValidator
    /\ calls w' = calls w.
Proof.
  intros Hgas this.
  unfold ObservableList.ETO_ObservableList. rewrite bind_get_heap. fold this.
  unfold bind at 1, put_heap. cbn [default from_option id].
  set (w0 := mkWorld _ (calls w)).
  assert (Hx0 : lists (heap w0) !! this = Some (OList.mk [] [] addValidator)).
  { unfold w0, this. cbn [heap lists]. rewrite lookup_app_r by lia.
    rewrite Nat.sub_diag. reflexivity. }
  assert (Hloop : forall (l : list Value) st w1,
            lists (heap w1) !! this = Some (OList.mk st [] addValidator) ->
            exists w' st',
              for_each (fun item => ObservableList.add E gas this item IndexUndefined ;;; ret tt)
                l w1 = Ret tt w'
              /\ lists (heap w') !! this = Some (OList.mk st' [] addValidator)
              /\ map fst st'
                 = map fst st
                     ++ List.filter (fun item => from_option (fun v => v item) true addValidator)
                          l
              /\ calls w' = calls w1).
  { induction l as [| item l IH]; intros st w1 Hx1.
    - exists w1, st. split; [reflexivity |]. split; [exact Hx1 |].
      cbn. rewrite app_nil_r. auto.
    - cbn [for_each].
      destruct (add_unobserved E gas this item st addValidator w1 Hgas Hx1)
        as (w2 & st2 & Hrun2 & Hx2 & Hst2 & Hc2).
      rewrite (bind_Ret _ _ _ _ _ Hrun2).
      destruct (IH st2 w2 Hx2) as (w' & st' & Hrun & Hx' & Hst' & Hc').
      exists w', st'. split; [exact Hrun |]. split; [exact Hx' |].
      split; [| congruence].
      rewrite Hst', Hst2, <- app_assoc. f_equal. cbn [List.filter].
      destruct (from_option (fun v => v item) true addValidator); reflexivity. }
  destruct (Hloop items [] w0 Hx0) as (w' & st' & Hrun & Hx' & Hst' & Hc').
  rewrite (bind_Ret _ _ _ _ _ Hrun).
  exists w'. split; [reflexivity |].
  unfold ObservableList.toArray, ObservableList.storage_of.
  rewrite (proj1 (the_list_lookup _ _ _ Hx')). cbn [OList.m_storage OList.m_observers
                                                      OList.m_addValidator].
  split; [exact Hst' |]. split; [reflexivity |]. split; [reflexivity | exact Hc'].
Qed.

Lemma indexOf_from_drop (item : Value) (st : list (Value * option ObserverHandle)) (n : nat) :
  forall k : nat,
    (List.length st - k <= n)%nat ->
    let r := ObservableList.indexOf_from item (drop k st) (Z.of_nat k) in
    (r = -1
     /\ forall j tuple, (k <= j)%nat -> st !! j = Some tuple ->
          strict_eq item tuple.1 = false)
    \/ (exists j tuple,
          r = Z.of_nat j /\ (k <= j)%nat /\ st !! j = Some tuple
          /\ strict_eq item tuple.1 = true
          /\ forall j' tuple', (k <= j' < j)%nat -> st !! j' = Some tuple' ->
               strict_eq item tuple'.1 = false).
Proof.
  induction n as [| n IH]; intros k Hk r.
  - left. subst r. rewrite drop_ge by lia. split; [reflexivity |].
    intros j tuple Hj Hl. apply lookup_lt_Some in Hl. lia.
  - destruct (st !! k) as [[listItem h] |] eqn:Hlook.
    + subst r. rewrite (drop_S _ _ _ Hlook). cbn [ObservableList.indexOf_from].
      destruct (strict_eq item listItem) eqn:Heq.
      * right. exists k, (listItem, h). repeat split; auto. intros j' t' Hj'. lia.
      * replace (Z.of_nat k + 1) with (Z.of_nat (S k)) by lia.
        destruct (IH (S k) ltac:(lia)) as [[Hr Hno] | (j & tuple & Hr & Hj & Hl & Hm & Hno)].
        -- left. split; [exact Hr |]. intros j tuple Hj Hl.
           destruct (decide (j = k)) as [-> | Hne].
           ++ rewrite Hlook in Hl. injection Hl as <-. exact Heq.
           ++ apply (Hno j tuple); [lia | exact Hl].
        -- right. exists j, tuple. repeat split; auto; try lia.
           intros j' t' Hj' Hl'. destruct (decide (j' = k)) as [-> | Hne].
           ++ rewrite Hlook in Hl'. injection Hl' as <-. exact Heq.
           ++ apply (Hno j' t'); [lia | exact Hl'].
    + left. subst r. apply lookup_ge_None in Hlook. rewrite drop_ge by lia.
      split; [reflexivity |]. intros j tuple Hj Hl. apply lookup_lt_Some in Hl. lia.
Qed.

Lemma at_in_range (h : Heap) (this : nat) (j : nat) (tuple : Value * option ObserverHandle) :
  ObservableList.storage_of h this !! j = Some tuple ->
  ObservableList.at_ h this (Some (Z.of_nat j)) = tuple.1.
Proof.
  intros Hl. pose proof (lookup_lt_Some _ _ _ Hl) as Hlt.
  unfold ObservableList.at_, ObservableList.length.
  destruct (Z.ltb_spec (Z.of_nat j) 0); [lia |]. rewrite Z.geb_leb.
  destruct (Z.leb_spec (Z.of_nat (List.length (ObservableList.storage_of h this)))
              (Z.of_nat j)); [lia |].
  cbn [orb]. rewrite Nat2Z.id, Hl. reflexivity.
Qed.

(** indexOf returns -1 for a negative start index, whatever the list holds.
    From a start index that is not negative it returns the index of the first
    item at or after it that is identical (===) to the one sought, and -1
    exactly when there is none. *)
Theorem indexOf_finds_the_first_identical_item
    (h : Heap) (this : nat) (item : Value) (startIndex : option Z) :
  let r := ObservableList.indexOf h this item startIndex in
  let s := default 0 startIndex in
  let len := ObservableList.length h this in
  (s < 0 -> r = -1)
  /\ (0 <= s ->
      (r = -1
       /\ forall j, s <= j < len ->
            strict_eq item (ObservableList.at_ h this (Some j)) = false)
      \/ (s <= r < len
          /\ strict_eq item (ObservableList.at_ h this (Some r)) = true
          /\ forall j, s <= j < r ->
               strict_eq item (ObservableList.at_ h this (Some j)) = false)).
Proof.
  intros r s len. subst r. unfold ObservableList.indexOf. fold s.
  split.
  - intros Hs. destruct (Z.ltb_spec s 0); [reflexivity | lia].
  - intros Hs. destruct (Z.ltb_spec s 0); [lia |].
    set (st := ObservableList.storage_of h this).
    pose proof (indexOf_from_drop item st (List.length st) (Z.to_nat s) ltac:(lia)) as H0.
    cbv zeta in H0. rewrite Z2Nat.id in H0 by lia.
    destruct H0 as [[Hr Hno] | (j & tuple & Hr & Hj & Hl & Hm & Hno)].
    + left. split; [exact Hr |]. intros j Hjr. unfold len, ObservableList.length in Hjr.
      fold st in Hjr.
      destruct (st !! Z.to_nat j) as [tuple |] eqn:Hl;
        [| apply lookup_ge_None in Hl; lia].
      rewrite <- (Z2Nat.id j) by lia. rewrite (at_in_range h this _ tuple Hl).
      apply (Hno (Z.to_nat j) tuple); [lia | exact Hl].
    + right. rewrite Hr. pose proof (lookup_lt_Some _ _ _ Hl) as Hlt.
      split; [unfold len, ObservableList.length; fold st; lia |].
      split; [rewrite (at_in_range h this j tuple Hl); exact Hm |].
      intros j' Hj'.
      destruct (st !! Z.to_nat j') as [tuple' |] eqn:Hl';
        [| apply lookup_ge_None in Hl'; lia].
      rewrite <- (Z2Nat.id j') by lia. rewrite (at_in_range h this _ tuple' Hl').
      apply (Hno (Z.to_nat j') tuple'); [lia | exact Hl'].
Qed.

(** ** The facts above on the sample programs *)

Lemma nobody_untouched (this : nat) : untouched nobody this.
Proof. intros k t d h. reflexivity. Qed.

Lemma nobody_untouched_list (this : nat) : untouched_list nobody this.
Proof. intros k t d h. reflexivity. Qed.

Lemma shifted_list_within : within 2 (heap shifted_list).
Proof.
  split.
  - intros [| o]; vm_compute; lia.
  - intros [| l]; vm_compute; lia.
Qed.

Lemma private_world_describable : describable (the_object (heap private_world) 0).
Proof.
  split.
  - vm_compute.
    repeat (apply base.NoDup_cons_2;
            [rewrite list_elem_of_In; cbn; intuition discriminate |]).
    apply base.NoDup_nil_2.
  - reflexivity.
  - intros n p Hin. vm_compute in Hin.
    repeat (destruct Hin as [Hin | Hin];
            [injection Hin as <- <-; intros He; try discriminate He;
             repeat split; try discriminate; reflexivity |]).
    destruct Hin.
Qed.

Lemma a_read_only_property_stays_witness :
  exists w1,
    Observable.addROProperty nobody 5 0 (NameStr "limit") (VNum 3) None two_observers
    = Ret true w1
    /\ Observable.get (the_object (heap w1) 0) "limit" = VNum 3
    /\ (forall v', Observable.assign nobody 5 0 "limit" v' w1 = Ret tt w1)
    /\ Observable.removeProperty nobody 5 0 (NameStr "limit") w1 = Ret false w1.
Proof.
  destruct (a_read_only_property_stays nobody 5 0 nobody_quiet (nobody_untouched 0)
              "limit" (VNum 3) None two_observers two_observers_within
              ltac:(vm_compute; lia) ltac:(discriminate) eq_refl eq_refl eq_refl)
    as (w1 & H1 & H2 & _ & H3 & H4).
  exists w1. auto.
Defined.

Lemma a_private_property_changes_through_its_setter_only_witness :
  exists w1,
    Observable.addPropertyWithPrivateSet nobody 5 0 (NameStr "total") (VNum 7) None
      two_observers
    = Ret (Some (Observable.mkSetFunc 0 "total")) w1
    /\ (forall v', Observable.assign nobody 5 0 "total" v' w1 = Ret tt w1)
    /\ exists w2,
         Observable.setFunc nobody 5 (Observable.mkSetFunc 0 "total") (VNum 8) w1 = Ret tt w2
         /\ Observable.get (the_object (heap w2) 0) "total" = VNum 8.
Proof.
  destruct (a_private_property_changes_through_its_setter_only nobody 5 0 nobody_quiet
              (nobody_untouched 0) "total" (VNum 7) None two_observers two_observers_within
              ltac:(vm_compute; lia) ltac:(discriminate) eq_refl eq_refl eq_refl)
    as (w1 & H1 & _ & H2 & _ & H3).
  exists w1. split; [exact H1 |]. split; [exact H2 |].
  destruct (H3 (VNum 8)) as (w2 & H4 & H5 & _). exists w2. auto.
Defined.

Lemma add_then_remove_witness :
  exists w1 w2,
    Observable.addProperty nobody 5 0 (NameStr "p") (VNum 1) None None None two_observers
    = Ret true w1
    /\ Observable.get (the_object (heap w1) 0) "p" = VNum 1
    /\ Observable.removeProperty nobody 5 0 (NameStr "p") w1 = Ret true w2
    /\ the_object (heap w2) 0 = the_object (heap two_observers) 0.
Proof.
  apply (add_then_remove nobody 5 0 nobody_quiet (nobody_untouched 0) "p" (VNum 1) None None
           two_observers two_observers_within);
    [vm_compute; lia | discriminate | reflexivity | reflexivity | reflexivity | discriminate].
Defined.

Lemma a_sealed_object_is_closed_witness :
  exists w1,
    Observable.seal 0 two_observers = Ret tt w1
    /\ Observable.get (the_object (heap w1) 0) "x" = VNum 1
    /\ Observable.removeProperty nobody 5 0 (NameStr "x") w1 = Ret false w1
    /\ Observable.addProperty nobody 5 0 (NameStr "y") (VNum 2) None None None w1
       = Throw TypeError w1.
Proof.
  destruct (a_sealed_object_is_closed nobody 5 0 two_observers ltac:(vm_compute; lia))
    as (w1 & H1 & H2 & H3 & H4).
  exists w1. split; [exact H1 |]. split; [rewrite H2; reflexivity |].
  split; [apply H3; intros H; discriminate H |].
  apply H4; [discriminate | reflexivity | reflexivity].
Defined.

Lemma round_trip_keeps_what_toJSON_wrote_witness :
  exists arr this w',
    Observable.toJSON (the_object (heap private_world) 0)
    = Some (ETO_Observable_SerializedData arr)
    /\ Observable.ETO_Observable nobody 5 (SerializedData arr) (VBool false) private_world
       = Ret this w'
    /\ enumerable_facts (the_object (heap private_world) 0) "total"
       = Some (VNum 7, true, false, false)
    /\ enumerable_facts (the_object (heap w') this) "total" = Some (VNum 7, true, true, false).
Proof.
  destruct (round_trip_keeps_what_toJSON_wrote nobody 5 (the_object (heap private_world) 0)
              (VBool false) private_world ltac:(lia) private_world_describable)
    as (arr & this & w' & H1 & H2 & _ & H3).
  exists arr, this, w'. split; [exact H1 |]. split; [exact H2 |].
  exact (H3 "total" (mkProperty (PrivateSlot (VNum 7)) true false) (VNum 7)
           eq_refl eq_refl eq_refl).
Defined.

Lemma item_changes_are_forwarded_witness :
  exists w',
    Observable.assign nobody 5 0 "x" (VNum 2) shifted_list = Ret tt w'
    /\ list_observer_calls 0 (calls w')
       = list_observer_calls 0 (calls shifted_list)
         ++ flat_map (forwarded (heap shifted_list) 0 0 "x" (VNum 1))
              (Obj.m_observers (the_object (heap shifted_list) 0)).
Proof.
  destruct (item_changes_are_forwarded nobody nobody_quiet 5 0 "x"
              (mkProperty (PlainSlot (VNum 1)) true true) (VNum 1) (VNum 2) shifted_list
              (within_mono 5 2 _ ltac:(lia) shifted_list_within) eq_refl eq_refl eq_refl)
    as (w' & H1 & H2).
  exists w'. split; [exact H1 | exact (H2 0%nat)].
Defined.


Lemma remove_takes_the_range_out_witness :
  exists w',
    ObservableList.remove nobody 5 0 0 (Some 5) shifted_list = Ret 2 w'
    /\ ObservableList.storage_of (heap w') 0 = [].
Proof.
  destruct (remove_takes_the_range_out nobody 0 nobody_quiet (nobody_untouched_list 0)
              5 0 (Some 5) (the_list (heap shifted_list) 0) shifted_list
              (within_mono 5 2 _ ltac:(lia) shifted_list_within) eq_refl
              ltac:(split; [lia | apply Z.ltb_lt; reflexivity])
              ltac:(apply Z.ltb_lt; reflexivity))
    as (w' & H1 & H2 & _).
  exists w'. split; [exact H1 | exact H2].
Defined.


Lemma splice_compared_with_Array_splice_witness :
  ObservableList.toArray (heap shifted_list) 0 = [VStr "z"; VObservable 0]
  /\ (exists removedItems w',
        ObservableList.splice nobody 5 0 1 (Some 1) [VStr "p"; VStr "q"] shifted_list
        = Ret removedItems w'
        /\ ObservableList.toArray (heap w') 0 = [VStr "z"; VStr "p"; VStr "q"])
  /\ (exists removedItems w',
        ObservableList.splice nobody 5 0 1 None [VStr "p"] shifted_list = Ret removedItems w'
        /\ ObservableList.toArray (heap w') 0 = [VStr "z"; VStr "p"]
        /\ Array_splice_call [VStr "z"; VObservable 0] 1 CountUndefined [VStr "p"]
           = [VStr "z"; VStr "p"; VObservable 0]).
Proof.
  split; [reflexivity |]. split.
  - destruct (splice_compared_with_Array_splice nobody 0 nobody_quiet
                (nobody_untouched_list 0) 5 2 1 (CountInt 1) [VStr "p"; VStr "q"]
                (the_list (heap shifted_list) 0) shifted_list shifted_list_within
                ltac:(cbn; lia) eq_refl ltac:(intros item _; reflexivity)
                ltac:(discriminate))
      as (removedItems & w' & H1 & H2).
    exists removedItems, w'. split; [exact H1 |]. rewrite H2. reflexivity.
  - destruct (splice_compared_with_Array_splice nobody 0 nobody_quiet
                (nobody_untouched_list 0) 5 2 1 CountUndefined [VStr "p"]
                (the_list (heap shifted_list) 0) shifted_list shifted_list_within
                ltac:(cbn; lia) eq_refl ltac:(intros item _; reflexivity)
                ltac:(discriminate))
      as (removedItems & w' & H1 & H2 & _).
    exists removedItems, w'. split; [exact H1 |]. split; [rewrite H2 |]; reflexivity.
Defined.

Lemma clear_empties_the_list_witness :
  exists w',
    ObservableList.clear nobody 5 0 shifted_list = Ret tt w'
    /\ ObservableList.storage_of (heap w') 0 = [].
Proof.
  destruct (clear_empties_the_list nobody 0 nobody_quiet (nobody_untouched_list 0) 5
              (the_list (heap shifted_list) 0) shifted_list
              (within_mono 5 2 _ ltac:(lia) shifted_list_within) eq_refl)
    as (w' & H1 & H2 & _).
  exists w'. split; [exact H1 | exact H2].
Defined.

Lemma a_new_list_copies_what_the_validator_accepts_witness :
  exists w',
    ObservableList.ETO_ObservableList nobody 5 (Some is_string)
      (Some [VStr "a"; VNum 1; VStr "b"]) empty_world
    = Ret 0%nat w'
    /\ ObservableList.toArray (heap w') 0 = [VStr "a"; VStr "b"].
Proof.
  destruct (a_new_list_copies_what_the_validator_accepts nobody 5 (Some is_string)
              [VStr "a"; VNum 1; VStr "b"] empty_world ltac:(lia))
    as (w' & H1 & H2 & _).
  exists w'. split; [exact H1 | exact H2].
Defined.
